(** * TailoringWindow: the undo-aware mutation engine of the tailoring editor

    A shallow embedding of [src/TailoringWindow.cpp].  Member functions of
    the window, of its two dock widgets and of the four undo commands become
    functions on an explicit state; exceptions, failed assertions and null
    dereferences become constructors of an error type.

    The document model (OpenSCAP) and the widget toolkit (Qt) are not part of
    the sources.  What the code asks of OpenSCAP's evaluation functions is
    kept abstract in the class [OpenSCAP]; the containers it appends to are
    lists; Qt's undo stack and tree items are modelled by small records. *)

From stdpp Require Import base list strings option.
From Stdlib Require Import ZArith Lia.

Set Warnings "-register-all".
Local Open Scope nat_scope.

(** ** Outcomes of a member function *)

Inductive result (A : Type) : Type :=
| Ok (a : A)
| Throw (what : string)      (* a TailoringWindowException *)
| AssertionFailed            (* assert(...) evaluated to false *)
| Fault                      (* a null or dangling pointer was used *)
| OutOfFuel.                 (* signal delivery nested deeper than the fuel *)
Arguments Ok {A} a.
Arguments Throw {A} what.
Arguments AssertionFailed {A}.
Arguments Fault {A}.
Arguments OutOfFuel {A}.

#[global] Instance result_ret : MRet result := fun _ a => Ok a.
#[global] Instance result_bind : MBind result := fun _ _ f m =>
  match m with
  | Ok a => f a
  | Throw what => Throw what
  | AssertionFailed => AssertionFailed
  | Fault => Fault
  | OutOfFuel => OutOfFuel
  end.

(** [assert] of <cassert>, with NDEBUG not defined: the continuation runs
    only when the condition holds. *)
Definition assert {A} (cond : bool) (k : result A) : result A :=
  if cond then k else AssertionFailed.

Definition is_Ok {A} (r : result A) : bool :=
  match r with Ok _ => true | _ => false end.

(** ** The document model, as far as the window looks at it *)

Inductive xccdf_type_t :=
| XCCDF_BENCHMARK | XCCDF_PROFILE | XCCDF_RESULT
| XCCDF_RULE | XCCDF_GROUP | XCCDF_VALUE.

Inductive xccdf_value_type_t :=
| XCCDF_TYPE_NUMBER | XCCDF_TYPE_STRING | XCCDF_TYPE_BOOLEAN.

Record oscap_text := {
  oscap_text_get_lang : string;
  oscap_text_get_text : string }.

(** What every item carries: identifier, localized title and description,
    and the selection the document itself declares. *)
Record item_header := {
  header_id : string;
  header_title : list oscap_text;
  header_description : list oscap_text;
  header_selected : bool }.

Record xccdf_value := {
  value_header : item_header;
  xccdf_value_get_type : xccdf_value_type_t;
  xccdf_value_get_instances : list string }.

Inductive xccdf_item :=
| XBenchmark (h : item_header) (values : list xccdf_value) (content : list xccdf_item)
| XGroup (h : item_header) (values : list xccdf_value) (content : list xccdf_item)
| XRule (h : item_header)
| XValue (v : xccdf_value).

Record xccdf_select := {
  xccdf_select_get_item : string;
  xccdf_select_get_selected : bool }.

Record xccdf_setvalue := {
  xccdf_setvalue_get_item : string;
  xccdf_setvalue_get_value : string }.

Record xccdf_profile := {
  xccdf_profile_get_id : string;
  xccdf_profile_get_title : list oscap_text;
  xccdf_profile_get_description : list oscap_text;
  xccdf_profile_get_selects : list xccdf_select;
  xccdf_profile_get_setvalues : list xccdf_setvalue }.

(** The policy refers to its profile; [mProfile] of the window is that same
    object, so the model keeps one copy, inside the policy. *)
Record xccdf_policy := {
  xccdf_policy_get_profile : xccdf_profile;
  xccdf_policy_get_selects : list xccdf_select }.

#[global] Instance xccdf_type_eq_dec : EqDecision xccdf_type_t.
Proof. solve_decision. Defined.
#[global] Instance xccdf_value_type_eq_dec : EqDecision xccdf_value_type_t.
Proof. solve_decision. Defined.
#[global] Instance oscap_text_eq_dec : EqDecision oscap_text.
Proof. solve_decision. Defined.
#[global] Instance item_header_eq_dec : EqDecision item_header.
Proof. solve_decision. Defined.
#[global] Instance xccdf_value_eq_dec : EqDecision xccdf_value.
Proof. solve_decision. Defined.
#[global] Instance xccdf_select_eq_dec : EqDecision xccdf_select.
Proof. solve_decision. Defined.
#[global] Instance xccdf_setvalue_eq_dec : EqDecision xccdf_setvalue.
Proof. solve_decision. Defined.

(** Items are compared by address in the source; the model compares the
    items themselves. *)
Fixpoint xccdf_item_eqb (x y : xccdf_item) : bool :=
  let fix all2 (xs ys : list xccdf_item) : bool :=
    match xs, ys with
    | [], [] => true
    | x' :: xs', y' :: ys' => xccdf_item_eqb x' y' && all2 xs' ys'
    | _, _ => false
    end in
  match x, y with
  | XBenchmark h vs cs, XBenchmark h' vs' cs' =>
      bool_decide (h = h') && bool_decide (vs = vs') && all2 cs cs'
  | XGroup h vs cs, XGroup h' vs' cs' =>
      bool_decide (h = h') && bool_decide (vs = vs') && all2 cs cs'
  | XRule h, XRule h' => bool_decide (h = h')
  | XValue v, XValue v' => bool_decide (v = v')
  | _, _ => false
  end.

Definition xccdf_item_get_type (item : xccdf_item) : xccdf_type_t :=
  match item with
  | XBenchmark _ _ _ => XCCDF_BENCHMARK
  | XGroup _ _ _ => XCCDF_GROUP
  | XRule _ => XCCDF_RULE
  | XValue _ => XCCDF_VALUE
  end.

Definition xccdf_item_header (item : xccdf_item) : item_header :=
  match item with
  | XBenchmark h _ _ | XGroup h _ _ | XRule h => h
  | XValue v => value_header v
  end.

Definition xccdf_item_get_id (item : xccdf_item) : string :=
  header_id (xccdf_item_header item).
Definition xccdf_item_get_title (item : xccdf_item) : list oscap_text :=
  header_title (xccdf_item_header item).
Definition xccdf_item_get_description (item : xccdf_item) : list oscap_text :=
  header_description (xccdf_item_header item).
Definition xccdf_item_get_selected (item : xccdf_item) : bool :=
  header_selected (xccdf_item_header item).

Definition xccdf_value_to_item (value : xccdf_value) : xccdf_item := XValue value.
Definition xccdf_value_get_id (value : xccdf_value) : string :=
  header_id (value_header value).
Definition xccdf_item_to_value (item : xccdf_item) : option xccdf_value :=
  match item with XValue v => Some v | _ => None end.

(** The evaluation functions of the library the window calls.  The select
    lookup reads the policy's selects, the value lookup the profile's
    setvalues, the preferred text one list of localized texts. *)
Class OpenSCAP := {
  OSCAP_LANG_DEFAULT : string;
  select_by_id : list xccdf_select → string → option xccdf_select;
  value_of_item : list xccdf_setvalue → xccdf_item → string;
  textlist_get_preferred : list oscap_text → string }.

Section Accessors.
Context `{OpenSCAP}.

Definition xccdf_policy_get_select_by_id (policy : xccdf_policy) (id : string)
  : option xccdf_select :=
  select_by_id (xccdf_policy_get_selects policy) id.

Definition xccdf_policy_get_value_of_item (policy : xccdf_policy) (item : xccdf_item)
  : string :=
  value_of_item (xccdf_profile_get_setvalues (xccdf_policy_get_profile policy)) item.

Definition oscapTextIteratorGetPreferred (texts : list oscap_text) : string :=
  textlist_get_preferred texts.

End Accessors.

(** ** The window and what it owns *)

(** The four undo commands.  [mTreeItem] is the position of the tree item
    under the top-level item of the tree: the list of child indices. *)
Inductive QUndoCommand :=
| ProfileTitleChangeUndoCommand (mOldTitle mNewTitle : string)
| ProfileDescriptionChangeUndoCommand (mOldDesc mNewDesc : string)
| XCCDFItemSelectUndoCommand (mTreeItem : list nat) (mNewSelect : bool)
| XCCDFValueChangeUndoCommand (mXccdfValue : xccdf_value) (mNewValue mOldValue : string).

(** Qt's undo stack: the commands and the number of them that are applied. *)
Record QUndoStack := {
  command_list : list QUndoCommand;
  stack_index : nat }.

Record ProfilePropertiesDockWidget := {
  profile_mRefreshInProgress : bool;
  profile_ui_id : string;
  profile_ui_title : string;
  profile_ui_description : string }.

Inductive QValidator := QIntValidator | QRegExpValidator (regex : string).

Record XCCDFItemPropertiesDockWidget := {
  mXccdfItem : option xccdf_item;
  item_mRefreshInProgress : bool;
  ui_titleLineEdit : string;
  ui_idLineEdit : string;
  ui_typeLineEdit : string;
  ui_descriptionBrowser : string;
  ui_valueGroupBox_shown : bool;
  ui_valueComboBox_items : list (option string);   (* [None] is a separator *)
  ui_valueComboBox_editText : string;
  ui_valueComboBox_validator : option QValidator;
  ui_valueTypeLabel : string }.

Record TailoringWindow := {
  mSynchronizeItemLock : nat;
  mItemPropertiesDockWidget : XCCDFItemPropertiesDockWidget;
  mProfilePropertiesDockWidget : ProfilePropertiesDockWidget;
  mPolicy : xccdf_policy;
  mUndoStack : QUndoStack;
  mNewProfile : bool;
  mChangesConfirmed : bool }.

Definition mProfile (w : TailoringWindow) : xccdf_profile :=
  xccdf_policy_get_profile (mPolicy w).

Definition with_mPolicy (f : xccdf_policy → xccdf_policy) (w : TailoringWindow) :=
  {| mSynchronizeItemLock := mSynchronizeItemLock w;
     mItemPropertiesDockWidget := mItemPropertiesDockWidget w;
     mProfilePropertiesDockWidget := mProfilePropertiesDockWidget w;
     mPolicy := f (mPolicy w);
     mUndoStack := mUndoStack w;
     mNewProfile := mNewProfile w;
     mChangesConfirmed := mChangesConfirmed w |}.

Definition with_profile (f : xccdf_profile → xccdf_profile) (policy : xccdf_policy) :=
  {| xccdf_policy_get_profile := f (xccdf_policy_get_profile policy);
     xccdf_policy_get_selects := xccdf_policy_get_selects policy |}.

Definition with_mProfile (f : xccdf_profile → xccdf_profile) (w : TailoringWindow) :=
  with_mPolicy (with_profile f) w.

Definition with_mSynchronizeItemLock (f : nat → nat) (w : TailoringWindow) :=
  {| mSynchronizeItemLock := f (mSynchronizeItemLock w);
     mItemPropertiesDockWidget := mItemPropertiesDockWidget w;
     mProfilePropertiesDockWidget := mProfilePropertiesDockWidget w;
     mPolicy := mPolicy w;
     mUndoStack := mUndoStack w;
     mNewProfile := mNewProfile w;
     mChangesConfirmed := mChangesConfirmed w |}.

Definition with_mUndoStack (f : QUndoStack → QUndoStack) (w : TailoringWindow) :=
  {| mSynchronizeItemLock := mSynchronizeItemLock w;
     mItemPropertiesDockWidget := mItemPropertiesDockWidget w;
     mProfilePropertiesDockWidget := mProfilePropertiesDockWidget w;
     mPolicy := mPolicy w;
     mUndoStack := f (mUndoStack w);
     mNewProfile := mNewProfile w;
     mChangesConfirmed := mChangesConfirmed w |}.

Definition with_mProfilePropertiesDockWidget
    (f : ProfilePropertiesDockWidget → ProfilePropertiesDockWidget) (w : TailoringWindow) :=
  {| mSynchronizeItemLock := mSynchronizeItemLock w;
     mItemPropertiesDockWidget := mItemPropertiesDockWidget w;
     mProfilePropertiesDockWidget := f (mProfilePropertiesDockWidget w);
     mPolicy := mPolicy w;
     mUndoStack := mUndoStack w;
     mNewProfile := mNewProfile w;
     mChangesConfirmed := mChangesConfirmed w |}.

Definition with_mItemPropertiesDockWidget
    (f : XCCDFItemPropertiesDockWidget → XCCDFItemPropertiesDockWidget) (w : TailoringWindow) :=
  {| mSynchronizeItemLock := mSynchronizeItemLock w;
     mItemPropertiesDockWidget := f (mItemPropertiesDockWidget w);
     mProfilePropertiesDockWidget := mProfilePropertiesDockWidget w;
     mPolicy := mPolicy w;
     mUndoStack := mUndoStack w;
     mNewProfile := mNewProfile w;
     mChangesConfirmed := mChangesConfirmed w |}.

Definition with_flags (newProfile changesConfirmed : bool) (w : TailoringWindow) :=
  {| mSynchronizeItemLock := mSynchronizeItemLock w;
     mItemPropertiesDockWidget := mItemPropertiesDockWidget w;
     mProfilePropertiesDockWidget := mProfilePropertiesDockWidget w;
     mPolicy := mPolicy w;
     mUndoStack := mUndoStack w;
     mNewProfile := newProfile;
     mChangesConfirmed := changesConfirmed |}.

(** The library's list operations on profile and policy. *)
Definition xccdf_profile_add_select (sel : xccdf_select) (profile : xccdf_profile) :=
  {| xccdf_profile_get_id := xccdf_profile_get_id profile;
     xccdf_profile_get_title := xccdf_profile_get_title profile;
     xccdf_profile_get_description := xccdf_profile_get_description profile;
     xccdf_profile_get_selects := xccdf_profile_get_selects profile ++ [sel];
     xccdf_profile_get_setvalues := xccdf_profile_get_setvalues profile |}.

Definition xccdf_profile_add_setvalue (sv : xccdf_setvalue) (profile : xccdf_profile) :=
  {| xccdf_profile_get_id := xccdf_profile_get_id profile;
     xccdf_profile_get_title := xccdf_profile_get_title profile;
     xccdf_profile_get_description := xccdf_profile_get_description profile;
     xccdf_profile_get_selects := xccdf_profile_get_selects profile;
     xccdf_profile_get_setvalues := xccdf_profile_get_setvalues profile ++ [sv] |}.

Definition xccdf_policy_add_select (sel : xccdf_select) (policy : xccdf_policy) :=
  {| xccdf_policy_get_profile := xccdf_policy_get_profile policy;
     xccdf_policy_get_selects := xccdf_policy_get_selects policy ++ [sel] |}.

Definition xccdf_profile_set_title (texts : list oscap_text) (profile : xccdf_profile) :=
  {| xccdf_profile_get_id := xccdf_profile_get_id profile;
     xccdf_profile_get_title := texts;
     xccdf_profile_get_description := xccdf_profile_get_description profile;
     xccdf_profile_get_selects := xccdf_profile_get_selects profile;
     xccdf_profile_get_setvalues := xccdf_profile_get_setvalues profile |}.

Definition xccdf_profile_set_description (texts : list oscap_text) (profile : xccdf_profile) :=
  {| xccdf_profile_get_id := xccdf_profile_get_id profile;
     xccdf_profile_get_title := xccdf_profile_get_title profile;
     xccdf_profile_get_description := texts;
     xccdf_profile_get_selects := xccdf_profile_get_selects profile;
     xccdf_profile_get_setvalues := xccdf_profile_get_setvalues profile |}.

Definition bool_to_digit (b : bool) : string := if b then "1" else "0".

Section Mutators.
Context `{OpenSCAP}.

(** *** Selection state accessor (lines 537-559) *)

Definition getXccdfItemInternalSelected (policy : xccdf_policy) (item : xccdf_item) : bool :=
  match xccdf_policy_get_select_by_id policy (xccdf_item_get_id item) with
  | Some select => xccdf_select_get_selected select
  | None => xccdf_item_get_selected item
  end.

Definition setItemSelected_what (xccdfItem : xccdf_item) (selected : bool) : string :=
  "Even though xccdf_select was added to both profile and policy to make '"
    +:+ xccdf_item_get_id xccdfItem +:+ "' selected=" +:+ bool_to_digit selected
    +:+ ", it remains selected=" +:+ bool_to_digit (negb selected) +:+ ".".

(** The two additions of [setItemSelected], before its check. *)
Definition add_select_to_both (xccdfItem : xccdf_item) (selected : bool)
    (w : TailoringWindow) : TailoringWindow :=
  let newSelect := {| xccdf_select_get_item := xccdf_item_get_id xccdfItem;
                      xccdf_select_get_selected := selected |} in
  let w1 := with_mProfile (xccdf_profile_add_select newSelect) w in
  with_mPolicy (xccdf_policy_add_select newSelect) w1.

Definition setItemSelected (xccdfItem : xccdf_item) (selected : bool)
    (w : TailoringWindow) : result TailoringWindow :=
  let w2 := add_select_to_both xccdfItem selected w in
  if negb (eqb (getXccdfItemInternalSelected (mPolicy w2) xccdfItem) selected)
  then Throw (setItemSelected_what xccdfItem selected)
  else Ok w2.

(** *** Value override store (lines 707-726) *)

Definition getCurrentValueValue (xccdfValue : xccdf_value) (w : TailoringWindow) : string :=
  xccdf_policy_get_value_of_item (mPolicy w) (xccdf_value_to_item xccdfValue).

Definition add_setvalue (xccdfValue : xccdf_value) (newValue : string)
    (w : TailoringWindow) : TailoringWindow :=
  let setvalue := {| xccdf_setvalue_get_item := xccdf_value_get_id xccdfValue;
                     xccdf_setvalue_get_value := newValue |} in
  with_mProfile (xccdf_profile_add_setvalue setvalue) w.

Definition setValueValue (xccdfValue : xccdf_value) (newValue : string)
    (w : TailoringWindow) : result TailoringWindow :=
  let w1 := add_setvalue xccdfValue newValue w in
  assert (bool_decide (getCurrentValueValue xccdfValue w1 = newValue)) (Ok w1).

(** *** Profile title and description (lines 733-803) *)

Definition getProfileID (w : TailoringWindow) : string :=
  xccdf_profile_get_id (mProfile w).

(** The loop of [setProfileTitle] and [setProfileDescription]: [chosen] is
    the position of the text picked so far, [i] that of the next candidate. *)
Fixpoint choose_text (texts : list oscap_text) (i : nat) (chosen : option nat) : option nat :=
  match texts with
  | [] => chosen
  | candidate :: rest =>
      choose_text rest (S i)
        (if negb (bool_decide (is_Some chosen))
            || bool_decide (oscap_text_get_lang candidate = OSCAP_LANG_DEFAULT)
         then Some i else chosen)
  end.

(** [oscap_text_set_text] followed by [oscap_text_set_lang] on one text. *)
Definition edit_text (texts : list oscap_text) (i : nat) (text : string) : list oscap_text :=
  <[ i := {| oscap_text_get_lang := OSCAP_LANG_DEFAULT; oscap_text_get_text := text |} ]> texts.

Definition getProfileTitle (w : TailoringWindow) : string :=
  oscapTextIteratorGetPreferred (xccdf_profile_get_title (mProfile w)).

Definition getProfileDescription (w : TailoringWindow) : string :=
  oscapTextIteratorGetPreferred (xccdf_profile_get_description (mProfile w)).

Definition setProfileTitle_what : string :=
  "Not suitable oscap_text found that we could edit to change profile title.".
Definition setProfileDescription_what : string :=
  "Not suitable oscap_text found that we could edit to change profile description.".

Definition setProfileTitle (title : string) (w : TailoringWindow) : result TailoringWindow :=
  let titles := xccdf_profile_get_title (mProfile w) in
  match choose_text titles 0 None with
  | Some titleText =>
      let w1 := with_mProfile (xccdf_profile_set_title (edit_text titles titleText title)) w in
      assert (bool_decide (getProfileTitle w1 = title)) (Ok w1)
  | None => Throw setProfileTitle_what
  end.

Definition setProfileDescription (description : string) (w : TailoringWindow)
    : result TailoringWindow :=
  let descriptions := xccdf_profile_get_description (mProfile w) in
  match choose_text descriptions 0 None with
  | Some descText =>
      let w1 := with_mProfile
                  (xccdf_profile_set_description (edit_text descriptions descText description)) w in
      assert (bool_decide (getProfileDescription w1 = description)) (Ok w1)
  | None => Throw setProfileDescription_what
  end.

End Mutators.

(** ** The undo stack (Qt's QUndoStack, as the window uses it) *)

Definition QUndoCommand_id (cmd : QUndoCommand) : Z :=
  match cmd with
  | XCCDFItemSelectUndoCommand _ _ => 1
  | ProfileTitleChangeUndoCommand _ _ => 2
  | ProfileDescriptionChangeUndoCommand _ _ => 3
  | XCCDFValueChangeUndoCommand _ _ _ => 4
  end%Z.

(** [self->mergeWith(other)]: [Some] of the updated [self] when it returns
    true, [None] when it returns false.  The select command does not
    override the base class, whose [mergeWith] returns false.  The
    [static_cast]s are to the command's own class, which the equal ids
    select. *)
Definition QUndoCommand_mergeWith (self other : QUndoCommand) : option QUndoCommand :=
  match self with
  | ProfileTitleChangeUndoCommand mOldTitle _ =>
      if bool_decide (QUndoCommand_id other ≠ QUndoCommand_id self) then None
      else match other with
           | ProfileTitleChangeUndoCommand _ mNewTitle' =>
               Some (ProfileTitleChangeUndoCommand mOldTitle mNewTitle')
           | _ => None
           end
  | ProfileDescriptionChangeUndoCommand mOldDesc _ =>
      if bool_decide (QUndoCommand_id other ≠ QUndoCommand_id self) then None
      else match other with
           | ProfileDescriptionChangeUndoCommand _ mNewDesc' =>
               Some (ProfileDescriptionChangeUndoCommand mOldDesc mNewDesc')
           | _ => None
           end
  | XCCDFItemSelectUndoCommand _ _ => None
  | XCCDFValueChangeUndoCommand mXccdfValue _ mOldValue =>
      if bool_decide (QUndoCommand_id other ≠ QUndoCommand_id self) then None
      else match other with
           | XCCDFValueChangeUndoCommand mXccdfValue' mNewValue' _ =>
               if bool_decide (mXccdfValue' ≠ mXccdfValue) then None
               else Some (XCCDFValueChangeUndoCommand mXccdfValue mNewValue' mOldValue)
           | _ => None
           end
  end.

(** What [QUndoStack::push] does to the list once the command has been
    executed: commands above the current position are dropped; the command
    merges into the one below the position when both have the same id (not
    -1) and [mergeWith] agrees, and is appended otherwise.  The window never
    marks the stack clean, so Qt's clean index stays out of the way. *)
Definition QUndoStack_enter (cmd : QUndoCommand) (stack : QUndoStack) : QUndoStack :=
  let kept := take (stack_index stack) (command_list stack) in
  let appended := {| command_list := kept ++ [cmd];
                     stack_index := S (stack_index stack) |} in
  match stack_index stack with
  | 0 => appended
  | S below =>
      match command_list stack !! below with
      | Some cur =>
          if bool_decide (QUndoCommand_id cur ≠ (-1)%Z)
             && bool_decide (QUndoCommand_id cur = QUndoCommand_id cmd)
          then match QUndoCommand_mergeWith cur cmd with
               | Some merged => {| command_list := <[ below := merged ]> kept;
                                   stack_index := stack_index stack |}
               | None => appended
               end
          else appended
      | None => appended
      end
  end.

(** [QUndoStack::push]: the command's [redo] runs first, then the list is
    updated.  [redo] is the pushed command's own, [on_stack] says where the
    stack lives in the state the command works on. *)
Definition QUndoStack_push {S : Type} (on_stack : (QUndoStack → QUndoStack) → S → S)
    (redo : S → result S) (cmd : QUndoCommand) (s : S) : result S :=
  s1 ← redo s;
  Ok (on_stack (QUndoStack_enter cmd) s1).

(** ** The two dock widgets (lines 39-221) *)

(** The signals of the dock widgets' fields that have a slot connected. *)
Inductive PanelSignal :=
| title_textChanged (text : string)
| description_textChanged
| valueComboBox_editTextChanged (text : string).

Definition with_profile_mRefreshInProgress (b : bool) (d : ProfilePropertiesDockWidget) :=
  {| profile_mRefreshInProgress := b;
     profile_ui_id := profile_ui_id d;
     profile_ui_title := profile_ui_title d;
     profile_ui_description := profile_ui_description d |}.
Definition with_profile_ui_id (text : string) (d : ProfilePropertiesDockWidget) :=
  {| profile_mRefreshInProgress := profile_mRefreshInProgress d;
     profile_ui_id := text;
     profile_ui_title := profile_ui_title d;
     profile_ui_description := profile_ui_description d |}.
Definition with_profile_ui_title (text : string) (d : ProfilePropertiesDockWidget) :=
  {| profile_mRefreshInProgress := profile_mRefreshInProgress d;
     profile_ui_id := profile_ui_id d;
     profile_ui_title := text;
     profile_ui_description := profile_ui_description d |}.
Definition with_profile_ui_description (text : string) (d : ProfilePropertiesDockWidget) :=
  {| profile_mRefreshInProgress := profile_mRefreshInProgress d;
     profile_ui_id := profile_ui_id d;
     profile_ui_title := profile_ui_title d;
     profile_ui_description := text |}.

Definition with_item_mRefreshInProgress (b : bool) (d : XCCDFItemPropertiesDockWidget) :=
  {| mXccdfItem := mXccdfItem d;
     item_mRefreshInProgress := b;
     ui_titleLineEdit := ui_titleLineEdit d;
     ui_idLineEdit := ui_idLineEdit d;
     ui_typeLineEdit := ui_typeLineEdit d;
     ui_descriptionBrowser := ui_descriptionBrowser d;
     ui_valueGroupBox_shown := ui_valueGroupBox_shown d;
     ui_valueComboBox_items := ui_valueComboBox_items d;
     ui_valueComboBox_editText := ui_valueComboBox_editText d;
     ui_valueComboBox_validator := ui_valueComboBox_validator d;
     ui_valueTypeLabel := ui_valueTypeLabel d |}.
Definition with_mXccdfItem (item : option xccdf_item) (d : XCCDFItemPropertiesDockWidget) :=
  {| mXccdfItem := item;
     item_mRefreshInProgress := item_mRefreshInProgress d;
     ui_titleLineEdit := ui_titleLineEdit d;
     ui_idLineEdit := ui_idLineEdit d;
     ui_typeLineEdit := ui_typeLineEdit d;
     ui_descriptionBrowser := ui_descriptionBrowser d;
     ui_valueGroupBox_shown := ui_valueGroupBox_shown d;
     ui_valueComboBox_items := ui_valueComboBox_items d;
     ui_valueComboBox_editText := ui_valueComboBox_editText d;
     ui_valueComboBox_validator := ui_valueComboBox_validator d;
     ui_valueTypeLabel := ui_valueTypeLabel d |}.
(** The four read-only fields: title, id, type, description. *)
Definition with_item_labels (title id type description : string)
    (d : XCCDFItemPropertiesDockWidget) :=
  {| mXccdfItem := mXccdfItem d;
     item_mRefreshInProgress := item_mRefreshInProgress d;
     ui_titleLineEdit := title;
     ui_idLineEdit := id;
     ui_typeLineEdit := type;
     ui_descriptionBrowser := description;
     ui_valueGroupBox_shown := ui_valueGroupBox_shown d;
     ui_valueComboBox_items := ui_valueComboBox_items d;
     ui_valueComboBox_editText := ui_valueComboBox_editText d;
     ui_valueComboBox_validator := ui_valueComboBox_validator d;
     ui_valueTypeLabel := ui_valueTypeLabel d |}.
Definition with_valueGroupBox_shown (b : bool) (d : XCCDFItemPropertiesDockWidget) :=
  {| mXccdfItem := mXccdfItem d;
     item_mRefreshInProgress := item_mRefreshInProgress d;
     ui_titleLineEdit := ui_titleLineEdit d;
     ui_idLineEdit := ui_idLineEdit d;
     ui_typeLineEdit := ui_typeLineEdit d;
     ui_descriptionBrowser := ui_descriptionBrowser d;
     ui_valueGroupBox_shown := b;
     ui_valueComboBox_items := ui_valueComboBox_items d;
     ui_valueComboBox_editText := ui_valueComboBox_editText d;
     ui_valueComboBox_validator := ui_valueComboBox_validator d;
     ui_valueTypeLabel := ui_valueTypeLabel d |}.
Definition with_valueComboBox (items : list (option string)) (editText : string)
    (d : XCCDFItemPropertiesDockWidget) :=
  {| mXccdfItem := mXccdfItem d;
     item_mRefreshInProgress := item_mRefreshInProgress d;
     ui_titleLineEdit := ui_titleLineEdit d;
     ui_idLineEdit := ui_idLineEdit d;
     ui_typeLineEdit := ui_typeLineEdit d;
     ui_descriptionBrowser := ui_descriptionBrowser d;
     ui_valueGroupBox_shown := ui_valueGroupBox_shown d;
     ui_valueComboBox_items := items;
     ui_valueComboBox_editText := editText;
     ui_valueComboBox_validator := ui_valueComboBox_validator d;
     ui_valueTypeLabel := ui_valueTypeLabel d |}.
Definition with_validator (validator : option QValidator) (d : XCCDFItemPropertiesDockWidget) :=
  {| mXccdfItem := mXccdfItem d;
     item_mRefreshInProgress := item_mRefreshInProgress d;
     ui_titleLineEdit := ui_titleLineEdit d;
     ui_idLineEdit := ui_idLineEdit d;
     ui_typeLineEdit := ui_typeLineEdit d;
     ui_descriptionBrowser := ui_descriptionBrowser d;
     ui_valueGroupBox_shown := ui_valueGroupBox_shown d;
     ui_valueComboBox_items := ui_valueComboBox_items d;
     ui_valueComboBox_editText := ui_valueComboBox_editText d;
     ui_valueComboBox_validator := validator;
     ui_valueTypeLabel := ui_valueTypeLabel d |}.
Definition with_valueTypeLabel (text : string) (d : XCCDFItemPropertiesDockWidget) :=
  {| mXccdfItem := mXccdfItem d;
     item_mRefreshInProgress := item_mRefreshInProgress d;
     ui_titleLineEdit := ui_titleLineEdit d;
     ui_idLineEdit := ui_idLineEdit d;
     ui_typeLineEdit := ui_typeLineEdit d;
     ui_descriptionBrowser := ui_descriptionBrowser d;
     ui_valueGroupBox_shown := ui_valueGroupBox_shown d;
     ui_valueComboBox_items := ui_valueComboBox_items d;
     ui_valueComboBox_editText := ui_valueComboBox_editText d;
     ui_valueComboBox_validator := ui_valueComboBox_validator d;
     ui_valueTypeLabel := text |}.

Definition boolean_regex : string :=
  "true|false|True|False|TRUE|FALSE|1|0|yes|no|Yes|No|YES|NO".

Definition type_label (type : xccdf_type_t) (unchanged : string) : string :=
  match type with
  | XCCDF_BENCHMARK => "xccdf:Benchmark"
  | XCCDF_GROUP => "xccdf:Group"
  | XCCDF_RULE => "xccdf:Rule"
  | XCCDF_VALUE => "xccdf:Value"
  | _ => unchanged
  end.

Section Panels.
Context `{OpenSCAP}.

(** How Qt hands a signal of a dock widget's field to the connected slot. *)
Variable deliver : PanelSignal → TailoringWindow → result TailoringWindow.

Definition profile_panel := mProfilePropertiesDockWidget.
Definition item_panel := mItemPropertiesDockWidget.

(** Setters of the fields whose change signal has a slot connected
    (lines 47-55 and 111-114): the field changes, then the slot runs. *)
Definition ui_title_setText (text : string) (w : TailoringWindow) : result TailoringWindow :=
  deliver (title_textChanged text)
    (with_mProfilePropertiesDockWidget (with_profile_ui_title text) w).

Definition ui_description_setPlainText (text : string) (w : TailoringWindow)
    : result TailoringWindow :=
  deliver description_textChanged
    (with_mProfilePropertiesDockWidget (with_profile_ui_description text) w).

Definition ui_valueComboBox_clear (w : TailoringWindow) : result TailoringWindow :=
  deliver (valueComboBox_editTextChanged String.EmptyString)
    (with_mItemPropertiesDockWidget (with_valueComboBox [] String.EmptyString) w).

Definition ui_valueComboBox_setEditText (text : string) (w : TailoringWindow)
    : result TailoringWindow :=
  deliver (valueComboBox_editTextChanged text)
    (with_mItemPropertiesDockWidget
       (fun d => with_valueComboBox (ui_valueComboBox_items d) text d) w).

(** The first item added to an empty combo box becomes its current text. *)
Definition ui_valueComboBox_addItem (text : string) (w : TailoringWindow)
    : result TailoringWindow :=
  let d := item_panel w in
  let editText := match ui_valueComboBox_items d with
                  | [] => text
                  | _ => ui_valueComboBox_editText d
                  end in
  deliver (valueComboBox_editTextChanged editText)
    (with_mItemPropertiesDockWidget
       (with_valueComboBox (ui_valueComboBox_items d ++ [Some text]) editText) w).

Definition ui_valueComboBox_insertSeparator (index : nat) (w : TailoringWindow)
    : TailoringWindow :=
  with_mItemPropertiesDockWidget
    (fun d => let items := ui_valueComboBox_items d in
              with_valueComboBox (take index items ++ None :: drop index items)
                (ui_valueComboBox_editText d) d) w.

(** [ProfilePropertiesDockWidget::refresh] (lines 61-81). *)
Definition ProfilePropertiesDockWidget_refresh (w : TailoringWindow) : result TailoringWindow :=
  let w1 :=
    if negb (bool_decide (profile_ui_id (profile_panel w) = getProfileID w))
    then with_mProfilePropertiesDockWidget (with_profile_ui_id (getProfileID w)) w
    else w in
  w2 ← (if negb (bool_decide (profile_ui_title (profile_panel w1) = getProfileTitle w1))
        then
          let wa := with_mProfilePropertiesDockWidget (with_profile_mRefreshInProgress true) w1 in
          wb ← ui_title_setText (getProfileTitle wa) wa;
          Ok (with_mProfilePropertiesDockWidget (with_profile_mRefreshInProgress false) wb)
        else Ok w1);
  if negb (bool_decide (profile_ui_description (profile_panel w2) = getProfileDescription w2))
  then
    let wa := with_mProfilePropertiesDockWidget (with_profile_mRefreshInProgress true) w2 in
    wb ← ui_description_setPlainText (getProfileDescription wa) wa;
    Ok (with_mProfilePropertiesDockWidget (with_profile_mRefreshInProgress false) wb)
  else Ok w2.

(** The part of [XCCDFItemPropertiesDockWidget::refresh] for a Value item
    (lines 171-208). *)
Definition refresh_value (value : xccdf_value) (w : TailoringWindow) : result TailoringWindow :=
  let w1 :=
    match xccdf_value_get_type value with
    | XCCDF_TYPE_NUMBER =>
        with_mItemPropertiesDockWidget
          (fun d => with_valueTypeLabel "(number)" (with_validator (Some QIntValidator) d)) w
    | XCCDF_TYPE_STRING =>
        with_mItemPropertiesDockWidget
          (fun d => with_valueTypeLabel "(string)" (with_validator None d)) w
    | XCCDF_TYPE_BOOLEAN =>
        with_mItemPropertiesDockWidget
          (fun d => with_valueTypeLabel "(bool)"
                      (with_validator (Some (QRegExpValidator boolean_regex)) d)) w
    end in
  w2 ← foldl (fun acc instance => wi ← acc; ui_valueComboBox_addItem instance wi)
         (Ok w1) (xccdf_value_get_instances value);
  w3 ← ui_valueComboBox_setEditText (getCurrentValueValue value w2) w2;
  let w4 := ui_valueComboBox_insertSeparator 1 w3 in
  Ok (with_mItemPropertiesDockWidget (with_valueGroupBox_shown true) w4).

(** [XCCDFItemPropertiesDockWidget::refresh] (lines 128-213). *)
Definition XCCDFItemPropertiesDockWidget_refresh (w : TailoringWindow)
    : result TailoringWindow :=
  if item_mRefreshInProgress (item_panel w) then Ok w
  else
    let w1 := with_mItemPropertiesDockWidget (with_item_mRefreshInProgress true) w in
    let w2 := with_mItemPropertiesDockWidget
                (with_item_labels "<no item selected>" String.EmptyString
                   String.EmptyString String.EmptyString) w1 in
    let w3 := with_mItemPropertiesDockWidget (with_valueGroupBox_shown false) w2 in
    w4 ← ui_valueComboBox_clear w3;
    w5 ← ui_valueComboBox_setEditText String.EmptyString w4;
    let w6 := with_mItemPropertiesDockWidget (with_validator None) w5 in
    w7 ← match mXccdfItem (item_panel w6) with
         | Some item =>
             let wa := with_mItemPropertiesDockWidget
                         (with_item_labels
                            (oscapTextIteratorGetPreferred (xccdf_item_get_title item))
                            (xccdf_item_get_id item)
                            (type_label (xccdf_item_get_type item) String.EmptyString)
                            (oscapTextIteratorGetPreferred (xccdf_item_get_description item)))
                         w6 in
             match xccdf_item_to_value item with
             | Some value => refresh_value value wa
             | None => Ok wa
             end
         | None => Ok w6
         end;
    Ok (with_mItemPropertiesDockWidget (with_item_mRefreshInProgress false) w7).

Definition setXccdfItem (item : option xccdf_item) (w : TailoringWindow)
    : result TailoringWindow :=
  XCCDFItemPropertiesDockWidget_refresh
    (with_mItemPropertiesDockWidget (with_mXccdfItem item) w).

Definition refreshProfileDockWidget := ProfilePropertiesDockWidget_refresh.
Definition refreshXccdfItemPropertiesDockWidget := XCCDFItemPropertiesDockWidget_refresh.

(** *** The three commands the dock widgets push (lines 229-305, 338-386) *)

Definition ProfileTitleChangeUndoCommand_redo (mNewTitle : string) (w : TailoringWindow) :=
  w1 ← setProfileTitle mNewTitle w; refreshProfileDockWidget w1.
Definition ProfileTitleChangeUndoCommand_undo (mOldTitle : string) (w : TailoringWindow) :=
  w1 ← setProfileTitle mOldTitle w; refreshProfileDockWidget w1.

Definition ProfileDescriptionChangeUndoCommand_redo (mNewDesc : string) (w : TailoringWindow) :=
  w1 ← setProfileDescription mNewDesc w; refreshProfileDockWidget w1.
Definition ProfileDescriptionChangeUndoCommand_undo (mOldDesc : string) (w : TailoringWindow) :=
  w1 ← setProfileDescription mOldDesc w; refreshProfileDockWidget w1.

Definition XCCDFValueChangeUndoCommand_redo (mXccdfValue : xccdf_value) (mNewValue : string)
    (w : TailoringWindow) :=
  w1 ← setValueValue mXccdfValue mNewValue w; refreshXccdfItemPropertiesDockWidget w1.
Definition XCCDFValueChangeUndoCommand_undo (mXccdfValue : xccdf_value) (mOldValue : string)
    (w : TailoringWindow) :=
  w1 ← setValueValue mXccdfValue mOldValue w; refreshXccdfItemPropertiesDockWidget w1.

(** *** Where the commands are built and pushed (lines 728-731, 769-772, 805-808) *)

Definition setValueValueWithUndoCommand (xccdfValue : xccdf_value) (newValue : string)
    (w : TailoringWindow) : result TailoringWindow :=
  QUndoStack_push with_mUndoStack
    (XCCDFValueChangeUndoCommand_redo xccdfValue newValue)
    (XCCDFValueChangeUndoCommand xccdfValue newValue (getCurrentValueValue xccdfValue w)) w.

Definition setProfileTitleWithUndoCommand (newTitle : string) (w : TailoringWindow)
    : result TailoringWindow :=
  QUndoStack_push with_mUndoStack
    (ProfileTitleChangeUndoCommand_redo newTitle)
    (ProfileTitleChangeUndoCommand (getProfileTitle w) newTitle) w.

Definition setProfileDescriptionWithUndoCommand (newDescription : string) (w : TailoringWindow)
    : result TailoringWindow :=
  QUndoStack_push with_mUndoStack
    (ProfileDescriptionChangeUndoCommand_redo newDescription)
    (ProfileDescriptionChangeUndoCommand (getProfileDescription w) newDescription) w.

(** *** The slots of the dock widgets (lines 83-97, 215-221) *)

Definition profileTitleChanged (newTitle : string) (w : TailoringWindow)
    : result TailoringWindow :=
  if profile_mRefreshInProgress (profile_panel w) then Ok w
  else setProfileTitleWithUndoCommand newTitle w.

Definition profileDescriptionChanged (w : TailoringWindow) : result TailoringWindow :=
  if profile_mRefreshInProgress (profile_panel w) then Ok w
  else setProfileDescriptionWithUndoCommand (profile_ui_description (profile_panel w)) w.

Definition valueChanged (newValue : string) (w : TailoringWindow) : result TailoringWindow :=
  if item_mRefreshInProgress (item_panel w) then Ok w
  else match mXccdfItem (item_panel w) ≫= xccdf_item_to_value with
       | Some value => setValueValueWithUndoCommand value newValue w
       | None => Fault
       end.

Definition panel_slot (signal : PanelSignal) (w : TailoringWindow) : result TailoringWindow :=
  match signal with
  | title_textChanged text => profileTitleChanged text w
  | description_textChanged => profileDescriptionChanged w
  | valueComboBox_editTextChanged text => valueChanged text w
  end.

End Panels.

(** Signal delivery: the slot runs, and the signals it causes in turn are
    delivered with one unit of fuel less. *)
Fixpoint deliver_panel `{OpenSCAP} (fuel : nat) (signal : PanelSignal) (w : TailoringWindow)
    : result TailoringWindow :=
  match fuel with
  | 0 => OutOfFuel
  | S fuel' => panel_slot (deliver_panel fuel') signal w
  end.

(** ** The tree of display items (Qt's QTreeWidgetItem, as the window uses it) *)

Inductive Qt_CheckState := Qt_Unchecked | Qt_PartiallyChecked | Qt_Checked.

#[global] Instance Qt_CheckState_eq_dec : EqDecision Qt_CheckState.
Proof. solve_decision. Defined.

(** A check state where a [bool] is expected: zero is [Qt::Unchecked]. *)
Definition Qt_CheckState_to_bool (state : Qt_CheckState) : bool :=
  match state with Qt_Unchecked => false | _ => true end.

Record Qt_ItemFlags := {
  ItemIsSelectable : bool;
  ItemIsUserCheckable : bool;
  ItemIsEnabled : bool }.

(** What one tree item holds besides its children: the texts of the two
    columns, the icon (by file name), the pointer stored under
    [Qt::UserRole], the flags and the check state of column 0. *)
Record item_fields := {
  item_text0 : string;
  item_text1 : string;
  item_icon : string;
  item_data : option xccdf_item;
  item_flags : Qt_ItemFlags;
  item_checkState : Qt_CheckState }.

Inductive QTreeWidgetItem :=
| TreeItem (fields : item_fields) (children : list QTreeWidgetItem).

Definition fields_of (treeItem : QTreeWidgetItem) : item_fields :=
  match treeItem with TreeItem fields _ => fields end.
Definition children_of (treeItem : QTreeWidgetItem) : list QTreeWidgetItem :=
  match treeItem with TreeItem _ children => children end.
Definition with_fields (f : item_fields → item_fields) (treeItem : QTreeWidgetItem) :=
  match treeItem with TreeItem fields children => TreeItem (f fields) children end.
Definition with_children (f : list QTreeWidgetItem → list QTreeWidgetItem)
    (treeItem : QTreeWidgetItem) :=
  match treeItem with TreeItem fields children => TreeItem fields (f children) end.

Definition set_text0 (text : string) (a : item_fields) :=
  {| item_text0 := text; item_text1 := item_text1 a; item_icon := item_icon a;
     item_data := item_data a; item_flags := item_flags a;
     item_checkState := item_checkState a |}.
Definition set_text1 (text : string) (a : item_fields) :=
  {| item_text0 := item_text0 a; item_text1 := text; item_icon := item_icon a;
     item_data := item_data a; item_flags := item_flags a;
     item_checkState := item_checkState a |}.
Definition set_icon (icon : string) (a : item_fields) :=
  {| item_text0 := item_text0 a; item_text1 := item_text1 a; item_icon := icon;
     item_data := item_data a; item_flags := item_flags a;
     item_checkState := item_checkState a |}.
Definition set_data (data : option xccdf_item) (a : item_fields) :=
  {| item_text0 := item_text0 a; item_text1 := item_text1 a; item_icon := item_icon a;
     item_data := data; item_flags := item_flags a;
     item_checkState := item_checkState a |}.
Definition set_flags (flags : Qt_ItemFlags) (a : item_fields) :=
  {| item_text0 := item_text0 a; item_text1 := item_text1 a; item_icon := item_icon a;
     item_data := item_data a; item_flags := flags;
     item_checkState := item_checkState a |}.
Definition set_checkState (state : Qt_CheckState) (a : item_fields) :=
  {| item_text0 := item_text0 a; item_text1 := item_text1 a; item_icon := item_icon a;
     item_data := item_data a; item_flags := item_flags a;
     item_checkState := state |}.

Definition flags_with_checkable (b : bool) (flags : Qt_ItemFlags) :=
  {| ItemIsSelectable := ItemIsSelectable flags;
     ItemIsUserCheckable := b;
     ItemIsEnabled := ItemIsEnabled flags |}.
Definition flags_with_enabled (b : bool) (flags : Qt_ItemFlags) :=
  {| ItemIsSelectable := ItemIsSelectable flags;
     ItemIsUserCheckable := ItemIsUserCheckable flags;
     ItemIsEnabled := b |}.

(** [isDisabled] and [setDisabled] read and write the enabled flag of the
    item itself.  Qt announces a [setDisabled] through the tree's
    [itemChanged] signal as well, for the child whose flag changes; the model
    does not follow that call of the slot.  While [synchronizeTreeItem] runs
    the slot returns at once, the counter being above zero; after line 885 it
    is a further call of the slot, for another tree item. *)
Definition isDisabled (treeItem : QTreeWidgetItem) : bool :=
  negb (ItemIsEnabled (item_flags (fields_of treeItem))).
Definition setDisabled (disabled : bool) (treeItem : QTreeWidgetItem) : QTreeWidgetItem :=
  with_fields (fun a => set_flags (flags_with_enabled (negb disabled) (item_flags a)) a) treeItem.
Definition checkState (treeItem : QTreeWidgetItem) : Qt_CheckState :=
  item_checkState (fields_of treeItem).

Definition getXccdfItemFromTreeItem (treeItem : QTreeWidgetItem) : option xccdf_item :=
  item_data (fields_of treeItem).

(** [new QTreeWidgetItem()] followed by
    [setFlags(Qt::ItemIsSelectable | Qt::ItemIsEnabled)] (lines 498-503, 687-691). *)
Definition new_QTreeWidgetItem : QTreeWidgetItem :=
  TreeItem {| item_text0 := String.EmptyString; item_text1 := String.EmptyString;
              item_icon := String.EmptyString; item_data := None;
              item_flags := {| ItemIsSelectable := true; ItemIsUserCheckable := false;
                               ItemIsEnabled := true |};
              item_checkState := Qt_Unchecked |} [].

(** [_syncXCCDFItemChildrenDisabledState] (lines 391-409).  The recursive
    call works on the child's own children and leaves the child's flags as
    [setDisabled] has just set them, so the model may set the flag on what
    the recursive call returns. *)
Fixpoint _syncXCCDFItemChildrenDisabledState (treeItem : QTreeWidgetItem) (enabled : bool)
    : QTreeWidgetItem :=
  match treeItem with
  | TreeItem fields children =>
      TreeItem fields
        (map (fun childTreeItem =>
                let childEnabled := negb (isDisabled childTreeItem) in
                if negb enabled && childEnabled then
                  setDisabled true (_syncXCCDFItemChildrenDisabledState childTreeItem false)
                else if enabled && negb childEnabled then
                  setDisabled false (_syncXCCDFItemChildrenDisabledState childTreeItem true)
                else childTreeItem)
             children)
  end.

(** [_refreshXCCDFItemChildrenDisabledState] (lines 411-423); the same
    remark applies: the recursive call reads the child's check state and
    checkable flag, which [setDisabled] does not touch. *)
Fixpoint _refreshXCCDFItemChildrenDisabledState (treeItem : QTreeWidgetItem)
    (allAncestorsSelected : bool) : QTreeWidgetItem :=
  match treeItem with
  | TreeItem fields children =>
      let itemSelected :=
        negb (ItemIsUserCheckable (item_flags fields))
        || bool_decide (item_checkState fields = Qt_Checked) in
      let allAncestorsSelected := allAncestorsSelected && itemSelected in
      TreeItem fields
        (map (fun childTreeItem =>
                setDisabled (negb allAncestorsSelected)
                  (_refreshXCCDFItemChildrenDisabledState childTreeItem allAncestorsSelected))
             children)
  end.

Definition icon_of_type (type : xccdf_type_t) : string :=
  match type with
  | XCCDF_BENCHMARK => "benchmark.png"
  | XCCDF_GROUP => "group.png"
  | XCCDF_RULE => "rule.png"
  | XCCDF_VALUE => "value.png"
  | _ => String.EmptyString
  end.

Definition xccdf_item_get_values (item : xccdf_item) : list xccdf_value :=
  match item with
  | XBenchmark _ values _ | XGroup _ values _ => values
  | _ => []
  end.
Definition xccdf_item_get_content (item : xccdf_item) : list xccdf_item :=
  match item with
  | XBenchmark _ _ content | XGroup _ _ content => content
  | _ => []
  end.

(** [itemsToAdd] of [synchronizeTreeItem] (lines 618-658): the values, then
    the rules and groups; empty unless the item is a group or a benchmark. *)
Definition itemsToAdd_of (item : xccdf_item) : list xccdf_item :=
  match xccdf_item_get_type item with
  | XCCDF_GROUP | XCCDF_BENCHMARK =>
      map xccdf_value_to_item (xccdf_item_get_values item) ++ xccdf_item_get_content item
  | _ => []
  end.

(** A tree item together with the rest of the window: what the code that
    works on one item of the tree reads and writes. *)
Abbreviation TS := (QTreeWidgetItem * TailoringWindow)%type.

Definition on_stack_TS (f : QUndoStack → QUndoStack) (ts : TS) : TS :=
  (ts.1, with_mUndoStack f ts.2).

(** [existingItemsMap]: the latest binding of a key is the first in the
    list.  The mapped tree item is named by its position among the children
    that are left after the first loop. *)
Abbreviation XCCDFToQtItemMap := (list (xccdf_item * nat)).

Fixpoint map_find (m : XCCDFToQtItemMap) (key : xccdf_item) : option nat :=
  match m with
  | [] => None
  | (k, v) :: rest => if xccdf_item_eqb k key then Some v else map_find rest key
  end.

(** [std::find(itemsToAdd.begin(), itemsToAdd.end(), childXccdfItem)] with
    the pointer a tree item holds, which may be null. *)
Definition found_in (itemsToAdd : list xccdf_item) (childXccdfItem : option xccdf_item) : bool :=
  match childXccdfItem with
  | Some x => existsb (xccdf_item_eqb x) itemsToAdd
  | None => false
  end.

(** The first loop (lines 660-674).  Deleting child [i] moves the next
    child to position [i], and the loop goes on with [i + 1]: the child
    that follows a deleted one is neither examined nor recorded.  [i] is
    the position of the next child in the list that is left. *)
Fixpoint delete_absent (itemsToAdd : list xccdf_item) (children : list QTreeWidgetItem)
    (i : nat) (existingItemsMap : XCCDFToQtItemMap)
    : list QTreeWidgetItem * XCCDFToQtItemMap :=
  match children with
  | [] => ([], existingItemsMap)
  | childTreeItem :: rest =>
      let childXccdfItem := getXccdfItemFromTreeItem childTreeItem in
      if found_in itemsToAdd childXccdfItem then
        let existingItemsMap' :=
          match childXccdfItem with
          | Some x => (x, i) :: existingItemsMap
          | None => existingItemsMap
          end in
        let '(kept, m) := delete_absent itemsToAdd rest (S i) existingItemsMap' in
        (childTreeItem :: kept, m)
      else
        match rest with
        | [] => ([], existingItemsMap)
        | stepped_over :: rest' =>
            let '(kept, m) := delete_absent itemsToAdd rest' (S i) existingItemsMap in
            (stepped_over :: kept, m)
        end
  end.

(** During the second loop each child carries where it comes from: [Some k]
    for the [k]-th child left by the first loop, [None] for a new one. *)
Abbreviation tagged := (option nat * QTreeWidgetItem)%type.

Fixpoint position_of (origin : nat) (children : list tagged) : option nat :=
  match children with
  | [] => None
  | (tag, _) :: rest =>
      if bool_decide (tag = Some origin) then Some 0
      else S <$> position_of origin rest
  end.

(** [QTreeWidgetItem::insertChild]: nothing is inserted when the index is
    beyond the end. *)
Definition insertChild {A} (index : nat) (child : A) (children : list A) : list A :=
  if bool_decide (index ≤ length children)
  then take index children ++ child :: drop index children
  else children.

(** How the children of an item are synchronized: each item to add comes
    with the recursive call for it. *)
Abbreviation child_sync := (xccdf_item * (list nat → TS → result TS))%type.

Section TreeSynchronizer.
Context `{OpenSCAP}.

(** How Qt hands the tree's [itemChanged] signal to the connected slot
    (lines 493-496); the first argument is the position of the item. *)
Variable deliver : list nat → TS → result TS.

(** A setter of [QTreeWidgetItem] called on an item of the tree: the field
    changes, then the slot runs. *)
Definition treeItem_set (f : item_fields → item_fields) (at_ : list nat) (ts : TS) : result TS :=
  deliver at_ (with_fields f ts.1, ts.2).

(** The second loop (lines 676-701). *)
Fixpoint add_and_recurse (at_ : list nat) (itemsToAdd : list child_sync) (idx : nat)
    (existingItemsMap : XCCDFToQtItemMap) (children : list tagged) (w : TailoringWindow)
    : result (list tagged * TailoringWindow) :=
  match itemsToAdd with
  | [] => Ok (children, w)
  | (childXccdfItem, synchronize_child) :: rest =>
      '(children', w') ←
        match map_find existingItemsMap childXccdfItem with
        | None =>
            let childTreeItem := new_QTreeWidgetItem in
            let children1 := insertChild idx (None, childTreeItem) children in
            '(childTreeItem', w1) ← synchronize_child (at_ ++ [idx]) (childTreeItem, w);
            (* the new item is synchronized where it was inserted; when the
               index was beyond the end it is not in the tree *)
            Ok (if bool_decide (idx ≤ length children)
                then <[ idx := (None, childTreeItem') ]> children1
                else children1, w1)
        | Some origin =>
            match position_of origin children with
            | Some pos =>
                match children !! pos with
                | Some (tag, childTreeItem) =>
                    '(childTreeItem', w1) ← synchronize_child (at_ ++ [pos]) (childTreeItem, w);
                    Ok (<[ pos := (tag, childTreeItem') ]> children, w1)
                | None => Fault
                end
            | None => Fault
            end
        end;
      add_and_recurse at_ rest (S idx) existingItemsMap children' w'
  end.

(** The part of [synchronizeTreeItem] that sets the fields of the item
    itself (lines 565-611). *)
Definition synchronize_fields (xccdfItem : xccdf_item) (at_ : list nat) (ts : TS) : result TS :=
  ts1 ← treeItem_set
          (set_text0 (oscapTextIteratorGetPreferred (xccdf_item_get_title xccdfItem))) at_ ts;
  ts2 ← treeItem_set (set_icon (icon_of_type (xccdf_item_get_type xccdfItem))) at_ ts1;
  ts3 ← treeItem_set (set_text1 (xccdf_item_get_id xccdfItem)) at_ ts2;
  ts4 ← treeItem_set (set_data (Some xccdfItem)) at_ ts3;
  let xccdfItemType := xccdf_item_get_type xccdfItem in
  match xccdfItemType with
  | XCCDF_RULE | XCCDF_GROUP =>
      tsa ← treeItem_set
              (fun a => set_flags (flags_with_checkable true (item_flags a)) a) at_ ts4;
      tsb ← treeItem_set
              (set_checkState
                 (if getXccdfItemInternalSelected (mPolicy tsa.2) xccdfItem
                  then Qt_Checked else Qt_Unchecked)) at_ tsa;
      Ok (_syncXCCDFItemChildrenDisabledState tsb.1
            (Qt_CheckState_to_bool (checkState tsb.1)), tsb.2)
  | XCCDF_VALUE =>
      treeItem_set
        (fun a => set_flags (flags_with_checkable false (item_flags a)) a) at_ ts4
  | _ => Ok ts4
  end.

(** The part that runs when [recursive] is set (lines 613-702). *)
Definition synchronize_children (itemsToAdd : list child_sync) (at_ : list nat) (ts : TS)
    : result TS :=
  let '(kept, existingItemsMap) :=
    delete_absent (itemsToAdd.*1) (children_of ts.1) 0 [] in
  '(children, w) ←
    add_and_recurse at_ itemsToAdd 0 existingItemsMap
      (imap (fun k child => (Some k, child)) kept) ts.2;
  Ok (with_children (fun _ => children.*2) ts.1, w).

(** [synchronizeTreeItem] for one item (lines 561-705), given the recursive
    calls for its children. *)
Definition synchronize_one (xccdfItem : xccdf_item) (itemsToAdd : list child_sync)
    (at_ : list nat) (recursive : bool) (ts : TS) : result TS :=
  let ts0 : TS := (ts.1, with_mSynchronizeItemLock S ts.2) in
  ts5 ← synchronize_fields xccdfItem at_ ts0;
  ts6 ← (if recursive then synchronize_children itemsToAdd at_ ts5 else Ok ts5);
  Ok (ts6.1, with_mSynchronizeItemLock pred ts6.2).

(** [synchronizeTreeItem]: the recursion follows the document.  A Value has
    no children to add. *)
Fixpoint synchronizeTreeItem (xccdfItem : xccdf_item) (at_ : list nat) (recursive : bool)
    (ts : TS) {struct xccdfItem} : result TS :=
  synchronize_one xccdfItem
    match xccdfItem with
    | XBenchmark _ values content | XGroup _ values content =>
        map (fun value => (xccdf_value_to_item value,
                           fun at' => synchronize_one (xccdf_value_to_item value) [] at' true))
            values
        ++ map (fun childXccdfItem =>
                  (childXccdfItem, fun at' => synchronizeTreeItem childXccdfItem at' true))
               content
    | _ => []
    end
    at_ recursive ts.

(** *** The select command (lines 307-336) *)

Definition XCCDFItemSelectUndoCommand_redo (at_ : list nat) (mNewSelect : bool) (ts : TS)
    : result TS :=
  match getXccdfItemFromTreeItem ts.1 with
  | Some xccdfItem =>
      w1 ← setItemSelected xccdfItem mNewSelect ts.2;
      synchronizeTreeItem xccdfItem at_ false (ts.1, w1)
  | None => Fault
  end.

Definition XCCDFItemSelectUndoCommand_undo (at_ : list nat) (mNewSelect : bool) (ts : TS)
    : result TS :=
  match getXccdfItemFromTreeItem ts.1 with
  | Some xccdfItem =>
      w1 ← setItemSelected xccdfItem (negb mNewSelect) ts.2;
      synchronizeTreeItem xccdfItem at_ false (ts.1, w1)
  | None => Fault
  end.

(** *** The slot of the tree's [itemChanged] signal (lines 866-886) *)

Definition itemChanged_slot (at_ : list nat) (ts : TS) : result TS :=
  if bool_decide (0 < mSynchronizeItemLock ts.2) then Ok ts
  else
    let checkState := bool_decide (checkState ts.1 = Qt_Checked) in
    match getXccdfItemFromTreeItem ts.1 with
    | None => Ok ts
    | Some xccdfItem =>
        if bool_decide (xccdf_item_get_type xccdfItem = XCCDF_VALUE) then Ok ts
        else
          let itemCheckState := getXccdfItemInternalSelected (mPolicy ts.2) xccdfItem in
          ts1 ← (if negb (eqb checkState itemCheckState)
                 then QUndoStack_push on_stack_TS
                        (XCCDFItemSelectUndoCommand_redo at_ checkState)
                        (XCCDFItemSelectUndoCommand at_ checkState) ts
                 else Ok ts);
          Ok (_syncXCCDFItemChildrenDisabledState ts1.1 checkState, ts1.2)
    end.

End TreeSynchronizer.

Fixpoint deliver_itemChanged `{OpenSCAP} (fuel : nat) (at_ : list nat) (ts : TS) : result TS :=
  match fuel with
  | 0 => OutOfFuel
  | S fuel' => itemChanged_slot (deliver_itemChanged fuel') at_ ts
  end.

(** ** The whole window: the tree and everything else *)

Record Session := {
  itemsTree : QTreeWidgetItem;     (* the top-level item, for the benchmark *)
  window : TailoringWindow }.

Fixpoint tree_at (at_ : list nat) (treeItem : QTreeWidgetItem) : option QTreeWidgetItem :=
  match at_ with
  | [] => Some treeItem
  | i :: rest => children_of treeItem !! i ≫= tree_at rest
  end.

Fixpoint tree_put (at_ : list nat) (new : QTreeWidgetItem) (treeItem : QTreeWidgetItem)
    : QTreeWidgetItem :=
  match at_ with
  | [] => new
  | i :: rest => with_children (alter (tree_put rest new) i) treeItem
  end.

(** Code that holds a pointer to a tree item works on that item; the
    pointer dangles when there is no item at the position. *)
Definition on_treeItem (at_ : list nat) (f : TS → result TS) (s : Session) : result Session :=
  match tree_at at_ (itemsTree s) with
  | Some treeItem =>
      '(treeItem', w) ← f (treeItem, window s);
      Ok {| itemsTree := tree_put at_ treeItem' (itemsTree s); window := w |}
  | None => Fault
  end.

Definition on_window (f : TailoringWindow → result TailoringWindow) (s : Session)
    : result Session :=
  w ← f (window s);
  Ok {| itemsTree := itemsTree s; window := w |}.

Definition with_window (f : TailoringWindow → TailoringWindow) (s : Session) : Session :=
  {| itemsTree := itemsTree s; window := f (window s) |}.

Inductive StandardButton := QMessageBox_Yes | QMessageBox_No.

(** What a call of [closeEvent] leaves behind, besides the state. *)
Record close_report := {
  event_accepted : bool;                       (* false after [event->ignore()] *)
  QMainWindow_closeEvent_called : bool;
  notifyTailoringFinished : option (bool * bool) }.

Section Window.
Context `{OpenSCAP}.
Variable fuel : nat.

(** [QUndoCommand::redo] and [QUndoCommand::undo], by the class of the command. *)
Definition QUndoCommand_redo (cmd : QUndoCommand) (s : Session) : result Session :=
  match cmd with
  | ProfileTitleChangeUndoCommand _ mNewTitle =>
      on_window (ProfileTitleChangeUndoCommand_redo (deliver_panel fuel) mNewTitle) s
  | ProfileDescriptionChangeUndoCommand _ mNewDesc =>
      on_window (ProfileDescriptionChangeUndoCommand_redo (deliver_panel fuel) mNewDesc) s
  | XCCDFItemSelectUndoCommand mTreeItem mNewSelect =>
      on_treeItem mTreeItem
        (XCCDFItemSelectUndoCommand_redo (deliver_itemChanged fuel) mTreeItem mNewSelect) s
  | XCCDFValueChangeUndoCommand mXccdfValue mNewValue _ =>
      on_window (XCCDFValueChangeUndoCommand_redo (deliver_panel fuel) mXccdfValue mNewValue) s
  end.

Definition QUndoCommand_undo (cmd : QUndoCommand) (s : Session) : result Session :=
  match cmd with
  | ProfileTitleChangeUndoCommand mOldTitle _ =>
      on_window (ProfileTitleChangeUndoCommand_undo (deliver_panel fuel) mOldTitle) s
  | ProfileDescriptionChangeUndoCommand mOldDesc _ =>
      on_window (ProfileDescriptionChangeUndoCommand_undo (deliver_panel fuel) mOldDesc) s
  | XCCDFItemSelectUndoCommand mTreeItem mNewSelect =>
      on_treeItem mTreeItem
        (XCCDFItemSelectUndoCommand_undo (deliver_itemChanged fuel) mTreeItem mNewSelect) s
  | XCCDFValueChangeUndoCommand mXccdfValue _ mOldValue =>
      on_window (XCCDFValueChangeUndoCommand_undo (deliver_panel fuel) mXccdfValue mOldValue) s
  end.

Definition set_stack_index (index : nat) (s : Session) : Session :=
  with_window
    (with_mUndoStack (fun stack => {| command_list := command_list stack;
                                      stack_index := index |})) s.

(** [QUndoStack::undo]: nothing at position 0; otherwise the command below
    the position is undone and the position moves down. *)
Definition QUndoStack_undo (s : Session) : result Session :=
  let stack := mUndoStack (window s) in
  match stack_index stack with
  | 0 => Ok s
  | S idx =>
      match command_list stack !! idx with
      | Some cmd => s1 ← QUndoCommand_undo cmd s; Ok (set_stack_index idx s1)
      | None => Fault
      end
  end.

(** [QUndoStack::redo]. *)
Definition QUndoStack_redo (s : Session) : result Session :=
  let stack := mUndoStack (window s) in
  match command_list stack !! stack_index stack with
  | Some cmd => s1 ← QUndoCommand_redo cmd s; Ok (set_stack_index (S (stack_index stack)) s1)
  | None => Ok s
  end.

(** The two loops of [QUndoStack::setIndex]; the position is stored when
    they are done. *)
Fixpoint redo_up_to (commands : list QUndoCommand) (i steps : nat) (s : Session)
    : result Session :=
  match steps with
  | 0 => Ok s
  | S steps' =>
      match commands !! i with
      | Some cmd => s1 ← QUndoCommand_redo cmd s; redo_up_to commands (S i) steps' s1
      | None => Fault
      end
  end.

Fixpoint undo_down_to (commands : list QUndoCommand) (i steps : nat) (s : Session)
    : result Session :=
  match steps with
  | 0 => Ok s
  | S steps' =>
      match commands !! (i - 1) with
      | Some cmd => s1 ← QUndoCommand_undo cmd s; undo_down_to commands (i - 1) steps' s1
      | None => Fault
      end
  end.

Definition QUndoStack_setIndex (idx : nat) (s : Session) : result Session :=
  let stack := mUndoStack (window s) in
  let idx := idx `min` length (command_list stack) in
  let i := stack_index stack in
  s1 ← redo_up_to (command_list stack) i (idx - i) s;
  s2 ← undo_down_to (command_list stack) i (i - idx) s1;
  Ok (set_stack_index idx s2).

(** *** Closing (lines 815-858) *)

(** [answer] is what the user replies if the question is asked;
    [mParentMainWindow] says whether the window has a parent to notify. *)
Definition closeEvent (mParentMainWindow : bool) (answer : StandardButton) (s : Session)
    : result (Session * close_report) :=
  let finish (s' : Session) :=
    Ok (s', {| event_accepted := true;
               QMainWindow_closeEvent_called := true;
               notifyTailoringFinished :=
                 if mParentMainWindow
                 then Some (mNewProfile (window s'), mChangesConfirmed (window s'))
                 else None |}) in
  if negb (mChangesConfirmed (window s)) then
    match answer with
    | QMessageBox_No =>
        Ok (s, {| event_accepted := false;
                  QMainWindow_closeEvent_called := false;
                  notifyTailoringFinished := None |})
    | QMessageBox_Yes =>
        s1 ← QUndoStack_setIndex 0 s;
        finish s1
    end
  else finish s.

Definition confirmAndClose (mParentMainWindow : bool) (answer : StandardButton) (s : Session) :=
  closeEvent mParentMainWindow answer
    (with_window (fun w => with_flags (mNewProfile w) true w) s).

Definition deleteProfileAndDiscard (mParentMainWindow : bool) (answer : StandardButton)
    (s : Session) :=
  closeEvent mParentMainWindow answer (with_window (with_flags true false) s).

(** *** The slots of the tree, on the whole window (lines 860-886) *)

Definition itemSelectionChanged (current : list nat) (s : Session) : result Session :=
  match tree_at current (itemsTree s) with
  | Some treeItem =>
      on_window (setXccdfItem (deliver_panel fuel) (getXccdfItemFromTreeItem treeItem)) s
  | None => Fault
  end.

Definition itemChanged (treeItem : list nat) (s : Session) : result Session :=
  on_treeItem treeItem (deliver_itemChanged (S fuel) treeItem) s.

(** *** What the user does *)

Inductive user_action :=
| type_title (text : string)                  (* edits the profile's title field *)
| type_description (text : string)            (* edits the profile's description field *)
| edit_value (text : string)                  (* edits the text of the value combo box *)
| click_checkbox (at_ : list nat) (state : Qt_CheckState)   (* sets an item's check box *)
| select_item (at_ : list nat).               (* makes an item of the tree the current one *)

(** The widget changes, then its signal is delivered. *)
Definition perform (action : user_action) (s : Session) : result Session :=
  match action with
  | type_title text =>
      on_window (ui_title_setText (deliver_panel (S fuel)) text) s
  | type_description text =>
      on_window (ui_description_setPlainText (deliver_panel (S fuel)) text) s
  | edit_value text =>
      on_window (ui_valueComboBox_setEditText (deliver_panel (S fuel)) text) s
  | click_checkbox at_ state =>
      on_treeItem at_ (treeItem_set (deliver_itemChanged (S fuel)) (set_checkState state) at_) s
  | select_item at_ => itemSelectionChanged at_ s
  end.

Fixpoint perform_all (actions : list user_action) (s : Session) : result Session :=
  match actions with
  | [] => Ok s
  | action :: rest => s1 ← perform action s; perform_all rest s1
  end.

Fixpoint undo_times (n : nat) (s : Session) : result Session :=
  match n with
  | 0 => Ok s
  | S n' => s1 ← QUndoStack_undo s; undo_times n' s1
  end.

(** *** The constructor (lines 425-532) *)

Definition empty_ProfilePropertiesDockWidget : ProfilePropertiesDockWidget :=
  {| profile_mRefreshInProgress := false;
     profile_ui_id := String.EmptyString;
     profile_ui_title := String.EmptyString;
     profile_ui_description := String.EmptyString |}.

Definition empty_XCCDFItemPropertiesDockWidget : XCCDFItemPropertiesDockWidget :=
  {| mXccdfItem := None;
     item_mRefreshInProgress := false;
     ui_titleLineEdit := String.EmptyString;
     ui_idLineEdit := String.EmptyString;
     ui_typeLineEdit := String.EmptyString;
     ui_descriptionBrowser := String.EmptyString;
     ui_valueGroupBox_shown := true;
     ui_valueComboBox_items := [];
     ui_valueComboBox_editText := String.EmptyString;
     ui_valueComboBox_validator := None;
     ui_valueTypeLabel := String.EmptyString |}.

(** The constructor.  A policy of the model always has a profile, so the
    second sanity check (lines 450-452) has no counterpart here; the widgets
    that only lay out the window are left out. *)
Definition TailoringWindow_new (policy : option xccdf_policy) (benchmark : option xccdf_item)
    (newProfile : bool) : result Session :=
  match policy with
  | None => Throw "TailoringWindow needs a proper policy being given. NULL was given instead!"
  | Some policy =>
      match benchmark with
      | None => Throw "TailoringWindow was given a NULL benchmark. Can't proceed!"
      | Some benchmark =>
          let w := {| mSynchronizeItemLock := 0;
                      mItemPropertiesDockWidget := empty_XCCDFItemPropertiesDockWidget;
                      mProfilePropertiesDockWidget := empty_ProfilePropertiesDockWidget;
                      mPolicy := policy;
                      mUndoStack := {| command_list := []; stack_index := 0 |};
                      mNewProfile := newProfile;
                      mChangesConfirmed := false |} in
          let benchmarkItem := new_QTreeWidgetItem in
          '(benchmarkItem1, w1) ←
            synchronizeTreeItem (deliver_itemChanged (S fuel)) benchmark [] true
              (benchmarkItem, w);
          let benchmarkItem2 := _refreshXCCDFItemChildrenDisabledState benchmarkItem1 true in
          w2 ← XCCDFItemPropertiesDockWidget_refresh (deliver_panel (S fuel)) w1;
          w3 ← ProfilePropertiesDockWidget_refresh (deliver_panel (S fuel)) w2;
          Ok {| itemsTree := benchmarkItem2; window := w3 |}
      end
  end.

End Window.

(** ** Two libraries to run the window with *)

Fixpoint last_match {A} (P : A → bool) (l : list A) : option A :=
  match l with
  | [] => None
  | x :: rest =>
      match last_match P rest with
      | Some y => Some y
      | None => if P x then Some x else None
      end
  end.

(** Modelled from the spec: the Policy's evaluation (the library is not part
    of the sources).  Overrides are layered on the document's defaults, the
    override added last being the one in force; a value's document default
    is its first instance; the text of a localized block is that of its
    default-language entry, or of its first entry when it has none. *)
Definition layered_OpenSCAP : OpenSCAP := {|
  OSCAP_LANG_DEFAULT := "en_US";
  select_by_id selects id :=
    last_match (fun s => bool_decide (xccdf_select_get_item s = id)) selects;
  value_of_item setvalues item :=
    match last_match (fun sv => bool_decide (xccdf_setvalue_get_item sv = xccdf_item_get_id item))
            setvalues with
    | Some sv => xccdf_setvalue_get_value sv
    | None =>
        match xccdf_item_to_value item with
        | Some value => default String.EmptyString (head (xccdf_value_get_instances value))
        | None => String.EmptyString
        end
    end;
  textlist_get_preferred texts :=
    match last_match (fun t => bool_decide (oscap_text_get_lang t = "en_US")) texts with
    | Some t => oscap_text_get_text t
    | None => default String.EmptyString (oscap_text_get_text <$> head texts)
    end |}.

(** A library whose lookups keep answering with the override added first:
    the one the post-condition checks of the window are there to catch. *)
Definition stale_OpenSCAP : OpenSCAP := {|
  OSCAP_LANG_DEFAULT := "en_US";
  select_by_id selects id :=
    find (fun s => bool_decide (xccdf_select_get_item s = id)) selects;
  value_of_item setvalues item :=
    match find (fun sv => bool_decide (xccdf_setvalue_get_item sv = xccdf_item_get_id item))
            setvalues with
    | Some sv => xccdf_setvalue_get_value sv
    | None => String.EmptyString
    end;
  textlist_get_preferred texts :=
    default String.EmptyString (oscap_text_get_text <$> head texts) |}.

(** ** Notions the statements use *)

(** Two states of the window that differ in the dock widgets' fields only. *)
Definition same_but_panels (w w' : TailoringWindow) : Prop :=
  mSynchronizeItemLock w' = mSynchronizeItemLock w
  ∧ mPolicy w' = mPolicy w
  ∧ mUndoStack w' = mUndoStack w
  ∧ mNewProfile w' = mNewProfile w
  ∧ mChangesConfirmed w' = mChangesConfirmed w.

(** Whether the dock widget that owns the signal's field is refreshing. *)
Definition refresh_in_progress (signal : PanelSignal) (w : TailoringWindow) : bool :=
  match signal with
  | title_textChanged _ | description_textChanged =>
      profile_mRefreshInProgress (mProfilePropertiesDockWidget w)
  | valueComboBox_editTextChanged _ =>
      item_mRefreshInProgress (mItemPropertiesDockWidget w)
  end.

(** The command below the position of the stack: the one a push may merge into. *)
Definition current_command (stack : QUndoStack) : option QUndoCommand :=
  match stack_index stack with
  | 0 => None
  | S below => command_list stack !! below
  end.

(** What the item dock widget's refresh keeps. *)
Definition item_refresh_keeps (w w' : TailoringWindow) : Prop :=
  same_but_panels w w'
  ∧ mProfilePropertiesDockWidget w' = mProfilePropertiesDockWidget w
  ∧ mXccdfItem (mItemPropertiesDockWidget w') = mXccdfItem (mItemPropertiesDockWidget w)
  ∧ item_mRefreshInProgress (mItemPropertiesDockWidget w')
    = item_mRefreshInProgress (mItemPropertiesDockWidget w).


(** The text the title and description rule designates among [texts]: [i] is
    the position of an entry tagged with the default language, the last such
    one, when there is any; it is the first position otherwise. *)
Definition designated_text `{OpenSCAP} (texts : list oscap_text) (i : nat) : Prop :=
  is_Some (texts !! i)
  ∧ (∀ j t, texts !! j = Some t → oscap_text_get_lang t = OSCAP_LANG_DEFAULT →
            j ≤ i ∧ ∃ t', texts !! i = Some t'
                          ∧ oscap_text_get_lang t' = OSCAP_LANG_DEFAULT)
  ∧ ((∀ t, t ∈ texts → oscap_text_get_lang t ≠ OSCAP_LANG_DEFAULT) → i = 0).

(** A slot that returns at once, leaving everything as it is, whenever the
    synchronization counter is above [n]. *)
Definition quiet_above (n : nat) (slot : list nat → TS → result TS) : Prop :=
  ∀ at_ ts, n < mSynchronizeItemLock ts.2 → slot at_ ts = Ok ts.

(** The items behind a tree of display items: for each tree item the
    document item it points to, and the same for its children, in order. *)
Inductive backing_tree :=
| Backing (item : option xccdf_item) (children : list backing_tree).

Fixpoint backing (treeItem : QTreeWidgetItem) : backing_tree :=
  match treeItem with
  | TreeItem fields children => Backing (item_data fields) (map backing children)
  end.

(** The document below an item, as the tree is to show it: the item, then
    below it its values followed by its rules and groups, each in document
    order. *)
Fixpoint mirror (item : xccdf_item) : backing_tree :=
  Backing (Some item)
    match item with
    | XBenchmark _ values content | XGroup _ values content =>
        map (fun value => Backing (Some (xccdf_value_to_item value)) []) values
        ++ map mirror content
    | _ => []
    end.

(** A recursive call that returns with the window as it was. *)
Definition returns_window (n : nat) (f : list nat → TS → result TS) : Prop :=
  ∀ at_ t w, n ≤ mSynchronizeItemLock w → ∃ t', f at_ (t, w) = Ok (t', w).

Definition backing_item (b : backing_tree) : option xccdf_item :=
  match b with Backing item _ => item end.

(** A tree fits a document item when it has no children, or when its
    children are backed by distinct items among those the synchronization
    computes for the item, in that order, and fit them in turn. *)
Inductive fits : backing_tree → xccdf_item → Prop :=
| fits_no_children item b : fits (Backing b []) item
| fits_children item b children items :
    NoDup (itemsToAdd_of item) →
    items `sublist_of` itemsToAdd_of item →
    Forall2 (fun child x => backing_item child = Some x ∧ fits child x) children items →
    fits (Backing b children) item.

(** A recursive call that turns a tree item that fits the document item
    into its mirror, and returns with the window as it was. *)
Definition mirrors_fitting (n : nat) (kid : child_sync) : Prop :=
  ∀ at_ t w, n ≤ mSynchronizeItemLock w → fits (backing t) kid.1 →
    ∃ t', kid.2 at_ (t, w) = Ok (t', w) ∧ backing t' = mirror kid.1.

(** *** The library contract and the external state *)

(** What the window relies on, in the spec's words the Policy's invariant: an
    override that has just been added is the one in force for its item, the
    evaluation of the other items is as before, and the text the window has
    just edited is the one the library prefers. *)
Class OpenSCAP_contract `{OpenSCAP} : Prop := {
  select_added selects sel id :
    xccdf_select_get_selected <$> select_by_id (selects ++ [sel]) id
    = if bool_decide (id = xccdf_select_get_item sel)
      then Some (xccdf_select_get_selected sel)
      else xccdf_select_get_selected <$> select_by_id selects id;
  setvalue_added setvalues sv item :
    value_of_item (setvalues ++ [sv]) item
    = if bool_decide (xccdf_item_get_id item = xccdf_setvalue_get_item sv)
      then xccdf_setvalue_get_value sv
      else value_of_item setvalues item;
  edited_text_preferred texts i text :
    designated_text texts i →
    textlist_get_preferred
      (<[ i := {| oscap_text_get_lang := OSCAP_LANG_DEFAULT;
                  oscap_text_get_text := text |} ]> texts) = text }.

Fixpoint backing_at (at_ : list nat) (b : backing_tree) : option backing_tree :=
  match at_ with
  | [] => Some b
  | i :: rest =>
      match b with Backing _ children => children !! i ≫= backing_at rest end
  end.

(** The document item behind the tree item at a position. *)
Definition item_at (at_ : list nat) (b : backing_tree) : option xccdf_item :=
  backing_at at_ b ≫= backing_item.

Fixpoint backing_items (b : backing_tree) : list xccdf_item :=
  match b with
  | Backing item children =>
      option_list item ++ concat (map backing_items children)
  end.

(** The document items the window shows: those behind the tree, and the one
    in the item dock widget. *)
Definition shown (s : Session) : list xccdf_item :=
  backing_items (backing (itemsTree s))
  ++ option_list (mXccdfItem (mItemPropertiesDockWidget (window s))).

(** [y] is the only shown item with its identifier (as every item is in a
    document whose identifiers are unique). *)
Definition only_one_with_its_id (items : list xccdf_item) (y : xccdf_item) : Prop :=
  ∀ x, x ∈ items → xccdf_item_get_id x = xccdf_item_get_id y → x = y.

(** What undoing one command does to what is observed of the policy: the
    selection of an item, the value of a value, the title, the description,
    each given what it was before the undo. *)
Definition undone_selected (b : backing_tree) (y : xccdf_item) (cmd : QUndoCommand)
    (now : bool) : bool :=
  match cmd with
  | XCCDFItemSelectUndoCommand mTreeItem mNewSelect =>
      match item_at mTreeItem b with
      | Some x =>
          if bool_decide (xccdf_item_get_id y = xccdf_item_get_id x)
          then negb mNewSelect else now
      | None => now
      end
  | _ => now
  end.

Definition undone_value (v : xccdf_value) (cmd : QUndoCommand) (now : string) : string :=
  match cmd with
  | XCCDFValueChangeUndoCommand mXccdfValue _ mOldValue =>
      if bool_decide (xccdf_value_get_id v = xccdf_value_get_id mXccdfValue)
      then mOldValue else now
  | _ => now
  end.

Definition undone_title (cmd : QUndoCommand) (now : string) : string :=
  match cmd with
  | ProfileTitleChangeUndoCommand mOldTitle _ => mOldTitle
  | _ => now
  end.

Definition undone_description (cmd : QUndoCommand) (now : string) : string :=
  match cmd with
  | ProfileDescriptionChangeUndoCommand mOldDesc _ => mOldDesc
  | _ => now
  end.

(** What a command needs to be undone: a text to edit, an item behind its
    tree item, a value that is shown. *)
Definition undoable (b : backing_tree) (items : list xccdf_item) (w : TailoringWindow)
    (cmd : QUndoCommand) : Prop :=
  match cmd with
  | ProfileTitleChangeUndoCommand _ _ => xccdf_profile_get_title (mProfile w) ≠ []
  | ProfileDescriptionChangeUndoCommand _ _ => xccdf_profile_get_description (mProfile w) ≠ []
  | XCCDFItemSelectUndoCommand mTreeItem _ => is_Some (item_at mTreeItem b)
  | XCCDFValueChangeUndoCommand mXccdfValue _ _ => xccdf_value_to_item mXccdfValue ∈ items
  end.

(** The commands below the position of the stack, the oldest first. *)
Definition applied_commands (stack : QUndoStack) : list QUndoCommand :=
  take (stack_index stack) (command_list stack).

(** The invariant of a session that started as [s0] with nothing to undo:
    the tree is backed as in [s0], every applied command can be undone, and
    undoing the applied commands, the latest first, leads back to what was
    observed of [s0]. *)
Record history_invariant `{OpenSCAP} (s0 s : Session) : Prop := {
  inv_backing : backing (itemsTree s) = backing (itemsTree s0);
  inv_index : stack_index (mUndoStack (window s)) ≤ length (command_list (mUndoStack (window s)));
  inv_undoable :
    Forall (undoable (backing (itemsTree s0)) (shown s0) (window s))
      (applied_commands (mUndoStack (window s)));
  inv_item :
    ∀ x, mXccdfItem (mItemPropertiesDockWidget (window s)) = Some x → x ∈ shown s0;
  inv_selected :
    ∀ y, only_one_with_its_id (shown s0) y →
      foldr (undone_selected (backing (itemsTree s0)) y)
        (getXccdfItemInternalSelected (mPolicy (window s)) y)
        (applied_commands (mUndoStack (window s)))
      = getXccdfItemInternalSelected (mPolicy (window s0)) y;
  inv_value :
    ∀ v, only_one_with_its_id (shown s0) (xccdf_value_to_item v) →
      foldr (undone_value v) (getCurrentValueValue v (window s))
        (applied_commands (mUndoStack (window s)))
      = getCurrentValueValue v (window s0);
  inv_title :
    foldr undone_title (getProfileTitle (window s)) (applied_commands (mUndoStack (window s)))
    = getProfileTitle (window s0);
  inv_description :
    foldr undone_description (getProfileDescription (window s))
      (applied_commands (mUndoStack (window s)))
    = getProfileDescription (window s0) }.

(** What executing one command does to the same four observations. *)
Definition redone_selected (b : backing_tree) (y : xccdf_item) (cmd : QUndoCommand)
    (now : bool) : bool :=
  match cmd with
  | XCCDFItemSelectUndoCommand mTreeItem mNewSelect =>
      match item_at mTreeItem b with
      | Some x =>
          if bool_decide (xccdf_item_get_id y = xccdf_item_get_id x)
          then mNewSelect else now
      | None => now
      end
  | _ => now
  end.

Definition redone_value (v : xccdf_value) (cmd : QUndoCommand) (now : string) : string :=
  match cmd with
  | XCCDFValueChangeUndoCommand mXccdfValue mNewValue _ =>
      if bool_decide (xccdf_value_get_id v = xccdf_value_get_id mXccdfValue)
      then mNewValue else now
  | _ => now
  end.

Definition redone_title (cmd : QUndoCommand) (now : string) : string :=
  match cmd with
  | ProfileTitleChangeUndoCommand _ mNewTitle => mNewTitle
  | _ => now
  end.

Definition redone_description (cmd : QUndoCommand) (now : string) : string :=
  match cmd with
  | ProfileDescriptionChangeUndoCommand _ mNewDesc => mNewDesc
  | _ => now
  end.

(** How the four observations of [w'] derive from those of [w]. *)
Definition observed_change `{OpenSCAP} (w w' : TailoringWindow)
    (selected : xccdf_item → bool → bool) (value : xccdf_value → string → string)
    (title description : string → string) : Prop :=
  (∀ y, getXccdfItemInternalSelected (mPolicy w') y
        = selected y (getXccdfItemInternalSelected (mPolicy w) y))
  ∧ (∀ v, getCurrentValueValue v w' = value v (getCurrentValueValue v w))
  ∧ getProfileTitle w' = title (getProfileTitle w)
  ∧ getProfileDescription w' = description (getProfileDescription w).

(** What the operations on the policy leave of the window. *)
Record keeps_rest (w w' : TailoringWindow) : Prop := {
  keeps_lock : mSynchronizeItemLock w' = mSynchronizeItemLock w;
  keeps_stack : mUndoStack w' = mUndoStack w;
  keeps_item : mXccdfItem (mItemPropertiesDockWidget w')
               = mXccdfItem (mItemPropertiesDockWidget w);
  keeps_titles : length (xccdf_profile_get_title (mProfile w'))
                 = length (xccdf_profile_get_title (mProfile w));
  keeps_descriptions : length (xccdf_profile_get_description (mProfile w'))
                       = length (xccdf_profile_get_description (mProfile w)) }.

(** A command that has recorded, as what to go back to, what is observed of
    [w]: the window it is about to be executed on. *)
Definition records_current `{OpenSCAP} (b : backing_tree) (items : list xccdf_item)
    (w : TailoringWindow) (cmd : QUndoCommand) : Prop :=
  match cmd with
  | ProfileTitleChangeUndoCommand mOldTitle _ => mOldTitle = getProfileTitle w
  | ProfileDescriptionChangeUndoCommand mOldDesc _ => mOldDesc = getProfileDescription w
  | XCCDFItemSelectUndoCommand mTreeItem mNewSelect =>
      ∃ x, item_at mTreeItem b = Some x ∧ x ∈ items
           ∧ getXccdfItemInternalSelected (mPolicy w) x = negb mNewSelect
  | XCCDFValueChangeUndoCommand mXccdfValue _ mOldValue =>
      mOldValue = getCurrentValueValue mXccdfValue w
      ∧ xccdf_value_to_item mXccdfValue ∈ items
  end.

(** ** A small document to run the window on *)

Definition demo_text (text : string) : list oscap_text :=
  [ {| oscap_text_get_lang := "en_US"; oscap_text_get_text := text |} ].

Definition demo_header (id : string) (selected : bool) : item_header :=
  {| header_id := id; header_title := demo_text id; header_description := [];
     header_selected := selected |}.

Definition demo_password_length : xccdf_value :=
  {| value_header := demo_header "password_length" true;
     xccdf_value_get_type := XCCDF_TYPE_NUMBER;
     xccdf_value_get_instances := ["8"; "12"] |}.

Definition demo_banner : xccdf_value :=
  {| value_header := demo_header "banner" true;
     xccdf_value_get_type := XCCDF_TYPE_STRING;
     xccdf_value_get_instances := ["Welcome"] |}.

Definition demo_rule_a : xccdf_item := XRule (demo_header "rule_a" false).
Definition demo_rule_b : xccdf_item := XRule (demo_header "rule_b" true).

Definition demo_group : xccdf_item :=
  XGroup (demo_header "group" true) [demo_password_length; demo_banner]
    [demo_rule_a; demo_rule_b].

Definition demo_benchmark : xccdf_item :=
  XBenchmark (demo_header "benchmark" true) [] [demo_group].

Definition demo_policy : xccdf_policy :=
  {| xccdf_policy_get_profile :=
       {| xccdf_profile_get_id := "profile";
          xccdf_profile_get_title := demo_text "Default Profile";
          xccdf_profile_get_description := demo_text "Nothing changed yet";
          xccdf_profile_get_selects := [];
          xccdf_profile_get_setvalues := [] |};
     xccdf_policy_get_selects := [] |}.

Definition demo_window : TailoringWindow :=
  {| mSynchronizeItemLock := 0;
     mItemPropertiesDockWidget := empty_XCCDFItemPropertiesDockWidget;
     mProfilePropertiesDockWidget := empty_ProfilePropertiesDockWidget;
     mPolicy := demo_policy;
     mUndoStack := {| command_list := []; stack_index := 0 |};
     mNewProfile := false;
     mChangesConfirmed := false |}.

(** The window as its constructor leaves it, with the layered library. *)
Definition demo_session : Session :=
  match @TailoringWindow_new layered_OpenSCAP 1 (Some demo_policy) (Some demo_benchmark) false
  with
  | Ok s => s
  | _ => {| itemsTree := new_QTreeWidgetItem; window := demo_window |}
  end.

(** A tree item that shows [item], with the given children. *)
Definition demo_item_for (item : xccdf_item) (children : list QTreeWidgetItem)
    : QTreeWidgetItem :=
  TreeItem {| item_text0 := xccdf_item_get_id item; item_text1 := xccdf_item_get_id item;
              item_icon := icon_of_type (xccdf_item_get_type item);
              item_data := Some item;
              item_flags := {| ItemIsSelectable := true; ItemIsUserCheckable := true;
                               ItemIsEnabled := true |};
              item_checkState := Qt_Unchecked |} children.

Definition demo_rules_only : xccdf_item :=
  XGroup (demo_header "group" true) [] [demo_rule_a; demo_rule_b].

(** A tree item for the group whose two children show the rules in the
    order opposite to the document's. *)
Definition demo_reversed_item : QTreeWidgetItem :=
  demo_item_for demo_rules_only [demo_item_for demo_rule_b []; demo_item_for demo_rule_a []].

(** A tree item for the group of the small document that shows only the
    banner and rule_b so far. *)
Definition demo_partial_item : QTreeWidgetItem :=
  demo_item_for demo_group
    [demo_item_for (xccdf_value_to_item demo_banner) []; demo_item_for demo_rule_b []].

(** The small document's window after the user has typed a new title. *)
Definition demo_edited_session : Session :=
  match @perform layered_OpenSCAP 1 (type_title "My Profile") demo_session with
  | Ok s => s
  | _ => demo_session
  end.

(** What the user does to the small document in the runs below. *)
Definition demo_actions : list user_action :=
  [ click_checkbox [0; 2] Qt_Checked;        (* selects rule_a *)
    select_item [0; 0];                      (* shows the password length *)
    edit_value "10"; edit_value "12";
    select_item [0; 1];                      (* shows the banner *)
    edit_value "Hello";
    type_title "My Profile";
    type_description "Tailored";
    click_checkbox [0; 3] Qt_Unchecked ].    (* unselects rule_b *)

Definition demo_after_actions : Session :=
  match @perform_all layered_OpenSCAP 1 demo_actions demo_session with
  | Ok s => s
  | _ => demo_session
  end.

(** ** Notions for the tree's disabled flags *)

(** The disabled flag of a tree item is the item's own, the one [isDisabled]
    reads and [setDisabled] writes. *)

(** Whether a tree item counts as selected for the items below it
    (line 413): it has no check box, or its check box is checked. *)
Definition counts_as_selected (treeItem : QTreeWidgetItem) : bool :=
  negb (ItemIsUserCheckable (item_flags (fields_of treeItem)))
  || bool_decide (checkState treeItem = Qt_Checked).

(** Whether every tree item on the way from [treeItem] down to the position
    counts as selected, [treeItem] included and the item at the position
    left out. *)
Fixpoint ancestors_selected (at_ : list nat) (treeItem : QTreeWidgetItem) : bool :=
  match at_ with
  | [] => true
  | i :: rest =>
      counts_as_selected treeItem
      && from_option (ancestors_selected rest) true (children_of treeItem !! i)
  end.

(** Whether every tree item on the way from [treeItem] down to the position
    has its disabled flag equal to [disabled], [treeItem] left out and the
    item at the position included. *)
Fixpoint path_disabled (disabled : bool) (at_ : list nat) (treeItem : QTreeWidgetItem) : bool :=
  match at_ with
  | [] => true
  | i :: rest =>
      from_option (fun child => eqb (isDisabled child) disabled
                                && path_disabled disabled rest child)
        true (children_of treeItem !! i)
  end.

(** Whether every tree item below [treeItem] has its disabled flag equal to
    [disabled]. *)
Fixpoint all_below (disabled : bool) (treeItem : QTreeWidgetItem) : bool :=
  match treeItem with
  | TreeItem _ children =>
      forallb (fun child => eqb (isDisabled child) disabled && all_below disabled child)
        children
  end.

(** Whether, below [treeItem], everything below a disabled item is disabled. *)
Fixpoint disabled_downwards (treeItem : QTreeWidgetItem) : bool :=
  match treeItem with
  | TreeItem _ children =>
      forallb (fun child => (if isDisabled child then all_below true child else true)
                            && disabled_downwards child)
        children
  end.

(** ** Notions for what the tree shows *)

(** What a synchronized tree item shows of its document item (lines
    565-611): title and id in the two columns, the icon of the type, the
    pointer to the item; a check box that tells the policy's evaluation for
    a Rule or Group, none for a Value. *)
Definition shows_item `{OpenSCAP} (policy : xccdf_policy) (item : xccdf_item)
    (fields : item_fields) : Prop :=
  item_text0 fields = oscapTextIteratorGetPreferred (xccdf_item_get_title item)
  ∧ item_text1 fields = xccdf_item_get_id item
  ∧ item_icon fields = icon_of_type (xccdf_item_get_type item)
  ∧ item_data fields = Some item
  ∧ match xccdf_item_get_type item with
    | XCCDF_RULE | XCCDF_GROUP =>
        ItemIsUserCheckable (item_flags fields) = true
        ∧ item_checkState fields
          = if getXccdfItemInternalSelected policy item then Qt_Checked else Qt_Unchecked
    | XCCDF_VALUE => ItemIsUserCheckable (item_flags fields) = false
    | _ => True
    end.

(** Every item of a tree shows a document item. *)
Definition shown_everywhere `{OpenSCAP} (policy : xccdf_policy) (treeItem : QTreeWidgetItem)
    : Prop :=
  ∀ at_ child, tree_at at_ treeItem = Some child →
               ∃ item, shows_item policy item (fields_of child).

(** A recursive call that builds, from a tree item without children, a tree
    that shows a document item everywhere, and returns with the window as
    it was. *)
Definition builds_shown `{OpenSCAP} (n : nat) (kid : child_sync) : Prop :=
  ∀ at_ fields w, n ≤ mSynchronizeItemLock w →
    ∃ t', kid.2 at_ (TreeItem fields [], w) = Ok (t', w)
          ∧ shown_everywhere (mPolicy w) t'.

(** ** Notions for what the commands leave *)

(** What running a command leaves of the window besides the dock widgets,
    the titles and the description: the counter, the flags and the history
    are as before, and the overrides the profile and the policy held are
    still there, in front of what the command may have added. *)
Record only_adds_overrides (w w' : TailoringWindow) : Prop := {
  adds_lock : mSynchronizeItemLock w' = mSynchronizeItemLock w;
  adds_stack : mUndoStack w' = mUndoStack w;
  adds_newProfile : mNewProfile w' = mNewProfile w;
  adds_confirmed : mChangesConfirmed w' = mChangesConfirmed w;
  adds_id : xccdf_profile_get_id (mProfile w') = xccdf_profile_get_id (mProfile w);
  adds_profile_selects :
    xccdf_profile_get_selects (mProfile w) `prefix_of` xccdf_profile_get_selects (mProfile w');
  adds_policy_selects :
    xccdf_policy_get_selects (mPolicy w) `prefix_of` xccdf_policy_get_selects (mPolicy w');
  adds_setvalues :
    xccdf_profile_get_setvalues (mProfile w)
    `prefix_of` xccdf_profile_get_setvalues (mProfile w') }.

(** ** Notions for undoing and redoing one command *)

(** The items a command is about. *)
Definition command_items (b : backing_tree) (cmd : QUndoCommand) : list xccdf_item :=
  match cmd with
  | XCCDFItemSelectUndoCommand mTreeItem _ => option_list (item_at mTreeItem b)
  | XCCDFValueChangeUndoCommand mXccdfValue _ _ => [xccdf_value_to_item mXccdfValue]
  | _ => []
  end.

(** A command that is in effect, as it is when it has just been executed:
    what it sets is what is observed, and there is something to run it on
    (a text to edit, a document item behind the tree item). *)
Definition in_effect `{OpenSCAP} (b : backing_tree) (w : TailoringWindow)
    (cmd : QUndoCommand) : Prop :=
  match cmd with
  | ProfileTitleChangeUndoCommand _ mNewTitle =>
      xccdf_profile_get_title (mProfile w) ≠ [] ∧ getProfileTitle w = mNewTitle
  | ProfileDescriptionChangeUndoCommand _ mNewDesc =>
      xccdf_profile_get_description (mProfile w) ≠ [] ∧ getProfileDescription w = mNewDesc
  | XCCDFItemSelectUndoCommand mTreeItem mNewSelect =>
      ∃ x, item_at mTreeItem b = Some x
           ∧ getXccdfItemInternalSelected (mPolicy w) x = mNewSelect
  | XCCDFValueChangeUndoCommand mXccdfValue mNewValue _ =>
      getCurrentValueValue mXccdfValue w = mNewValue
  end.

(** ** More of the small document *)

(** The window of the small document once rule_a, or the password length,
    has been handed to the item dock widget and before it is shown. *)
Definition demo_rule_window : TailoringWindow :=
  with_mItemPropertiesDockWidget (with_mXccdfItem (Some demo_rule_a)) (window demo_session).

Definition demo_value_window : TailoringWindow :=
  with_mItemPropertiesDockWidget
    (with_mXccdfItem (Some (xccdf_value_to_item demo_password_length))) (window demo_session).

(** The window of the small document after a second edit of the title. *)
Definition demo_twice_edited_session : Session :=
  match @perform layered_OpenSCAP 1 (type_title "My Own Profile") demo_edited_session with
  | Ok s => s
  | _ => demo_edited_session
  end.

(** Three tree items for rules that the document does not have. *)
Definition demo_stale_children : list QTreeWidgetItem :=
  [ demo_item_for (XRule (demo_header "stale_a" true)) [];
    demo_item_for (XRule (demo_header "stale_b" true)) [];
    demo_item_for (XRule (demo_header "stale_c" true)) [] ].

(** The tree item of rule_a with its box checked. *)
Definition demo_checked_item : QTreeWidgetItem :=
  TreeItem (set_checkState Qt_Checked (fields_of (demo_item_for demo_rule_a []))) [].

(** The small document's window with the password length selected in the
    tree. *)
Definition demo_value_session : Session :=
  match @perform layered_OpenSCAP 1 (select_item [0; 0]) demo_session with
  | Ok s => s
  | _ => demo_session
  end.

(** * Properties *)

Section Facts.
Context `{OpenSCAP}.

(** ** Selection state accessor and value override store *)

(** C2: [setItemSelected] builds a select with the item's identifier and the
    given flag and appends it to the profile and to the policy; when it
    returns, the policy evaluates the item to the given flag; when the
    evaluation after the two additions differs, it throws instead of
    returning. *)
Theorem setItemSelected_post (w : TailoringWindow) (item : xccdf_item) (selected : bool) :
  let newSelect := {| xccdf_select_get_item := xccdf_item_get_id item;
                      xccdf_select_get_selected := selected |} in
  (∃ w', setItemSelected item selected w = Ok w'
         ∧ xccdf_profile_get_selects (mProfile w')
           = xccdf_profile_get_selects (mProfile w) ++ [newSelect]
         ∧ xccdf_policy_get_selects (mPolicy w')
           = xccdf_policy_get_selects (mPolicy w) ++ [newSelect]
         ∧ getXccdfItemInternalSelected (mPolicy w') item = selected)
  ∨ (∃ what, setItemSelected item selected w = Throw what
             ∧ getXccdfItemInternalSelected
                 (xccdf_policy_add_select newSelect (mPolicy w)) item ≠ selected).
Proof.
  intros newSelect. unfold setItemSelected.
  destruct (eqb _ selected) eqn:E; simpl.
  - left. eexists. split; [reflexivity|]. repeat split.
    by apply eqb_prop.
  - right. eexists. split; [reflexivity|].
    intros Heq. apply eqb_false_iff in E. apply E. exact Heq.
Qed.

(** C7: [setValueValue] builds a setvalue with the value's identifier and
    the new value and appends it to the profile; when it returns, the policy
    evaluates the value to the new value; when the evaluation after the
    addition differs, the assertion fails and nothing is returned. *)
Theorem setValueValue_post (w : TailoringWindow) (value : xccdf_value) (newValue : string) :
  let setvalue := {| xccdf_setvalue_get_item := xccdf_value_get_id value;
                     xccdf_setvalue_get_value := newValue |} in
  (∃ w', setValueValue value newValue w = Ok w'
         ∧ xccdf_profile_get_setvalues (mProfile w')
           = xccdf_profile_get_setvalues (mProfile w) ++ [setvalue]
         ∧ xccdf_policy_get_selects (mPolicy w') = xccdf_policy_get_selects (mPolicy w)
         ∧ getCurrentValueValue value w' = newValue)
  ∨ (setValueValue value newValue w = AssertionFailed
     ∧ getCurrentValueValue value
         (with_mProfile (xccdf_profile_add_setvalue setvalue) w) ≠ newValue).
Proof.
  intros setvalue. unfold setValueValue, assert.
  case_bool_decide as E.
  - left. eexists. split; [reflexivity|]. repeat split. exact E.
  - right. split; [reflexivity|]. exact E.
Qed.


(** ** The dock widgets' refresh guard *)

Lemma same_but_panels_refl w : same_but_panels w w.
Proof. by repeat split. Qed.

Lemma same_but_panels_trans w1 w2 w3 :
  same_but_panels w1 w2 → same_but_panels w2 w3 → same_but_panels w1 w3.
Proof.
  intros (?&?&?&?&?) (?&?&?&?&?). repeat split; congruence.
Qed.

Lemma same_but_panels_profile_panel f w :
  same_but_panels w (with_mProfilePropertiesDockWidget f w).
Proof. by repeat split. Qed.

Lemma same_but_panels_item_panel f w :
  same_but_panels w (with_mItemPropertiesDockWidget f w).
Proof. by repeat split. Qed.

(** A slot that finds its dock widget refreshing returns at once. *)
Lemma deliver_panel_refreshing fuel signal w :
  refresh_in_progress signal w = true → deliver_panel (S fuel) signal w = Ok w.
Proof.
  intros Hr. destruct signal; simpl in *;
    unfold profileTitleChanged, profileDescriptionChanged, valueChanged,
      profile_panel, item_panel; by rewrite Hr.
Qed.

Lemma ProfilePropertiesDockWidget_refresh_ok fuel w :
  ∃ w', ProfilePropertiesDockWidget_refresh (deliver_panel (S fuel)) w = Ok w'
        ∧ same_but_panels w w'
        ∧ mItemPropertiesDockWidget w' = mItemPropertiesDockWidget w.
Proof.
  unfold ProfilePropertiesDockWidget_refresh, ui_title_setText, ui_description_setPlainText.
  repeat (match goal with |- context [bool_decide ?P] => destruct (bool_decide P) eqn:? end;
          simpl).
  all: eexists; (split; [reflexivity|]); done.
Qed.

#[local] Arguments deliver_panel : simpl never.

Lemma addItems_refreshing fuel instances w :
  item_mRefreshInProgress (mItemPropertiesDockWidget w) = true →
  ∃ w', foldl (fun acc instance =>
                 wi ← acc; ui_valueComboBox_addItem (deliver_panel (S fuel)) instance wi)
          (Ok w) instances = Ok w'
        ∧ item_refresh_keeps w w'.
Proof.
  revert w. induction instances as [|instance rest IH]; intros w Hr; simpl.
  - eexists. split; [reflexivity|]. by repeat split.
  - unfold ui_valueComboBox_addItem at 2. rewrite deliver_panel_refreshing by done.
    edestruct IH as (w' & E & K); [|rewrite E; eexists; split; [reflexivity|]].
    + done.
    + destruct K as ((?&?&?&?&?)&?&?&?). repeat split; simpl in *; congruence.
Qed.

Lemma refresh_value_ok fuel value w :
  item_mRefreshInProgress (mItemPropertiesDockWidget w) = true →
  ∃ w', refresh_value (deliver_panel (S fuel)) value w = Ok w' ∧ item_refresh_keeps w w'.
Proof.
  intros Hr. unfold refresh_value.
  set (w1 := match xccdf_value_get_type value with
             | XCCDF_TYPE_NUMBER => _ | XCCDF_TYPE_STRING => _ | XCCDF_TYPE_BOOLEAN => _ end).
  assert (K1 : item_refresh_keeps w w1).
  { subst w1. destruct (xccdf_value_get_type value); by repeat split. }
  destruct (addItems_refreshing fuel (xccdf_value_get_instances value) w1) as (w2 & E2 & K2).
  { destruct K1 as (_&_&_&->). done. }
  rewrite E2. simpl.
  unfold ui_valueComboBox_setEditText. rewrite deliver_panel_refreshing.
  2:{ simpl. destruct K2 as (_&_&_&->). destruct K1 as (_&_&_&->). done. }
  simpl. eexists. split; [reflexivity|].
  destruct K1 as ((?&?&?&?&?)&?&?&?), K2 as ((?&?&?&?&?)&?&?&?).
  repeat split; simpl in *; congruence.
Qed.

Lemma XCCDFItemPropertiesDockWidget_refresh_ok fuel w :
  ∃ w', XCCDFItemPropertiesDockWidget_refresh (deliver_panel (S fuel)) w = Ok w'
        ∧ item_refresh_keeps w w'.
Proof.
  unfold XCCDFItemPropertiesDockWidget_refresh.
  destruct (item_mRefreshInProgress (item_panel w)) eqn:Hr.
  - eexists. split; [reflexivity|]. by repeat split.
  - unfold ui_valueComboBox_clear, ui_valueComboBox_setEditText.
    rewrite deliver_panel_refreshing by done. simpl.
    destruct (mXccdfItem (mItemPropertiesDockWidget w)) as [item|] eqn:Ei.
    + destruct (xccdf_item_to_value item) as [value|].
      * match goal with |- context [refresh_value _ _ ?w0] =>
          destruct (refresh_value_ok fuel value w0) as (w7 & E7 & K7); [done|] end.
        rewrite E7. simpl. eexists. split; [reflexivity|].
        destruct K7 as ((?&?&?&?&?)&?&?&?).
        unfold item_panel in Hr.
        repeat split; simpl in *; congruence.
      * simpl. eexists. split; [reflexivity|]. unfold item_panel in Hr.
        repeat split; simpl; congruence.
    + simpl. eexists. split; [reflexivity|]. unfold item_panel in Hr.
      repeat split; simpl; congruence.
Qed.

(** C6: a refresh of either dock widget returns with the undo stack as it
    was, whatever fields it changes: the slots its setters call find the
    refresh in progress and return at once.  A slot called while its dock
    widget is not refreshing is the push of the corresponding command. *)
Theorem refresh_pushes_no_command (fuel : nat) (w : TailoringWindow) :
  (∃ w', ProfilePropertiesDockWidget_refresh (deliver_panel (S fuel)) w = Ok w'
         ∧ mUndoStack w' = mUndoStack w)
  ∧ (∃ w', XCCDFItemPropertiesDockWidget_refresh (deliver_panel (S fuel)) w = Ok w'
           ∧ mUndoStack w' = mUndoStack w)
  ∧ (∀ signal,
       deliver_panel (S fuel) signal w =
       if refresh_in_progress signal w then Ok w
       else match signal with
            | title_textChanged text =>
                setProfileTitleWithUndoCommand (deliver_panel fuel) text w
            | description_textChanged =>
                setProfileDescriptionWithUndoCommand (deliver_panel fuel)
                  (profile_ui_description (mProfilePropertiesDockWidget w)) w
            | valueComboBox_editTextChanged text =>
                match mXccdfItem (mItemPropertiesDockWidget w) ≫= xccdf_item_to_value with
                | Some value => setValueValueWithUndoCommand (deliver_panel fuel) value text w
                | None => Fault
                end
            end).
Proof.
  split; [|split].
  - destruct (ProfilePropertiesDockWidget_refresh_ok fuel w) as (w' & E & (?&?&?&?) & ?).
    eauto.
  - destruct (XCCDFItemPropertiesDockWidget_refresh_ok fuel w) as (w' & E & ((?&?&?&?) & ?)).
    eauto.
  - intros [text| |text]; reflexivity.
Qed.

(** ** Merging of value changes *)

Lemma setValueValue_keeps value newValue w w1 :
  setValueValue value newValue w = Ok w1 →
  mUndoStack w1 = mUndoStack w
  ∧ mSynchronizeItemLock w1 = mSynchronizeItemLock w
  ∧ mProfilePropertiesDockWidget w1 = mProfilePropertiesDockWidget w
  ∧ mItemPropertiesDockWidget w1 = mItemPropertiesDockWidget w.
Proof.
  unfold setValueValue, assert. case_bool_decide; [|done]. intros [= <-]. done.
Qed.

Lemma XCCDFValueChangeUndoCommand_redo_stack fuel value newValue w w1 :
  XCCDFValueChangeUndoCommand_redo (deliver_panel (S fuel)) value newValue w = Ok w1 →
  mUndoStack w1 = mUndoStack w.
Proof.
  unfold XCCDFValueChangeUndoCommand_redo, refreshXccdfItemPropertiesDockWidget.
  destruct (setValueValue value newValue w) as [w0| | | |] eqn:E0; try done. simpl.
  destruct (XCCDFItemPropertiesDockWidget_refresh_ok fuel w0) as (w' & E & ((?&?&?&?) & ?)).
  rewrite E. intros [= <-]. apply setValueValue_keeps in E0 as (?&_). congruence.
Qed.

Lemma QUndoStack_enter_appends cmd stack :
  (∀ cur, current_command stack = Some cur → QUndoCommand_id cur = QUndoCommand_id cmd →
          QUndoCommand_mergeWith cur cmd = None) →
  QUndoStack_enter cmd stack
  = {| command_list := take (stack_index stack) (command_list stack) ++ [cmd];
       stack_index := S (stack_index stack) |}.
Proof.
  unfold QUndoStack_enter, current_command. intros Hno.
  destruct (stack_index stack) as [|below]; [done|].
  destruct (command_list stack !! below) as [cur|]; [|done].
  destruct (bool_decide (QUndoCommand_id cur ≠ (-1)%Z)); simpl; [|done].
  case_bool_decide as Eid; [|done].
  by rewrite (Hno cur eq_refl Eid).
Qed.

Lemma take_app_last {A} (l : list A) (x : A) n :
  n = length l → take (S n) (l ++ [x]) = l ++ [x].
Proof. intros ->. rewrite firstn_all2; [done|]. rewrite length_app. simpl. lia. Qed.


(** ** Which text a title or description edit changes *)

Lemma choose_text_cases (texts : list oscap_text) (i : nat) (chosen : option nat) :
  (∃ k, choose_text texts i chosen = Some (i + k) ∧ designated_text texts k
        ∧ ((∃ t, texts !! k = Some t ∧ oscap_text_get_lang t = OSCAP_LANG_DEFAULT)
           ∨ (chosen = None ∧ k = 0)))
  ∨ (choose_text texts i chosen = chosen
     ∧ (∀ t, t ∈ texts → oscap_text_get_lang t ≠ OSCAP_LANG_DEFAULT)
     ∧ (chosen = None → texts = [])).
Proof.
  revert i chosen. induction texts as [|t rest IH]; intros i chosen; simpl.
  - right. split; [done|]. split; [|done]. intros t Ht. by apply elem_of_nil in Ht.
  - match goal with |- context [choose_text rest (S i) ?c] => set (chosen' := c) end.
    destruct (IH (S i) chosen') as [(k & E & (Hk1 & Hk2 & Hk3) & Hk)|(E & Hnone & Hempty)].
    + (* a default-language text further on, or the first of the rest *)
      destruct Hk as [(t' & Ht' & Hl')|(Hc & ->)].
      * left. exists (S k). split; [rewrite E; f_equal; lia|]. split.
        -- split; [done|]. split.
           ++ intros [|j] tj Hj Hlj.
              ** split; [lia|]. eauto.
              ** destruct (Hk2 j tj Hj Hlj) as [? ?]. split; [lia|done].
           ++ intros Hall. exfalso. apply (Hall t'); [|done].
              apply list_elem_of_lookup. by exists (S k).
        -- left. eauto.
      * (* chosen' = None is impossible: the head was a candidate *)
        exfalso. subst chosen'. destruct chosen; simpl in Hc;
          [by case_bool_decide|done].
    + (* no default-language text in the rest *)
      subst chosen'. rewrite E. clear E.
      destruct (bool_decide (oscap_text_get_lang t = OSCAP_LANG_DEFAULT)) eqn:Ed.
      * apply bool_decide_eq_true in Ed. left. exists 0.
        rewrite orb_true_r, Nat.add_0_r. split; [done|]. split.
        -- split; [by eexists|]. split.
           ++ intros [|j] tj Hj Hlj.
              ** split; [lia|]. eauto.
              ** exfalso. apply (Hnone tj); [|done]. apply list_elem_of_lookup. eauto.
           ++ done.
        -- left. eauto.
      * apply bool_decide_eq_false in Ed. rewrite orb_false_r.
        destruct chosen as [c|]; simpl.
        -- right. split; [done|]. split; [|done].
           intros t' [->|Hin]%elem_of_cons; [done|by apply Hnone].
        -- left. exists 0. rewrite Nat.add_0_r. split; [done|]. split.
           ++ split; [by eexists|]. split; [|done].
              intros [|j] tj Hj Hlj.
              ** simpl in Hj. injection Hj as <-. done.
              ** exfalso. apply (Hnone tj); [|done]. apply list_elem_of_lookup. eauto.
           ++ by right.
Qed.

Lemma choose_text_designated (texts : list oscap_text) :
  match texts with
  | [] => choose_text texts 0 None = None
  | _ :: _ => ∃ i, choose_text texts 0 None = Some i ∧ designated_text texts i
  end.
Proof.
  destruct (choose_text_cases texts 0 None) as [(k & E & Hk & _)|(E & _ & Hempty)].
  - destruct texts; [|eauto].
    destruct Hk as ([? Hl] & _). done.
  - rewrite (Hempty eq_refl). done.
Qed.

(** C8: [setProfileTitle] and [setProfileDescription] throw when the profile
    has no text of that kind, and nothing is inserted; otherwise they set the
    text (and the language tag) of the designated entry: the one tagged with
    the default language when there is one, the first entry when there is
    none.  The other entries are left as they are. *)
Theorem profile_text_edit_target (w : TailoringWindow) (text : string) :
  let edited texts i :=
    <[ i := {| oscap_text_get_lang := OSCAP_LANG_DEFAULT;
               oscap_text_get_text := text |} ]> texts in
  match xccdf_profile_get_title (mProfile w) with
  | [] => setProfileTitle text w = Throw setProfileTitle_what
  | titles =>
      ∃ i, designated_text titles i
           ∧ setProfileTitle text w
             = assert (bool_decide (oscapTextIteratorGetPreferred (edited titles i) = text))
                 (Ok (with_mProfile (xccdf_profile_set_title (edited titles i)) w))
  end
  ∧ match xccdf_profile_get_description (mProfile w) with
    | [] => setProfileDescription text w = Throw setProfileDescription_what
    | descriptions =>
        ∃ i, designated_text descriptions i
             ∧ setProfileDescription text w
               = assert (bool_decide
                           (oscapTextIteratorGetPreferred (edited descriptions i) = text))
                   (Ok (with_mProfile
                          (xccdf_profile_set_description (edited descriptions i)) w))
    end.
Proof.
  intros edited. split.
  - unfold setProfileTitle.
    pose proof (choose_text_designated (xccdf_profile_get_title (mProfile w))) as Hc.
    destruct (xccdf_profile_get_title (mProfile w)) as [|t0 rest].
    + by rewrite Hc.
    + destruct Hc as (i & -> & Hi). exists i. split; [done|]. reflexivity.
  - unfold setProfileDescription.
    pose proof (choose_text_designated (xccdf_profile_get_description (mProfile w))) as Hc.
    destruct (xccdf_profile_get_description (mProfile w)) as [|t0 rest].
    + by rewrite Hc.
    + destruct Hc as (i & -> & Hi). exists i. split; [done|]. reflexivity.
Qed.

(** ** The tree synchronizer *)

#[local] Arguments deliver_itemChanged : simpl never.

Lemma xccdf_item_ind' (P : xccdf_item → Prop) :
  (∀ h values content, Forall P content → P (XBenchmark h values content)) →
  (∀ h values content, Forall P content → P (XGroup h values content)) →
  (∀ h, P (XRule h)) →
  (∀ v, P (XValue v)) →
  ∀ item, P item.
Proof.
  intros HB HG HR HV. fix IH 1. intros [h values content|h values content|h|v].
  - apply HB. induction content as [|c content IHc]; constructor; [apply IH|apply IHc].
  - apply HG. induction content as [|c content IHc]; constructor; [apply IH|apply IHc].
  - apply HR.
  - apply HV.
Qed.

Lemma xccdf_item_eqb_eq x y : xccdf_item_eqb x y = true ↔ x = y.
Proof.
  revert y. induction x as [h vs cs IH|h vs cs IH|h|v] using xccdf_item_ind';
    intros [h' vs' cs'|h' vs' cs'|h'|v']; simpl; try (split; [done|discriminate]).
  - rewrite !andb_true_iff, !bool_decide_eq_true.
    assert (Hcs : ∀ cs', (fix all2 (xs ys : list xccdf_item) : bool :=
                   match xs, ys with
                   | [], [] => true
                   | x' :: xs', y' :: ys' => xccdf_item_eqb x' y' && all2 xs' ys'
                   | _, _ => false
                   end) cs cs' = true ↔ cs = cs').
    { induction IH as [|c cs Hc _ IHcs]; intros [|c' cs'']; try (split; [done|discriminate]).
      - done.
      - rewrite andb_true_iff, Hc, IHcs. split; [by intros [-> ->]|by intros [= -> ->]]. }
    rewrite Hcs. split; [by intros [[-> ->] ->]|by intros [= -> -> ->]].
  - rewrite !andb_true_iff, !bool_decide_eq_true.
    assert (Hcs : ∀ cs', (fix all2 (xs ys : list xccdf_item) : bool :=
                   match xs, ys with
                   | [], [] => true
                   | x' :: xs', y' :: ys' => xccdf_item_eqb x' y' && all2 xs' ys'
                   | _, _ => false
                   end) cs cs' = true ↔ cs = cs').
    { induction IH as [|c cs Hc _ IHcs]; intros [|c' cs'']; try (split; [done|discriminate]).
      - done.
      - rewrite andb_true_iff, Hc, IHcs. split; [by intros [-> ->]|by intros [= -> ->]]. }
    rewrite Hcs. split; [by intros [[-> ->] ->]|by intros [= -> -> ->]].
  - rewrite bool_decide_eq_true. split; [by intros ->|by intros [= ->]].
  - rewrite bool_decide_eq_true. split; [by intros ->|by intros [= ->]].
Qed.

Lemma xccdf_item_eqb_refl x : xccdf_item_eqb x x = true.
Proof. by apply xccdf_item_eqb_eq. Qed.

(** The slot returns at once while a synchronization is under way. *)
Lemma deliver_itemChanged_locked fuel at_ ts :
  0 < mSynchronizeItemLock ts.2 → deliver_itemChanged (S fuel) at_ ts = Ok ts.
Proof.
  intros Hl. unfold deliver_itemChanged, itemChanged_slot.
  by rewrite bool_decide_eq_true_2.
Qed.

Lemma deliver_itemChanged_quiet fuel n : quiet_above n (deliver_itemChanged (S fuel)).
Proof. intros at_ ts Hl. apply deliver_itemChanged_locked. lia. Qed.

Lemma noop_quiet n : quiet_above n (fun _ ts => Ok ts).
Proof. done. Qed.

Lemma treeItem_set_quiet n slot f at_ t w :
  quiet_above n slot → n < mSynchronizeItemLock w →
  treeItem_set slot f at_ (t, w) = Ok (with_fields f t, w).
Proof. intros Hq Hl. unfold treeItem_set. by apply Hq. Qed.

Lemma backing_with_fields f t :
  (∀ a, item_data (f a) = item_data a) → backing (with_fields f t) = backing t.
Proof. intros Hf. destruct t as [a cs]. simpl. by rewrite Hf. Qed.

Lemma backing_setDisabled b t : backing (setDisabled b t) = backing t.
Proof. by apply backing_with_fields. Qed.

Lemma QTreeWidgetItem_ind' (P : QTreeWidgetItem → Prop) :
  (∀ fields children, Forall P children → P (TreeItem fields children)) →
  ∀ treeItem, P treeItem.
Proof.
  intros HT. fix IH 1. intros [fields children]. apply HT.
  induction children as [|c children IHc]; constructor; [apply IH|apply IHc].
Qed.

Lemma backing_syncChildren t enabled :
  backing (_syncXCCDFItemChildrenDisabledState t enabled) = backing t.
Proof.
  revert enabled. induction t as [a cs IH] using QTreeWidgetItem_ind'.
  intros enabled. simpl. f_equal.
  induction IH as [|c cs Hc _ IHcs]; [done|]. simpl. f_equal; [|done].
  destruct (negb enabled && _); [by rewrite backing_setDisabled, Hc|].
  destruct (enabled && _); [by rewrite backing_setDisabled, Hc|done].
Qed.

Lemma with_lock_pred_S w :
  with_mSynchronizeItemLock pred (with_mSynchronizeItemLock S w) = w.
Proof. by destruct w. Qed.

(** What the field part leaves: the window as it was, the item pointing to
    the document item, the children still backed by what they were. *)
Lemma synchronize_fields_quiet n slot item at_ t w :
  quiet_above n slot → n < mSynchronizeItemLock w →
  ∃ t5, synchronize_fields slot item at_ (t, w) = Ok (t5, w)
        ∧ getXccdfItemFromTreeItem t5 = Some item
        ∧ map backing (children_of t5) = map backing (children_of t)
        ∧ checkState t5
          = match xccdf_item_get_type item with
            | XCCDF_RULE | XCCDF_GROUP =>
                if getXccdfItemInternalSelected (mPolicy w) item
                then Qt_Checked else Qt_Unchecked
            | _ => checkState t
            end.
Proof.
  intros Hq Hl. unfold synchronize_fields.
  rewrite (treeItem_set_quiet n) by done. simpl.
  rewrite (treeItem_set_quiet n) by done. simpl.
  rewrite (treeItem_set_quiet n) by done. simpl.
  rewrite (treeItem_set_quiet n) by done. simpl.
  destruct t as [a cs].
  destruct (xccdf_item_get_type item); simpl.
  - eexists. split; [reflexivity|]. done.
  - eexists. split; [reflexivity|]. done.
  - eexists. split; [reflexivity|]. done.
  - rewrite (treeItem_set_quiet n) by done. simpl.
    rewrite (treeItem_set_quiet n) by done. simpl.
    eexists. split; [reflexivity|]. split; [done|]. split; [|done].
    change (children_of (TreeItem ?a ?l)) with l.
    rewrite !map_map. apply map_ext. intros c.
    destruct (negb _ && _); [by rewrite backing_setDisabled, backing_syncChildren|].
    destruct (_ && _); [by rewrite backing_setDisabled, backing_syncChildren|done].
  - rewrite (treeItem_set_quiet n) by done. simpl.
    rewrite (treeItem_set_quiet n) by done. simpl.
    eexists. split; [reflexivity|]. split; [done|]. split; [|done].
    change (children_of (TreeItem ?a ?l)) with l.
    rewrite !map_map. apply map_ext. intros c.
    destruct (negb _ && _); [by rewrite backing_setDisabled, backing_syncChildren|].
    destruct (_ && _); [by rewrite backing_setDisabled, backing_syncChildren|done].
  - rewrite (treeItem_set_quiet n) by done. simpl.
    eexists. split; [reflexivity|]. done.
Qed.

(** *** The map of existing items names children that are there *)

Lemma position_of_Some origin (children : list tagged) :
  Some origin ∈ children.*1 → ∃ pos tag t, position_of origin children = Some pos
                                            ∧ children !! pos = Some (tag, t).
Proof.
  induction children as [|[tag t] rest IH]; simpl.
  - intros Hin. by apply elem_of_nil in Hin.
  - intros Hin. case_bool_decide as Et.
    + exists 0, tag, t. done.
    + apply elem_of_cons in Hin as [Heq|Hin]; [congruence|].
      destruct (IH Hin) as (pos & tag' & t' & -> & Hl).
      exists (S pos), tag', t'. done.
Qed.

Lemma insertChild_tags {A} idx (x : A) (children : list A) y :
  y ∈ children → y ∈ insertChild idx x children.
Proof.
  unfold insertChild. case_bool_decide; [|done].
  rewrite <- (take_drop idx children) at 1.
  rewrite !elem_of_app, elem_of_cons. tauto.
Qed.

Lemma insertChild_lookup {A} idx (x : A) (children : list A) :
  idx ≤ length children → insertChild idx x children !! idx = Some x.
Proof.
  intros Hi. unfold insertChild. rewrite bool_decide_eq_true_2 by done.
  rewrite lookup_app_r by (rewrite length_take; lia).
  rewrite length_take. by replace (idx - idx `min` length children) with 0 by lia.
Qed.

Lemma delete_absent_bound n items children i m kept m' :
  length children ≤ n →
  delete_absent items children i m = (kept, m') →
  (∀ x k, map_find m x = Some k → k < i) →
  ∀ x k, map_find m' x = Some k → k < i + length kept.
Proof.
  revert children i m kept m'.
  induction n as [|n IH]; intros children i m kept m' Hlen.
  - destruct children; [|simpl in Hlen; lia]. simpl. intros [= <- <-] Hm x k Hf.
    specialize (Hm x k Hf). lia.
  - destruct children as [|c rest]; simpl.
    { intros [= <- <-] Hm x k Hf. specialize (Hm x k Hf). lia. }
    simpl in Hlen. destruct (found_in items (getXccdfItemFromTreeItem c)).
    + destruct (delete_absent items rest (S i) _) as [kept0 m0] eqn:E0.
      intros [= <- <-] Hm x k Hf. simpl.
      eapply IH in E0; [| lia | | exact Hf]; [lia|].
      intros x' k'. destruct (getXccdfItemFromTreeItem c) as [xc|]; simpl.
      * destruct (xccdf_item_eqb xc x'); [intros [= <-]; lia|].
        intros Hf'. specialize (Hm x' k' Hf'). lia.
      * intros Hf'. specialize (Hm x' k' Hf'). lia.
    + destruct rest as [|c' rest'].
      { intros [= <- <-] Hm x k Hf. specialize (Hm x k Hf). simpl. lia. }
      destruct (delete_absent items rest' (S i) m) as [kept0 m0] eqn:E0.
      intros [= <- <-] Hm x k Hf. simpl.
      eapply IH in E0; [| simpl in Hlen; lia | | exact Hf]; [lia|].
      intros x' k' Hf'. specialize (Hm x' k' Hf'). lia.
Qed.

Lemma imap_tags (kept : list QTreeWidgetItem) k :
  k < length kept → Some k ∈ (imap (fun k child => (Some k, child)) kept).*1.
Proof.
  intros Hk. apply list_elem_of_fmap.
  destruct (lookup_lt_is_Some_2 kept k Hk) as [c Hc].
  exists (Some k, c). split; [done|].
  apply list_elem_of_lookup. exists k. by rewrite list_lookup_imap, Hc.
Qed.

Lemma add_and_recurse_ok n at_ (kids : list child_sync) idx m (children : list tagged) w :
  Forall (fun kid => returns_window n kid.2) kids →
  n ≤ mSynchronizeItemLock w →
  (∀ x k, map_find m x = Some k → Some k ∈ children.*1) →
  ∃ children', add_and_recurse at_ kids idx m children w = Ok (children', w).
Proof.
  intros Hkids Hl. revert idx children.
  induction Hkids as [|[c f] kids Hf _ IH]; intros idx children Hm; simpl.
  - eauto.
  - simpl in Hf. assert (∃ children1,
      match map_find m c with
      | None =>
          '(childTreeItem', w1) ← f (at_ ++ [idx]) (new_QTreeWidgetItem, w);
          Ok (if bool_decide (idx ≤ length children)
              then <[ idx := (None, childTreeItem') ]>
                     (insertChild idx (None, new_QTreeWidgetItem) children)
              else insertChild idx (None, new_QTreeWidgetItem) children, w1)
      | Some origin =>
          match position_of origin children with
          | Some pos =>
              match children !! pos with
              | Some (tag, childTreeItem) =>
                  '(childTreeItem', w1) ← f (at_ ++ [pos]) (childTreeItem, w);
                  Ok (<[pos:=(tag, childTreeItem')]> children, w1)
              | None => Fault
              end
          | None => Fault
          end
      end = Ok (children1, w)
      ∧ ∀ y, y ∈ children.*1 → y ∈ children1.*1) as (children1 & -> & Hsub).
    { destruct (map_find m c) as [origin|] eqn:Ef.
      - destruct (position_of_Some origin children (Hm _ _ Ef)) as (pos & tag & t & -> & Hp).
        rewrite Hp. destruct (Hf (at_ ++ [pos]) t w Hl) as (t' & ->). simpl.
        eexists. split; [reflexivity|].
        rewrite list_fmap_insert. simpl.
        rewrite list_insert_id; [done|].
        by rewrite list_lookup_fmap, Hp.
      - destruct (Hf (at_ ++ [idx]) new_QTreeWidgetItem w Hl) as (t' & ->). simpl.
        eexists. split; [reflexivity|]. intros y Hy.
        assert (Hin : y ∈ (insertChild idx (None, new_QTreeWidgetItem) children).*1).
        { apply list_elem_of_fmap in Hy as ([tag t0] & -> & Hin).
          apply list_elem_of_fmap. exists (tag, t0). split; [done|].
          by apply insertChild_tags. }
        case_bool_decide; [|done].
        rewrite list_fmap_insert. simpl. rewrite list_insert_id; [done|].
        by rewrite list_lookup_fmap, insertChild_lookup. }
    simpl. apply IH. intros x k Hx. apply Hsub. by apply (Hm x k).
Qed.

Lemma synchronize_children_ok n at_ (kids : list child_sync) t w :
  Forall (fun kid => returns_window n kid.2) kids →
  n ≤ mSynchronizeItemLock w →
  ∃ t', synchronize_children kids at_ (t, w) = Ok (t', w).
Proof.
  intros Hkids Hl. unfold synchronize_children. simpl.
  destruct (delete_absent kids.*1 (children_of t) 0 []) as [kept m] eqn:Ed.
  destruct (add_and_recurse_ok n at_ kids 0 m
              (imap (fun k child => (Some k, child)) kept) w Hkids Hl) as (children' & ->).
  - intros x k Hf. apply imap_tags.
    eapply (delete_absent_bound _ _ _ 0 [] kept m) in Hf; [lia|done|exact Ed|done].
  - simpl. eauto.
Qed.

Lemma synchronize_one_ok n slot item (kids : list child_sync) at_ recursive t w :
  quiet_above n slot →
  Forall (fun kid => returns_window n kid.2) kids →
  n ≤ mSynchronizeItemLock w →
  ∃ t', synchronize_one slot item kids at_ recursive (t, w) = Ok (t', w).
Proof.
  intros Hq Hkids Hl. unfold synchronize_one. simpl.
  destruct (synchronize_fields_quiet n slot item at_ t (with_mSynchronizeItemLock S w))
    as (t5 & -> & _); [done|simpl; lia|]. simpl.
  destruct recursive.
  - destruct (synchronize_children_ok n at_ kids t5 (with_mSynchronizeItemLock S w))
      as (t' & ->); [done|simpl; lia|].
    simpl. rewrite with_lock_pred_S. eauto.
  - simpl. rewrite with_lock_pred_S. eauto.
Qed.

Lemma synchronizeTreeItem_ok n slot item :
  quiet_above n slot →
  ∀ recursive, returns_window n (fun at_ => synchronizeTreeItem slot item at_ recursive).
Proof.
  intros Hq. induction item as [h vs cs IH|h vs cs IH|h|v] using xccdf_item_ind';
    intros recursive at_ t w Hl; simpl.
  - apply (synchronize_one_ok n); [done| |done].
    apply Forall_app. split.
    + apply Forall_map, Forall_forall. intros v _ at' t0 w0 Hl0. simpl.
      by apply (synchronize_one_ok n).
    + apply Forall_map. eapply Forall_impl; [|exact IH].
      intros c Hc. simpl. apply Hc.
  - apply (synchronize_one_ok n); [done| |done].
    apply Forall_app. split.
    + apply Forall_map, Forall_forall. intros v _ at' t0 w0 Hl0. simpl.
      by apply (synchronize_one_ok n).
    + apply Forall_map. eapply Forall_impl; [|exact IH].
      intros c Hc. simpl. apply Hc.
  - by apply (synchronize_one_ok n).
  - by apply (synchronize_one_ok n).
Qed.


(** ** The slot of the tree *)

Lemma setItemSelected_cases item selected w :
  (setItemSelected item selected w = Ok (add_select_to_both item selected w)
   ∧ getXccdfItemInternalSelected (mPolicy (add_select_to_both item selected w)) item
     = selected)
  ∨ setItemSelected item selected w = Throw (setItemSelected_what item selected).
Proof.
  unfold setItemSelected. destruct (eqb _ selected) eqn:E; simpl; [|by right].
  left. split; [done|]. by apply eqb_prop.
Qed.

Lemma QUndoStack_enter_select at_ newSelect stack :
  QUndoStack_enter (XCCDFItemSelectUndoCommand at_ newSelect) stack
  = {| command_list := take (stack_index stack) (command_list stack)
                       ++ [XCCDFItemSelectUndoCommand at_ newSelect];
       stack_index := S (stack_index stack) |}.
Proof.
  apply QUndoStack_enter_appends. intros [| |p b|] _; simpl; try done.
Qed.

Lemma deliver_itemChanged_S fuel at_ ts :
  deliver_itemChanged (S fuel) at_ ts = itemChanged_slot (deliver_itemChanged fuel) at_ ts.
Proof. reflexivity. Qed.

(** C10: the slot of the tree's [itemChanged] signal pushes a select command
    exactly when the counter is zero, the tree item points to a document
    item, that item is not a Value, and the check box differs from the
    policy's evaluation of the item; the command then becomes a new entry of
    the history (unless [setItemSelected] throws).  In every other case the
    slot returns with the window, history included, as it was. *)
Theorem itemChanged_pushes_iff (fuel : nat) (at_ : list nat) (t : QTreeWidgetItem)
    (w : TailoringWindow) :
  let checked := bool_decide (checkState t = Qt_Checked) in
  let outcome := deliver_itemChanged (S (S fuel)) at_ (t, w) in
  let stack := mUndoStack w in
  match getXccdfItemFromTreeItem t with
  | Some item =>
      if bool_decide (mSynchronizeItemLock w = 0)
         && negb (bool_decide (xccdf_item_get_type item = XCCDF_VALUE))
         && negb (eqb checked (getXccdfItemInternalSelected (mPolicy w) item))
      then match setItemSelected item checked w with
           | Ok w1 =>
               ∃ t', outcome
                     = Ok (t', with_mUndoStack
                                 (fun _ =>
                                    {| command_list :=
                                         take (stack_index stack) (command_list stack)
                                         ++ [XCCDFItemSelectUndoCommand at_ checked];
                                       stack_index := S (stack_index stack) |}) w1)
           | Throw what => outcome = Throw what
           | _ => False
           end
      else ∃ t', outcome = Ok (t', w)
  | None => outcome = Ok (t, w)
  end.
Proof.
  intros checked outcome stack. subst outcome.
  rewrite deliver_itemChanged_S. unfold itemChanged_slot. simpl.
  destruct (mSynchronizeItemLock w) as [|n] eqn:El.
  2:{ rewrite (bool_decide_eq_true_2 (0 < S n)) by lia.
      rewrite (bool_decide_eq_false_2 (S n = 0)) by lia. simpl.
      destruct (getXccdfItemFromTreeItem t); eauto. }
  rewrite (bool_decide_eq_false_2 (0 < 0)) by lia.
  rewrite (bool_decide_eq_true_2 (0 = 0)) by done.
  destruct (getXccdfItemFromTreeItem t) as [item|] eqn:Ed; [|done]. simpl.
  case_bool_decide as Ev; simpl; [eauto|].
  fold checked.
  destruct (eqb checked (getXccdfItemInternalSelected (mPolicy w) item)); simpl; [eauto|].
  unfold QUndoStack_push, XCCDFItemSelectUndoCommand_redo. simpl. rewrite Ed.
  destruct (setItemSelected_cases item checked w) as [[-> _]| ->]; simpl; [|done].
  destruct (synchronizeTreeItem_ok 0 (deliver_itemChanged (S fuel)) item
              (deliver_itemChanged_quiet fuel 0) false at_ t
              (add_select_to_both item checked w)) as (t1 & ->); [lia|].
  simpl. unfold on_stack_TS. simpl. eexists. f_equal. f_equal.
  unfold with_mUndoStack. simpl. f_equal. apply QUndoStack_enter_select.
Qed.

(** ** Closing the window *)

Lemma foldl_error {A B} (f : A → B → result A) (l : list B) (err : result A) :
  is_Ok err = false → foldl (fun acc x => a ← acc; f a x) err l = err.
Proof.
  intros He. induction l as [|x l IH]; [done|]. simpl.
  destruct err; try done.
Qed.

Lemma undo_down_to_reverse fuel (commands : list QUndoCommand) i s :
  i ≤ length commands →
  undo_down_to fuel commands i i s
  = foldl (fun acc cmd => s' ← acc; QUndoCommand_undo fuel cmd s') (Ok s)
      (reverse (take i commands)).
Proof.
  revert s. induction i as [|i IH]; intros s Hi; [done|].
  simpl. rewrite Nat.sub_0_r.
  destruct (lookup_lt_is_Some_2 commands i) as [cmd Hc]; [lia|].
  rewrite Hc. rewrite (take_S_r _ _ cmd) by done.
  rewrite reverse_app. simpl.
  destruct (QUndoCommand_undo fuel cmd s) as [s1| | | |] eqn:E1; simpl.
  - apply IH. lia.
  - by rewrite foldl_error.
  - by rewrite foldl_error.
  - by rewrite foldl_error.
  - by rewrite foldl_error.
Qed.

(** C9: when the changes are not confirmed, a declined question leaves the
    window exactly as it was, with the event ignored, nothing torn down and
    nobody notified; an accepted one undoes the applied commands, the latest
    first, sets the position to 0, and only then hands the event on. *)
Theorem closeEvent_asks_first (fuel : nat) (mParentMainWindow : bool) (s : Session) :
  let stack := mUndoStack (window s) in
  mChangesConfirmed (window s) = false →
  stack_index stack ≤ length (command_list stack) →
  closeEvent fuel mParentMainWindow QMessageBox_No s
  = Ok (s, {| event_accepted := false;
              QMainWindow_closeEvent_called := false;
              notifyTailoringFinished := None |})
  ∧ closeEvent fuel mParentMainWindow QMessageBox_Yes s
    = (s2 ← foldl (fun acc cmd => s' ← acc; QUndoCommand_undo fuel cmd s') (Ok s)
              (reverse (take (stack_index stack) (command_list stack)));
       let s1 := set_stack_index 0 s2 in
       Ok (s1, {| event_accepted := true;
                  QMainWindow_closeEvent_called := true;
                  notifyTailoringFinished :=
                    if mParentMainWindow
                    then Some (mNewProfile (window s1), mChangesConfirmed (window s1))
                    else None |}))
  ∧ ∀ s1 report, closeEvent fuel mParentMainWindow QMessageBox_Yes s = Ok (s1, report) →
                 stack_index (mUndoStack (window s1)) = 0
                 ∧ QMainWindow_closeEvent_called report = true.
Proof.
  intros stack Hc Hwf.
  assert (E : closeEvent fuel mParentMainWindow QMessageBox_Yes s
    = (s2 ← foldl (fun acc cmd => s' ← acc; QUndoCommand_undo fuel cmd s') (Ok s)
              (reverse (take (stack_index stack) (command_list stack)));
       let s1 := set_stack_index 0 s2 in
       Ok (s1, {| event_accepted := true;
                  QMainWindow_closeEvent_called := true;
                  notifyTailoringFinished :=
                    if mParentMainWindow
                    then Some (mNewProfile (window s1), mChangesConfirmed (window s1))
                    else None |}))).
  { unfold closeEvent, QUndoStack_setIndex. rewrite Hc. simpl.
    fold stack. rewrite Nat.sub_0_r.
    replace (0 - stack_index stack) with 0 by lia. simpl.
    rewrite undo_down_to_reverse by done.
    destruct (foldl _ _ _); done. }
  split; [|split].
  - unfold closeEvent. by rewrite Hc.
  - exact E.
  - intros s1 report. rewrite E.
    destruct (foldl _ _ _) as [s2| | | |]; simpl; try done.
    intros [= <- <-]. done.
Qed.

(** ** The order of the children after a recursive synchronization *)

Lemma found_in_elem (items : list xccdf_item) x : x ∈ items → found_in items (Some x) = true.
Proof.
  intros Hin. simpl. apply existsb_exists. exists x. split.
  - by apply list_elem_of_In.
  - apply xccdf_item_eqb_refl.
Qed.

Lemma xccdf_item_eqb_neq x y : x ≠ y → xccdf_item_eqb x y = false.
Proof.
  intros Hne. destruct (xccdf_item_eqb x y) eqn:E; [|done].
  by apply xccdf_item_eqb_eq in E.
Qed.

(** The first loop deletes nothing when every child is backed by one of the
    items to add, and records each child under its item. *)
Lemma delete_absent_fitting items (children : list QTreeWidgetItem) (xs : list xccdf_item) i m :
  map getXccdfItemFromTreeItem children = map Some xs →
  (∀ x, x ∈ xs → x ∈ items) →
  NoDup xs →
  ∃ m', delete_absent items children i m = (children, m')
        ∧ (∀ k x, xs !! k = Some x → map_find m' x = Some (i + k))
        ∧ (∀ x, x ∉ xs → map_find m' x = map_find m x).
Proof.
  revert xs i m. induction children as [|c rest IH]; intros [|x xs] i m Hmap Hin Hnd;
    try discriminate.
  - exists m. simpl. split; [done|]. split; [|done]. by intros k x.
  - simpl in Hmap. injection Hmap as Hc Hrest.
    pose proof (NoDup_cons_1_1 _ _ Hnd) as Hx. apply NoDup_cons_1_2 in Hnd.
    simpl. rewrite Hc.
    rewrite (found_in_elem items x) by (apply Hin; by left).
    destruct (IH xs (S i) ((x, i) :: m) Hrest) as (m' & -> & Hk & Hout); [|done|].
    { intros y Hy. apply Hin. by right. }
    exists m'. split; [done|]. split.
    + intros [|k] y; simpl.
      * intros [= <-]. rewrite (Hout x Hx). simpl. rewrite xccdf_item_eqb_refl.
        by rewrite Nat.add_0_r.
      * intros Hy. rewrite (Hk k y Hy). f_equal. lia.
    + intros y Hy. apply not_elem_of_cons in Hy as [Hne Hy].
      rewrite (Hout y Hy). simpl. by rewrite xccdf_item_eqb_neq.
Qed.

Lemma position_of_middle origin (before after : list tagged) t :
  Some origin ∉ before.*1 →
  position_of origin (before ++ (Some origin, t) :: after) = Some (length before).
Proof.
  induction before as [|[tag t0] before IH]; simpl; intros Hnot.
  - by rewrite bool_decide_eq_true_2.
  - apply not_elem_of_cons in Hnot as [Hne Hnot].
    rewrite bool_decide_eq_false_2 by done. by rewrite IH.
Qed.

Lemma insertChild_middle {A} (x : A) (before after : list A) :
  insertChild (length before) x (before ++ after) = before ++ x :: after.
Proof.
  unfold insertChild. rewrite bool_decide_eq_true_2 by (rewrite length_app; lia).
  by rewrite take_app_length, drop_app_length.
Qed.

Lemma insert_middle {A} (before after : list A) (x y : A) :
  <[ length before := y ]> (before ++ x :: after) = before ++ y :: after.
Proof. induction before as [|z l IH]; simpl; [done|]. by rewrite IH. Qed.

(** The second loop, from any point on: [done_] are the children at the
    positions already handled, [todo] the children of before the call that
    are still to be met, backed by [todo_items]. *)
Lemma add_and_recurse_fitting n at_ (kids : list child_sync) m
    (done_ todo : list tagged) (todo_items : list xccdf_item) w :
  Forall (mirrors_fitting n) kids →
  n ≤ mSynchronizeItemLock w →
  (todo_items = [] ∨ NoDup kids.*1) →
  todo_items `sublist_of` kids.*1 →
  Forall2 (fun (r : tagged) x =>
             backing_item (backing r.2) = Some x ∧ fits (backing r.2) x
             ∧ ∃ j, r.1 = Some j ∧ map_find m x = Some j) todo todo_items →
  (∀ y, y ∈ kids.*1 → y ∉ todo_items → map_find m y = None) →
  NoDup todo.*1 →
  (∀ r, r ∈ todo → r.1 ∉ done_.*1) →
  ∃ news, add_and_recurse at_ kids (length done_) m (done_ ++ todo) w = Ok (done_ ++ news, w)
          ∧ map backing news.*2 = map mirror kids.*1.
Proof.
  intros Hkids Hl. revert done_ todo todo_items.
  induction Hkids as [|[c f] kids Hf _ IH];
    intros done_ todo todo_items Hnd Hsub Htodo Hdom Htags Hfresh.
  - apply sublist_nil_r in Hsub as ->. apply Forall2_nil_inv_r in Htodo as ->.
    exists []. by simpl.
  - assert (Hcase : ((c ∉ todo_items) ∧ (todo_items `sublist_of` kids.*1))
                    ∨ ∃ rest_items, todo_items = c :: rest_items
                                    ∧ rest_items `sublist_of` kids.*1
                                    ∧ NoDup (c :: kids.*1)).
    { simpl in Hsub. apply sublist_cons_r in Hsub as [Hsub|(rest_items & -> & Hsub)].
      - left. split; [|done]. destruct Hnd as [->|Hnd]; [apply not_elem_of_nil|].
        simpl in Hnd. apply NoDup_cons_1_1 in Hnd. rename Hnd into Hc.
        intros Hin. apply Hc. by eapply elem_of_sublist.
      - right. exists rest_items. destruct Hnd as [?|Hnd]; [done|]. by simpl in Hnd. }
    destruct Hcase as [[Hc Hsub']|(rest_items & -> & Hsub' & Hnd')].
    + (* a new child *)
      simpl. rewrite (Hdom c) by (simpl; by (left || done)).
      rewrite bool_decide_eq_true_2 by (rewrite length_app; lia).
      destruct (Hf (at_ ++ [length done_]) new_QTreeWidgetItem w Hl) as (t1 & E1 & Hb1);
        [apply fits_no_children|].
      simpl in E1, Hb1. rewrite E1. simpl.
      rewrite insertChild_middle, insert_middle.
      destruct (IH (done_ ++ [(None, t1)]) todo todo_items) as (news & E' & Hn).
      * destruct Hnd as [?|Hnd]; [by left|]. right. simpl in Hnd.
        by apply NoDup_cons_1_2 in Hnd.
      * done.
      * done.
      * intros y Hy Hy'. apply Hdom; [simpl; by right|done].
      * done.
      * intros r Hr. rewrite fmap_app, elem_of_app. intros [Hin|Hin].
        -- by apply (Hfresh r).
        -- simpl in Hin. apply list_elem_of_singleton in Hin.
           apply list_elem_of_lookup in Hr as [k Hr].
           destruct (Forall2_lookup_l _ _ _ _ _ Htodo Hr) as (y & _ & _ & _ & j & Ej & _).
           congruence.
      * rewrite length_app in E'. simpl in E'. rewrite Nat.add_1_r, <- app_assoc in E'.
        simpl in E'. rewrite E'. exists ((None, t1) :: news). split.
        -- by rewrite <- app_assoc.
        -- simpl. f_equal; [exact Hb1|exact Hn].
    + (* a child that is there already *)
      apply Forall2_cons_inv_r in Htodo
        as ([tag t0] & rest & (Hitem & Hfit & j & Etag & Efind) & Hrest & ->).
      simpl in Hitem, Hfit, Etag. subst tag.
      simpl. rewrite Efind.
      rewrite position_of_middle by (apply (Hfresh (Some j, t0)); by left).
      rewrite list_lookup_middle by done.
      destruct (Hf (at_ ++ [length done_]) t0 w Hl Hfit) as (t1 & E1 & Hb1).
      simpl in E1, Hb1. rewrite E1. simpl. rewrite insert_middle.
      simpl in Htags. pose proof (NoDup_cons_1_1 _ _ Htags) as Hj.
      apply NoDup_cons_1_2 in Htags.
      pose proof (NoDup_cons_1_1 _ _ Hnd') as Hc. apply NoDup_cons_1_2 in Hnd'.
      destruct (IH (done_ ++ [(Some j, t1)]) rest rest_items) as (news & E' & Hn).
      * by right.
      * done.
      * done.
      * intros y Hy Hy'. apply Hdom; [simpl; by right|].
        apply not_elem_of_cons. split; [|done]. by intros ->.
      * done.
      * intros r Hr. rewrite fmap_app, elem_of_app. intros [Hin|Hin].
        -- apply (Hfresh r); [by right|done].
        -- simpl in Hin. apply list_elem_of_singleton in Hin.
           apply Hj. rewrite <- Hin. apply list_elem_of_fmap. by exists r.
      * rewrite length_app in E'. simpl in E'. rewrite Nat.add_1_r, <- app_assoc in E'.
        simpl in E'. rewrite E'. exists ((Some j, t1) :: news). split.
        -- by rewrite <- app_assoc.
        -- simpl. f_equal; [exact Hb1|exact Hn].
Qed.

Lemma list_lookup_map {A B} (f : A → B) (l : list A) i : map f l !! i = f <$> l !! i.
Proof. revert i. induction l as [|x l IH]; intros [|i]; simpl; done. Qed.

Lemma fits_children_inv b (children : list backing_tree) item :
  fits (Backing b children) item →
  ∃ items, (items = [] ∨ NoDup (itemsToAdd_of item))
           ∧ items `sublist_of` itemsToAdd_of item
           ∧ Forall2 (fun child x => backing_item child = Some x ∧ fits child x) children items.
Proof.
  inversion 1; subst.
  - exists []. split; [by left|]. split; [apply sublist_nil_l|constructor].
  - eexists. split; [by right|]. done.
Qed.

Lemma fits_data b b' (children : list backing_tree) item :
  fits (Backing b children) item → fits (Backing b' children) item.
Proof.
  inversion 1; subst; [apply fits_no_children|]. by eapply fits_children.
Qed.

Lemma imap_tags_NoDup (kept : list QTreeWidgetItem) :
  NoDup (imap (fun k child => (Some k, child)) kept).*1.
Proof.
  apply NoDup_alt. intros i j x. rewrite !list_lookup_fmap, !list_lookup_imap.
  destruct (kept !! i), (kept !! j); simpl; try done. by intros [= <-] [= ->].
Qed.

Lemma synchronize_children_fitting n at_ item (kids : list child_sync) t w :
  Forall (mirrors_fitting n) kids →
  kids.*1 = itemsToAdd_of item →
  n ≤ mSynchronizeItemLock w →
  fits (backing t) item →
  ∃ t', synchronize_children kids at_ (t, w) = Ok (t', w)
        ∧ getXccdfItemFromTreeItem t' = getXccdfItemFromTreeItem t
        ∧ map backing (children_of t') = map mirror kids.*1.
Proof.
  intros Hkids Hitems Hl Hfit. destruct t as [a cs]. simpl in Hfit.
  apply fits_children_inv in Hfit as (xs & Hnd & Hsub & Hcs).
  rewrite <- Hitems in Hnd, Hsub.
  unfold synchronize_children. simpl.
  destruct (delete_absent_fitting kids.*1 cs xs 0 []) as (m & -> & Hm & Hout).
  { apply Forall2_same_length_lookup in Hcs as [Hlen Hcs].
    apply list_eq. intros i. rewrite !list_lookup_map.
    rewrite length_map in Hlen.
    destruct (cs !! i) as [c|] eqn:Ec; simpl.
    - destruct (lookup_lt_is_Some_2 xs i) as [x Ex].
      { rewrite <- Hlen. by eapply lookup_lt_Some. }
      rewrite Ex. simpl.
      destruct (Hcs i (backing c) x) as [Hc _]; [by rewrite list_lookup_map, Ec|done|].
      destruct c. simpl in Hc. unfold getXccdfItemFromTreeItem. simpl. by rewrite Hc.
    - rewrite (lookup_ge_None_2 xs i); [done|].
      rewrite <- Hlen. by apply lookup_ge_None_1. }
  { intros x Hx. by eapply elem_of_sublist. }
  { destruct Hnd as [->|Hnd]; [constructor|by eapply sublist_NoDup]. }
  destruct (add_and_recurse_fitting n at_ kids m []
              (imap (fun k child => (Some k, child)) cs) xs w) as (news & E & Hn);
    try done.
  - apply Forall2_same_length_lookup in Hcs as [Hlen Hcs].
    rewrite length_map in Hlen.
    apply Forall2_same_length_lookup_2; [by rewrite length_imap|].
    intros i r x Hr Hx. rewrite list_lookup_imap in Hr.
    destruct (cs !! i) as [c|] eqn:Ec; [|done]. simpl in Hr. injection Hr as <-.
    destruct (Hcs i (backing c) x) as [Hc Hf]; [by rewrite list_lookup_map, Ec|done|].
    simpl. split; [done|]. split; [done|]. exists i. split; [done|].
    by rewrite (Hm i x Hx).
  - intros y _ Hy. by rewrite (Hout y Hy).
  - apply imap_tags_NoDup.
  - intros r _. apply not_elem_of_nil.
  - simpl in E. rewrite E. simpl. eexists. split; [reflexivity|]. split; [done|].
    exact Hn.
Qed.

Lemma synchronize_one_fitting n slot item (kids : list child_sync) at_ t w :
  quiet_above n slot →
  Forall (mirrors_fitting n) kids →
  kids.*1 = itemsToAdd_of item →
  n ≤ mSynchronizeItemLock w →
  fits (backing t) item →
  ∃ t', synchronize_one slot item kids at_ true (t, w) = Ok (t', w)
        ∧ backing t' = Backing (Some item) (map mirror kids.*1).
Proof.
  intros Hq Hkids Hitems Hl Hfit. unfold synchronize_one. simpl.
  destruct (synchronize_fields_quiet n slot item at_ t (with_mSynchronizeItemLock S w))
    as (t5 & -> & Hd & Hc & _); [done|simpl; lia|]. simpl.
  destruct (synchronize_children_fitting n at_ item kids t5 (with_mSynchronizeItemLock S w))
    as (t' & -> & Hd' & Hc'); [done|done|simpl; lia| |].
  { destruct t as [a cs], t5 as [a5 cs5]. simpl in *. rewrite Hc.
    by apply (fits_data (item_data a)). }
  simpl. rewrite with_lock_pred_S.
  eexists. split; [reflexivity|].
  destruct t' as [a' cs']. unfold getXccdfItemFromTreeItem in *. simpl in *.
  rewrite Hd', Hd. by f_equal.
Qed.

Lemma synchronizeTreeItem_fitting n slot item :
  quiet_above n slot →
  mirrors_fitting n (item, fun at_ => synchronizeTreeItem slot item at_ true).
Proof.
  intros Hq. induction item as [h vs cs IH|h vs cs IH|h|v] using xccdf_item_ind';
    intros at_ t w Hl Hfit; simpl in Hfit |- *.
  - destruct (synchronize_one_fitting n slot (XBenchmark h vs cs)
      (map (fun value => (xccdf_value_to_item value,
                          fun at' => synchronize_one slot (xccdf_value_to_item value) [] at' true))
           vs
       ++ map (fun c => (c, fun at' => synchronizeTreeItem slot c at' true)) cs)
      at_ t w) as (t' & E & Hb); [done| | |done|done|].
    + apply Forall_app. split.
      * apply Forall_map, Forall_forall. intros v _ at' t0 w' Hl' Hfit'. simpl.
        by apply (synchronize_one_fitting n slot (XValue v) []).
      * apply Forall_map. eapply Forall_impl; [|exact IH]. by intros c Hc.
    + unfold itemsToAdd_of. simpl. rewrite fmap_app. f_equal.
      * rewrite <- list_fmap_compose. apply list_eq. intros i.
        by rewrite list_lookup_fmap, list_lookup_map.
      * rewrite <- list_fmap_compose. apply list_eq. intros i.
        rewrite list_lookup_fmap. simpl. by destruct (cs !! i).
    + exists t'. split; [exact E|]. rewrite Hb. f_equal.
      rewrite fmap_app, map_app. f_equal.
      * rewrite <- list_fmap_compose. rewrite !map_map. by apply map_ext.
      * rewrite <- list_fmap_compose. rewrite !map_map. by apply map_ext.
  - destruct (synchronize_one_fitting n slot (XGroup h vs cs)
      (map (fun value => (xccdf_value_to_item value,
                          fun at' => synchronize_one slot (xccdf_value_to_item value) [] at' true))
           vs
       ++ map (fun c => (c, fun at' => synchronizeTreeItem slot c at' true)) cs)
      at_ t w) as (t' & E & Hb); [done| | |done|done|].
    + apply Forall_app. split.
      * apply Forall_map, Forall_forall. intros v _ at' t0 w' Hl' Hfit'. simpl.
        by apply (synchronize_one_fitting n slot (XValue v) []).
      * apply Forall_map. eapply Forall_impl; [|exact IH]. by intros c Hc.
    + unfold itemsToAdd_of. simpl. rewrite fmap_app. f_equal.
      * rewrite <- list_fmap_compose. apply list_eq. intros i.
        by rewrite list_lookup_fmap, list_lookup_map.
      * rewrite <- list_fmap_compose. apply list_eq. intros i.
        rewrite list_lookup_fmap. simpl. by destruct (cs !! i).
    + exists t'. split; [exact E|]. rewrite Hb. f_equal.
      rewrite fmap_app, map_app. f_equal.
      * rewrite <- list_fmap_compose. rewrite !map_map. by apply map_ext.
      * rewrite <- list_fmap_compose. rewrite !map_map. by apply map_ext.
  - by apply (synchronize_one_fitting n slot (XRule h) []).
  - by apply (synchronize_one_fitting n slot (XValue v) []).
Qed.

Lemma backing_children_items t :
  map getXccdfItemFromTreeItem (children_of t)
  = map backing_item (match backing t with Backing _ children => children end).
Proof.
  destruct t as [a cs]. simpl. rewrite map_map. apply map_ext. by intros [a' cs'].
Qed.

Lemma mirror_children_items item :
  map backing_item (match mirror item with Backing _ children => children end)
  = map Some (itemsToAdd_of item).
Proof.
  destruct item as [h vs cs|h vs cs|h|v]; simpl; try done.
  - unfold itemsToAdd_of. simpl. rewrite !map_app, !map_map. f_equal.
    apply map_ext. by intros [].
  - unfold itemsToAdd_of. simpl. rewrite !map_app, !map_map. f_equal.
    apply map_ext. by intros [].
Qed.

Lemma synchronizeTreeItem_mirror fuel item at_ t w :
  fits (backing t) item →
  ∃ t', synchronizeTreeItem (deliver_itemChanged (S fuel)) item at_ true (t, w) = Ok (t', w)
        ∧ backing t' = mirror item.
Proof.
  intros Hfit.
  by apply (synchronizeTreeItem_fitting (mSynchronizeItemLock w)
              (deliver_itemChanged (S fuel)) item (deliver_itemChanged_quiet fuel _) at_ t w).
Qed.

(** C3 (as amended): a recursive synchronization of a tree item whose
    children, at every level, are backed by distinct items among those the
    document has there, in the order of the document (values first, then
    rules and groups), returns a tree that mirrors the document at every
    level; in particular the children of the item are backed by the item's
    values, in document order, followed by its rules and groups, in
    document order.  A tree item without children is such an item, and that
    is how the window calls the synchronization. *)
Theorem synchronize_fitting_item_orders_children (fuel : nat) (item : xccdf_item)
    (at_ : list nat) (t : QTreeWidgetItem) (w : TailoringWindow) :
  fits (backing t) item →
  ∃ t', synchronizeTreeItem (deliver_itemChanged (S fuel)) item at_ true (t, w) = Ok (t', w)
        ∧ backing t' = mirror item
        ∧ map getXccdfItemFromTreeItem (children_of t')
          = map Some (map xccdf_value_to_item (xccdf_item_get_values item)
                      ++ xccdf_item_get_content item).
Proof.
  intros Hfit.
  destruct (synchronizeTreeItem_mirror fuel item at_ t w Hfit) as (t' & E & Hb).
  exists t'. split; [exact E|]. split; [exact Hb|].
  rewrite backing_children_items, Hb, mirror_children_items.
  destruct item; done.
Qed.

(** * More of the window *)

(** ** What the dock widgets show *)

Lemma profile_refresh_nothing_to_do slot w :
  profile_ui_id (mProfilePropertiesDockWidget w) = getProfileID w →
  profile_ui_title (mProfilePropertiesDockWidget w) = getProfileTitle w →
  profile_ui_description (mProfilePropertiesDockWidget w) = getProfileDescription w →
  ProfilePropertiesDockWidget_refresh slot w = Ok w.
Proof.
  intros Hid Ht Hd. unfold ProfilePropertiesDockWidget_refresh, profile_panel.
  rewrite (bool_decide_eq_true_2 _ Hid). simpl.
  rewrite (bool_decide_eq_true_2 _ Ht). simpl.
  by rewrite (bool_decide_eq_true_2 _ Hd).
Qed.

Lemma profile_refresh_fields fuel w :
  ∃ w', ProfilePropertiesDockWidget_refresh (deliver_panel (S fuel)) w = Ok w'
        ∧ profile_ui_id (mProfilePropertiesDockWidget w') = getProfileID w
        ∧ profile_ui_title (mProfilePropertiesDockWidget w') = getProfileTitle w
        ∧ profile_ui_description (mProfilePropertiesDockWidget w') = getProfileDescription w
        ∧ profile_mRefreshInProgress (mProfilePropertiesDockWidget w')
          = profile_mRefreshInProgress (mProfilePropertiesDockWidget w)
            && bool_decide (profile_ui_title (mProfilePropertiesDockWidget w)
                            = getProfileTitle w)
            && bool_decide (profile_ui_description (mProfilePropertiesDockWidget w)
                            = getProfileDescription w).
Proof.
  unfold ProfilePropertiesDockWidget_refresh, ui_title_setText, ui_description_setPlainText,
    profile_panel.
  destruct w as [lock ip [r uid ut ud] policy stack np cc].
  unfold getProfileID, getProfileTitle, getProfileDescription, mProfile. simpl.
  destruct (bool_decide (uid = _)) eqn:Eid; simpl;
    destruct (bool_decide (ut = _)) eqn:Et; simpl;
    rewrite ?deliver_panel_refreshing by done; simpl;
    destruct (bool_decide (ud = _)) eqn:Ed; simpl;
    rewrite ?deliver_panel_refreshing by done; simpl;
    try apply bool_decide_eq_true_1 in Eid;
    try apply bool_decide_eq_true_1 in Et;
    try apply bool_decide_eq_true_1 in Ed;
    eexists; (split; [reflexivity|]); simpl;
    rewrite ?andb_true_r, ?andb_false_r; done.
Qed.

(** X1: [ProfilePropertiesDockWidget::refresh] (lines 61-81): whatever the three
    fields held, after the refresh they hold the profile's id, title and
    description; nothing but the dock widget has changed, the guard is
    released unless there was nothing to write in the title and description
    fields, and a second refresh finds nothing to do. *)
Theorem profile_refresh_shows_profile (fuel : nat) (w : TailoringWindow) :
  ∃ w', ProfilePropertiesDockWidget_refresh (deliver_panel (S fuel)) w = Ok w'
        ∧ profile_ui_id (mProfilePropertiesDockWidget w') = getProfileID w
        ∧ profile_ui_title (mProfilePropertiesDockWidget w') = getProfileTitle w
        ∧ profile_ui_description (mProfilePropertiesDockWidget w') = getProfileDescription w
        ∧ profile_mRefreshInProgress (mProfilePropertiesDockWidget w')
          = profile_mRefreshInProgress (mProfilePropertiesDockWidget w)
            && bool_decide (profile_ui_title (mProfilePropertiesDockWidget w)
                            = getProfileTitle w)
            && bool_decide (profile_ui_description (mProfilePropertiesDockWidget w)
                            = getProfileDescription w)
        ∧ same_but_panels w w'
        ∧ mItemPropertiesDockWidget w' = mItemPropertiesDockWidget w
        ∧ ProfilePropertiesDockWidget_refresh (deliver_panel (S fuel)) w' = Ok w'.
Proof.
  destruct (profile_refresh_fields fuel w) as (w' & E & Hid & Ht & Hd & Hr).
  destruct (ProfilePropertiesDockWidget_refresh_ok fuel w) as (w0 & E0 & Hs & Hi).
  rewrite E in E0. injection E0 as <-.
  exists w'. repeat (split; [done|]).
  destruct Hs as (_ & Hp & _).
  apply profile_refresh_nothing_to_do.
  - rewrite Hid. unfold getProfileID, mProfile. by rewrite Hp.
  - rewrite Ht. unfold getProfileTitle, mProfile. by rewrite Hp.
  - rewrite Hd. unfold getProfileDescription, mProfile. by rewrite Hp.
Qed.

(** Items added to the combo box while its dock widget is refreshing: they
    are appended, and the first one of an empty box becomes the text. *)
Lemma addItems_result fuel instances w :
  item_mRefreshInProgress (mItemPropertiesDockWidget w) = true →
  foldl (fun acc instance =>
           wi ← acc; ui_valueComboBox_addItem (deliver_panel (S fuel)) instance wi)
    (Ok w) instances
  = Ok (with_mItemPropertiesDockWidget
          (fun d => with_valueComboBox
                      (ui_valueComboBox_items d ++ map Some instances)
                      match ui_valueComboBox_items d, instances with
                      | [], first :: _ => first
                      | _, _ => ui_valueComboBox_editText d
                      end d) w).
Proof.
  revert w. induction instances as [|instance rest IH]; intros w Hr; simpl.
  - destruct w as [lock [x r t i ty de sh its ed va tl] pp policy stack np cc]. simpl.
    unfold with_mItemPropertiesDockWidget, with_valueComboBox. simpl.
    rewrite app_nil_r. by destruct its.
  - unfold ui_valueComboBox_addItem at 2. rewrite deliver_panel_refreshing by done.
    rewrite IH by done.
    destruct w as [lock [x r t i ty de sh its ed va tl] pp policy stack np cc]. simpl.
    unfold with_mItemPropertiesDockWidget, with_valueComboBox, item_panel. simpl.
    rewrite <- app_assoc. simpl. by destruct its, rest.
Qed.

(** X2: [XCCDFItemPropertiesDockWidget::refresh] (lines 128-213) with no item,
    or with an item that is not a Value: the four read-only fields show the
    item (or say that none is selected), the value editor is hidden and
    empty and has no validator, the label of the value type keeps its text,
    and the guard is released.  Nothing but the dock widget has changed. *)
Theorem item_refresh_shows_item (fuel : nat) (w : TailoringWindow) :
  let d := mItemPropertiesDockWidget w in
  item_mRefreshInProgress d = false →
  mXccdfItem d ≫= xccdf_item_to_value = None →
  ∃ w', XCCDFItemPropertiesDockWidget_refresh (deliver_panel (S fuel)) w = Ok w'
        ∧ mItemPropertiesDockWidget w'
          = {| mXccdfItem := mXccdfItem d;
               item_mRefreshInProgress := false;
               ui_titleLineEdit :=
                 match mXccdfItem d with
                 | Some item => oscapTextIteratorGetPreferred (xccdf_item_get_title item)
                 | None => "<no item selected>"
                 end;
               ui_idLineEdit := from_option xccdf_item_get_id String.EmptyString (mXccdfItem d);
               ui_typeLineEdit :=
                 match xccdf_item_get_type <$> mXccdfItem d with
                 | Some XCCDF_BENCHMARK => "xccdf:Benchmark"
                 | Some XCCDF_GROUP => "xccdf:Group"
                 | Some XCCDF_RULE => "xccdf:Rule"
                 | _ => String.EmptyString
                 end;
               ui_descriptionBrowser :=
                 match mXccdfItem d with
                 | Some item =>
                     oscapTextIteratorGetPreferred (xccdf_item_get_description item)
                 | None => String.EmptyString
                 end;
               ui_valueGroupBox_shown := false;
               ui_valueComboBox_items := [];
               ui_valueComboBox_editText := String.EmptyString;
               ui_valueComboBox_validator := None;
               ui_valueTypeLabel := ui_valueTypeLabel d |}
        ∧ same_but_panels w w'
        ∧ mProfilePropertiesDockWidget w' = mProfilePropertiesDockWidget w.
Proof.
  destruct w as [lock [x r t i ty de sh its ed va tl] pp policy stack np cc].
  simpl. intros -> Hv.
  unfold XCCDFItemPropertiesDockWidget_refresh, item_panel. simpl.
  unfold ui_valueComboBox_clear, ui_valueComboBox_setEditText. simpl.
  rewrite ?deliver_panel_refreshing by done. simpl.
  destruct x as [item|]; simpl in Hv |- *.
  - rewrite Hv. simpl. eexists. split; [reflexivity|]. simpl.
    split; [|by repeat split].
    by destruct item as [h vs cs|h vs cs|h|v].
  - eexists. split; [reflexivity|]. simpl. by repeat split.
Qed.

(** X3: [XCCDFItemPropertiesDockWidget::refresh] (lines 128-213) with a Value
    that has instances: the read-only fields show the value; the editor is shown and lists the instances in order,
    with a separator after the first; its text is the value the policy gives
    the Value now, whatever the instances are; the validator and the label
    go by the type of the Value. *)
Theorem item_refresh_shows_value (fuel : nat) (w : TailoringWindow) (value : xccdf_value)
    (first : string) (rest : list string) :
  let d := mItemPropertiesDockWidget w in
  item_mRefreshInProgress d = false →
  mXccdfItem d = Some (xccdf_value_to_item value) →
  xccdf_value_get_instances value = first :: rest →
  ∃ w', XCCDFItemPropertiesDockWidget_refresh (deliver_panel (S fuel)) w = Ok w'
        ∧ mItemPropertiesDockWidget w'
          = {| mXccdfItem := mXccdfItem d;
               item_mRefreshInProgress := false;
               ui_titleLineEdit :=
                 oscapTextIteratorGetPreferred
                   (xccdf_item_get_title (xccdf_value_to_item value));
               ui_idLineEdit := xccdf_value_get_id value;
               ui_typeLineEdit := "xccdf:Value";
               ui_descriptionBrowser :=
                 oscapTextIteratorGetPreferred
                   (xccdf_item_get_description (xccdf_value_to_item value));
               ui_valueGroupBox_shown := true;
               ui_valueComboBox_items := Some first :: None :: map Some rest;
               ui_valueComboBox_editText := getCurrentValueValue value w;
               ui_valueComboBox_validator :=
                 match xccdf_value_get_type value with
                 | XCCDF_TYPE_NUMBER => Some QIntValidator
                 | XCCDF_TYPE_STRING => None
                 | XCCDF_TYPE_BOOLEAN => Some (QRegExpValidator boolean_regex)
                 end;
               ui_valueTypeLabel :=
                 match xccdf_value_get_type value with
                 | XCCDF_TYPE_NUMBER => "(number)"
                 | XCCDF_TYPE_STRING => "(string)"
                 | XCCDF_TYPE_BOOLEAN => "(bool)"
                 end |}
        ∧ same_but_panels w w'
        ∧ mProfilePropertiesDockWidget w' = mProfilePropertiesDockWidget w.
Proof.
  destruct w as [lock [x r t i ty de sh its ed va tl] pp policy stack np cc].
  simpl. intros -> -> Hi.
  unfold XCCDFItemPropertiesDockWidget_refresh, item_panel. simpl.
  unfold ui_valueComboBox_clear, ui_valueComboBox_setEditText. simpl.
  rewrite ?deliver_panel_refreshing by done. simpl.
  unfold refresh_value. rewrite Hi.
  match goal with |- context [foldl _ (Ok ?w0) _] => set (w1 := w0) end.
  rewrite (addItems_result fuel _ w1)
    by (subst w1; by destruct (xccdf_value_get_type value)).
  simpl. unfold ui_valueComboBox_setEditText.
  rewrite deliver_panel_refreshing
    by (subst w1; by destruct (xccdf_value_get_type value)).
  simpl. eexists. split; [reflexivity|]. subst w1.
  split; [|by destruct (xccdf_value_get_type value)].
  unfold getCurrentValueValue.
  by destruct (xccdf_value_get_type value).
Qed.

(** ** How edits of the profile's texts enter the history *)

Lemma deliver_panel_S fuel signal w :
  deliver_panel (S fuel) signal w = panel_slot (deliver_panel fuel) signal w.
Proof. reflexivity. Qed.

Lemma setProfileTitle_keeps title w w1 :
  setProfileTitle title w = Ok w1 →
  getProfileTitle w1 = title
  ∧ mUndoStack w1 = mUndoStack w
  ∧ mProfilePropertiesDockWidget w1 = mProfilePropertiesDockWidget w
  ∧ mItemPropertiesDockWidget w1 = mItemPropertiesDockWidget w
  ∧ getProfileDescription w1 = getProfileDescription w.
Proof.
  unfold setProfileTitle, assert.
  destruct (choose_text _ 0 None); [|done].
  case_bool_decide as Et; [|done]. intros [= <-]. by repeat split.
Qed.

Lemma setProfileDescription_keeps description w w1 :
  setProfileDescription description w = Ok w1 →
  getProfileDescription w1 = description
  ∧ mUndoStack w1 = mUndoStack w
  ∧ mProfilePropertiesDockWidget w1 = mProfilePropertiesDockWidget w
  ∧ mItemPropertiesDockWidget w1 = mItemPropertiesDockWidget w
  ∧ getProfileTitle w1 = getProfileTitle w.
Proof.
  unfold setProfileDescription, assert.
  destruct (choose_text _ 0 None); [|done].
  case_bool_decide as Et; [|done]. intros [= <-]. by repeat split.
Qed.

(** What entering a command does to a stack, by whether the command merges
    into the current one. *)
Lemma QUndoStack_enter_cases cmd stack :
  QUndoStack_enter cmd stack
  = match current_command stack ≫= (fun cur => QUndoCommand_mergeWith cur cmd) with
    | Some merged =>
        {| command_list := <[ pred (stack_index stack) := merged ]>
                             (take (stack_index stack) (command_list stack));
           stack_index := stack_index stack |}
    | None =>
        {| command_list := take (stack_index stack) (command_list stack) ++ [cmd];
           stack_index := S (stack_index stack) |}
    end.
Proof.
  unfold QUndoStack_enter, current_command.
  destruct (stack_index stack) as [|below]; [done|].
  destruct (command_list stack !! below) as [cur|]; [|done].
  change (Some cur ≫= (fun cur => QUndoCommand_mergeWith cur cmd))
    with (QUndoCommand_mergeWith cur cmd).
  destruct (QUndoCommand_mergeWith cur cmd) as [merged|] eqn:Em.
  - assert (Hg : bool_decide (QUndoCommand_id cur ≠ (-1)%Z)
                 && bool_decide (QUndoCommand_id cur = QUndoCommand_id cmd) = true).
    { destruct cur, cmd; cbn in Em; try discriminate; reflexivity. }
    by rewrite Hg.
  - by destruct (bool_decide _ && bool_decide _).
Qed.

(** X4: Typing in the title field (lines 83-89, 229-264, 769-772): the title of
    the profile becomes the text typed.  If the current command of the
    history is a title change, the edit goes into it and the title it goes
    back to stays; otherwise a new entry records the title as it was before
    the edit.  Typing in the description field (lines 91-97, 266-305,
    805-808) does the same with the description. *)
Theorem profile_text_edits_merge (fuel : nat) (s s1 : Session) (text : string) :
  let stack := mUndoStack (window s) in
  let entered older cmd :=
    match older with
    | Some merged =>
        {| command_list := <[ pred (stack_index stack) := merged ]>
                             (take (stack_index stack) (command_list stack));
           stack_index := stack_index stack |}
    | None =>
        {| command_list := take (stack_index stack) (command_list stack) ++ [cmd];
           stack_index := S (stack_index stack) |}
    end in
  profile_mRefreshInProgress (mProfilePropertiesDockWidget (window s)) = false →
  (perform (S fuel) (type_title text) s = Ok s1 →
   getProfileTitle (window s1) = text
   ∧ profile_ui_title (mProfilePropertiesDockWidget (window s1)) = text
   ∧ mUndoStack (window s1)
     = entered match current_command stack with
               | Some (ProfileTitleChangeUndoCommand mOldTitle _) =>
                   Some (ProfileTitleChangeUndoCommand mOldTitle text)
               | _ => None
               end
         (ProfileTitleChangeUndoCommand (getProfileTitle (window s)) text))
  ∧ (perform (S fuel) (type_description text) s = Ok s1 →
     getProfileDescription (window s1) = text
     ∧ profile_ui_description (mProfilePropertiesDockWidget (window s1)) = text
     ∧ mUndoStack (window s1)
       = entered match current_command stack with
                 | Some (ProfileDescriptionChangeUndoCommand mOldDesc _) =>
                     Some (ProfileDescriptionChangeUndoCommand mOldDesc text)
                 | _ => None
                 end
           (ProfileDescriptionChangeUndoCommand (getProfileDescription (window s)) text)).
Proof.
  intros stack entered Hr. subst entered stack. destruct s as [tree w]. simpl in Hr |- *.
  split.
  - unfold perform, on_window, ui_title_setText. rewrite deliver_panel_S.
    unfold panel_slot, profileTitleChanged, profile_panel. simpl. rewrite Hr.
    unfold setProfileTitleWithUndoCommand, QUndoStack_push,
      ProfileTitleChangeUndoCommand_redo, refreshProfileDockWidget.
    destruct (setProfileTitle text _) as [w1| | | |] eqn:E1; try done. simpl.
    apply setProfileTitle_keeps in E1 as (Ht & Hs & Hp & _).
    destruct (profile_refresh_fields fuel w1) as (w2 & E2 & _ & Hui & _).
    destruct (ProfilePropertiesDockWidget_refresh_ok fuel w1)
      as (w0 & E0 & (_ & Hpol & Hst & _) & _).
    rewrite E2 in E0. injection E0 as <-.
    rewrite E2. simpl. intros [= <-]. simpl.
    split; [unfold getProfileTitle, mProfile in *; simpl; by rewrite Hpol|].
    split; [by rewrite Hui|].
    rewrite Hst, Hs. simpl. rewrite QUndoStack_enter_cases.
    unfold getProfileTitle, mProfile. simpl.
    by destruct (current_command (mUndoStack w)) as [[| | |]|].
  - unfold perform, on_window, ui_description_setPlainText. rewrite deliver_panel_S.
    unfold panel_slot, profileDescriptionChanged, profile_panel. simpl. rewrite Hr.
    unfold setProfileDescriptionWithUndoCommand, QUndoStack_push,
      ProfileDescriptionChangeUndoCommand_redo, refreshProfileDockWidget.
    destruct (setProfileDescription text _) as [w1| | | |] eqn:E1; try done. simpl.
    apply setProfileDescription_keeps in E1 as (Ht & Hs & Hp & _).
    destruct (profile_refresh_fields fuel w1) as (w2 & E2 & _ & _ & Hui & _).
    destruct (ProfilePropertiesDockWidget_refresh_ok fuel w1)
      as (w0 & E0 & (_ & Hpol & Hst & _) & _).
    rewrite E2 in E0. injection E0 as <-.
    rewrite E2. simpl. intros [= <-]. simpl.
    split; [unfold getProfileDescription, mProfile in *; simpl; by rewrite Hpol|].
    split; [by rewrite Hui|].
    rewrite Hst, Hs. simpl. rewrite QUndoStack_enter_cases.
    unfold getProfileDescription, mProfile. simpl.
    by destruct (current_command (mUndoStack w)) as [[| | |]|].
Qed.

(** ** The disabled flags of the tree *)

Lemma tree_at_setDisabled b at_ t :
  tree_at at_ (setDisabled b t)
  = match at_ with [] => Some (setDisabled b t) | _ => tree_at at_ t end.
Proof. destruct at_, t; done. Qed.

Lemma fields_of_refreshChildren t all :
  fields_of (_refreshXCCDFItemChildrenDisabledState t all) = fields_of t.
Proof. by destruct t. Qed.

Lemma fields_of_setDisabled_twice b b' t :
  fields_of (setDisabled b (setDisabled b' t)) = fields_of (setDisabled b t).
Proof. by destruct t as [[] ?]. Qed.

Lemma refresh_fields_at treeItem allAncestorsSelected at_ :
  fields_of <$> tree_at at_
                  (_refreshXCCDFItemChildrenDisabledState treeItem allAncestorsSelected)
  = (fun item =>
       fields_of
         match at_ with
         | [] => item
         | _ => setDisabled
                  (negb (allAncestorsSelected && ancestors_selected at_ treeItem)) item
         end) <$> tree_at at_ treeItem.
Proof.
  revert treeItem allAncestorsSelected.
  induction at_ as [|i rest IH]; intros [fields children] all.
  - done.
  - simpl. rewrite list_lookup_map.
    destruct (children !! i) as [child|] eqn:Ec; [|done]. simpl.
    rewrite tree_at_setDisabled.
    fold (counts_as_selected (TreeItem fields children)).
    set (all' := all && counts_as_selected (TreeItem fields children)).
    destruct rest as [|j rest'].
    + simpl. f_equal. destruct child as [[] ?]. simpl.
      by rewrite andb_true_r.
    + rewrite IH. destruct (tree_at (j :: rest') child) as [item|]; [|done]. simpl.
      subst all'. unfold counts_as_selected, checkState. simpl.
      by rewrite <- !andb_assoc.
Qed.

Lemma fields_of_syncChildren t enabled :
  fields_of (_syncXCCDFItemChildrenDisabledState t enabled) = fields_of t.
Proof. by destruct t. Qed.

Lemma sync_fields_at treeItem enabled at_ :
  fields_of <$> tree_at at_ (_syncXCCDFItemChildrenDisabledState treeItem enabled)
  = (fun item =>
       fields_of
         match at_ with
         | [] => item
         | _ => if path_disabled enabled at_ treeItem
                then setDisabled (negb enabled) item else item
         end) <$> tree_at at_ treeItem.
Proof.
  revert treeItem.
  induction at_ as [|i rest IH]; intros [fields children].
  - done.
  - simpl. rewrite list_lookup_map.
    destruct (children !! i) as [child|] eqn:Ec; [|done]. simpl.
    assert (Hcase : (if negb enabled && negb (isDisabled child)
                     then setDisabled true (_syncXCCDFItemChildrenDisabledState child false)
                     else if enabled && negb (negb (isDisabled child))
                          then setDisabled false
                                 (_syncXCCDFItemChildrenDisabledState child true)
                          else child)
                    = if eqb (isDisabled child) enabled
                      then setDisabled (negb enabled)
                             (_syncXCCDFItemChildrenDisabledState child enabled)
                      else child).
    { by destruct enabled, (isDisabled child). }
    rewrite Hcase. clear Hcase.
    destruct (eqb (isDisabled child) enabled) eqn:Ed; simpl.
    + rewrite tree_at_setDisabled. destruct rest as [|j rest'].
      * simpl. f_equal. by destruct child as [[] ?].
      * rewrite IH. by destruct (tree_at (j :: rest') child).
    + destruct (tree_at rest child); [|done]. by destruct rest.
Qed.

Lemma isDisabled_setDisabled b t : isDisabled (setDisabled b t) = b.
Proof. destruct t as [[] ?]. unfold isDisabled. simpl. by destruct b. Qed.

Lemma isDisabled_fields t t' : fields_of t = fields_of t' → isDisabled t = isDisabled t'.
Proof. unfold isDisabled. by intros ->. Qed.

Lemma setDisabled_fields b t t' :
  fields_of t = fields_of t' → fields_of (setDisabled b t) = fields_of (setDisabled b t').
Proof. destruct t, t'. simpl. by intros ->. Qed.



Lemma all_below_setDisabled b b' t : all_below b (setDisabled b' t) = all_below b t.
Proof. by destruct t. Qed.

Lemma all_below_refresh_false t :
  all_below true (_refreshXCCDFItemChildrenDisabledState t false) = true.
Proof.
  induction t as [fields children IH] using QTreeWidgetItem_ind'. simpl.
  apply forallb_forall. intros c' Hin. apply in_map_iff in Hin as (c & <- & Hin).
  rewrite isDisabled_setDisabled, all_below_setDisabled. simpl.
  rewrite Forall_forall in IH. by apply IH.
Qed.

Lemma disabled_downwards_setDisabled b t :
  disabled_downwards (setDisabled b t) = disabled_downwards t.
Proof. by destruct t. Qed.

Lemma disabled_downwards_refresh t all :
  disabled_downwards (_refreshXCCDFItemChildrenDisabledState t all) = true.
Proof.
  revert all. induction t as [fields children IH] using QTreeWidgetItem_ind'. intros all. simpl.
  apply forallb_forall. intros c' Hin. apply in_map_iff in Hin as (c & <- & Hin).
  rewrite isDisabled_setDisabled, all_below_setDisabled, disabled_downwards_setDisabled.
  rewrite Forall_forall in IH. rewrite IH by done.
  rewrite andb_true_r.
  destruct (all && _); simpl; [done|]. apply all_below_refresh_false.
Qed.

Lemma sync_false_disables_all t :
  disabled_downwards t = true →
  all_below true (_syncXCCDFItemChildrenDisabledState t false) = true.
Proof.
  induction t as [fields children IH] using QTreeWidgetItem_ind'. simpl. intros Hc.
  rewrite forallb_forall in Hc.
  apply forallb_forall. intros c' Hin. apply in_map_iff in Hin as (c & <- & Hin).
  specialize (Hc c Hin). apply andb_true_iff in Hc as [Hb Hc].
  rewrite Forall_forall in IH.
  destruct (isDisabled c) eqn:Ed; simpl.
  - by rewrite Ed, Hb.
  - rewrite isDisabled_setDisabled, all_below_setDisabled. simpl.
    by apply IH.
Qed.

Lemma sync_true_enables_all t :
  all_below true t = true →
  all_below false (_syncXCCDFItemChildrenDisabledState t true) = true.
Proof.
  induction t as [fields children IH] using QTreeWidgetItem_ind'. simpl. intros Hc.
  rewrite forallb_forall in Hc.
  apply forallb_forall. intros c' Hin. apply in_map_iff in Hin as (c & <- & Hin).
  specialize (Hc c Hin). apply andb_true_iff in Hc as [Hb Hc].
  rewrite Forall_forall in IH.
  destruct (isDisabled c) eqn:Ed; simpl; [|done].
  rewrite isDisabled_setDisabled, all_below_setDisabled. simpl.
  by apply IH.
Qed.

Lemma all_below_path b t at_ : all_below b t = true → path_disabled b at_ t = true.
Proof.
  revert t. induction at_ as [|i rest IH]; intros [fields children]; [done|].
  simpl. intros Hall. rewrite forallb_forall in Hall.
  destruct (children !! i) as [c|] eqn:Ec; [|done]. simpl.
  apply list_elem_of_lookup_2, list_elem_of_In, Hall in Ec.
  apply andb_true_iff in Ec as [-> Hc]. simpl. by apply IH.
Qed.

Lemma path_disabled_at b at_ i t c :
  path_disabled b (i :: at_) t = true → tree_at (i :: at_) t = Some c → isDisabled c = b.
Proof.
  revert i t. induction at_ as [|j rest IH]; intros i [fields children]; simpl.
  - destruct (children !! i) as [c0|]; [|done]. simpl.
    rewrite andb_true_r. intros Hb [= <-]. by apply eqb_prop.
  - destruct (children !! i) as [c0|]; [|done]. simpl.
    intros [_ Hp]%andb_true_iff Hc. by apply (IH j c0).
Qed.

Lemma tree_at_sync_is_Some at_ t enabled :
  is_Some (tree_at at_ (_syncXCCDFItemChildrenDisabledState t enabled))
  ↔ is_Some (tree_at at_ t).
Proof.
  revert t enabled. induction at_ as [|i rest IH]; intros [fields children] enabled.
  - by split.
  - simpl. rewrite list_lookup_map.
    destruct (children !! i) as [c|]; [|done]. simpl.
    destruct (negb enabled && negb (isDisabled c));
      [|destruct (enabled && negb (negb (isDisabled c)))];
      rewrite ?tree_at_setDisabled; destruct rest; try done; apply IH.
Qed.

Lemma tree_at_refresh_is_Some at_ t all :
  is_Some (tree_at at_ (_refreshXCCDFItemChildrenDisabledState t all))
  ↔ is_Some (tree_at at_ t).
Proof.
  revert t all. induction at_ as [|i rest IH]; intros [fields children] all.
  - by split.
  - simpl. rewrite list_lookup_map.
    destruct (children !! i) as [c|]; [|done]. simpl.
    rewrite tree_at_setDisabled. destruct rest; [done|]. apply IH.
Qed.


(** ** What the tree shows *)

Lemma children_of_syncChildren_fields f t enabled :
  children_of (_syncXCCDFItemChildrenDisabledState (with_fields f t) enabled)
  = children_of (_syncXCCDFItemChildrenDisabledState t enabled).
Proof. by destruct t. Qed.

(** The field part of [synchronizeTreeItem], with a slot that keeps quiet. *)
Lemma synchronize_fields_shows n slot item at_ t w :
  quiet_above n slot → n < mSynchronizeItemLock w →
  ∃ t5, synchronize_fields slot item at_ (t, w) = Ok (t5, w)
        ∧ shows_item (mPolicy w) item (fields_of t5)
        ∧ ItemIsSelectable (item_flags (fields_of t5))
          = ItemIsSelectable (item_flags (fields_of t))
        ∧ ItemIsEnabled (item_flags (fields_of t5))
          = ItemIsEnabled (item_flags (fields_of t))
        ∧ children_of t5
          = children_of
              match xccdf_item_get_type item with
              | XCCDF_RULE | XCCDF_GROUP =>
                  _syncXCCDFItemChildrenDisabledState t
                    (getXccdfItemInternalSelected (mPolicy w) item)
              | _ => t
              end.
Proof.
  intros Hq Hl. unfold synchronize_fields.
  rewrite (treeItem_set_quiet n) by done. simpl.
  rewrite (treeItem_set_quiet n) by done. simpl.
  rewrite (treeItem_set_quiet n) by done. simpl.
  rewrite (treeItem_set_quiet n) by done. simpl.
  destruct t as [a cs].
  destruct item as [h vs cs'|h vs cs'|h|v]; simpl.
  - eexists. split; [reflexivity|]. by repeat split.
  - rewrite (treeItem_set_quiet n) by done. simpl.
    rewrite (treeItem_set_quiet n) by done. simpl.
    eexists. split; [reflexivity|]. unfold shows_item. simpl.
    by destruct (getXccdfItemInternalSelected _ _).
  - rewrite (treeItem_set_quiet n) by done. simpl.
    rewrite (treeItem_set_quiet n) by done. simpl.
    eexists. split; [reflexivity|]. unfold shows_item. simpl.
    by destruct (getXccdfItemInternalSelected _ _).
  - rewrite (treeItem_set_quiet n) by done. simpl.
    eexists. split; [reflexivity|]. by repeat split.
Qed.

(** X8: [synchronizeTreeItem] without recursion (lines 561-611, 704), as the
    select command calls it: it returns with the window as it was, counter
    included; the tree item shows the document item, its check box telling
    the policy's evaluation; no child is added or removed, and what happens
    to the children is what [_syncXCCDFItemChildrenDisabledState] does for a
    Rule or Group, and nothing otherwise. *)
Theorem synchronize_item_alone (fuel : nat) (item : xccdf_item) (at_ : list nat)
    (t : QTreeWidgetItem) (w : TailoringWindow) :
  ∃ t', synchronizeTreeItem (deliver_itemChanged (S fuel)) item at_ false (t, w) = Ok (t', w)
        ∧ shows_item (mPolicy w) item (fields_of t')
        ∧ ItemIsSelectable (item_flags (fields_of t'))
          = ItemIsSelectable (item_flags (fields_of t))
        ∧ isDisabled t' = isDisabled t
        ∧ children_of t'
          = children_of
              match xccdf_item_get_type item with
              | XCCDF_RULE | XCCDF_GROUP =>
                  _syncXCCDFItemChildrenDisabledState t
                    (getXccdfItemInternalSelected (mPolicy w) item)
              | _ => t
              end.
Proof.
  assert (He : synchronizeTreeItem (deliver_itemChanged (S fuel)) item at_ false (t, w)
               = (ts5 ← synchronize_fields (deliver_itemChanged (S fuel)) item at_
                          (t, with_mSynchronizeItemLock S w);
                  Ok (ts5.1, with_mSynchronizeItemLock pred ts5.2))).
  { by destruct item. }
  rewrite He.
  destruct (synchronize_fields_shows (mSynchronizeItemLock w) (deliver_itemChanged (S fuel))
              item at_ t (with_mSynchronizeItemLock S w))
    as (t5 & -> & Hs & Hsel & Hen & Hc);
    [apply deliver_itemChanged_quiet|simpl; lia|].
  simpl. rewrite with_lock_pred_S. exists t5.
  split; [done|]. split; [done|]. split; [done|]. split; [|done].
  unfold isDisabled. by rewrite Hen.
Qed.

Lemma shown_everywhere_node `{OpenSCAP} policy fields (children : list QTreeWidgetItem) :
  (∃ item, shows_item policy item fields) →
  (∀ i child, children !! i = Some child → shown_everywhere policy child) →
  shown_everywhere policy (TreeItem fields children).
Proof.
  intros Hf Hc [|i rest] c; simpl.
  - by intros [= <-].
  - destruct (children !! i) as [c0|] eqn:Ec; [|done]. simpl. by apply (Hc i c0).
Qed.

Lemma insertChild_end {A} (x : A) (children : list A) :
  insertChild (length children) x children = children ++ [x].
Proof.
  unfold insertChild. rewrite bool_decide_eq_true_2 by lia.
  by rewrite firstn_all, skipn_all.
Qed.

Lemma insert_at_end {A} (l : list A) (x y : A) : <[ length l := y ]> (l ++ [x]) = l ++ [y].
Proof. induction l as [|z l IH]; simpl; [done|]. by rewrite IH. Qed.

Lemma add_and_recurse_shown n at_ (kids : list child_sync) (children : list tagged) w :
  Forall (builds_shown n) kids →
  n ≤ mSynchronizeItemLock w →
  ∃ news, add_and_recurse at_ kids (length children) [] children w = Ok (children ++ news, w)
          ∧ length news = length kids
          ∧ ∀ i child, news.*2 !! i = Some child → shown_everywhere (mPolicy w) child.
Proof.
  intros Hkids Hl. revert children.
  induction Hkids as [|[c f] kids Hf _ IH]; intros children; simpl.
  - exists []. rewrite app_nil_r. split; [done|]. split; [done|]. by intros i child.
  - rewrite bool_decide_eq_true_2 by lia.
    unfold new_QTreeWidgetItem.
    match goal with |- context [f _ (TreeItem ?a [], w)] =>
      destruct (Hf (at_ ++ [length children]) a w Hl) as (t' & E & Hs) end.
    simpl in E. rewrite E. simpl.
    rewrite insertChild_end, insert_at_end.
    destruct (IH (children ++ [(None, t')])) as (news & E' & Hlen & Hn).
    rewrite length_app in E'. simpl in E'. rewrite Nat.add_1_r in E'.
    rewrite E'. exists ((None, t') :: news). split; [by rewrite <- app_assoc|].
    split; [simpl; by rewrite Hlen|].
    intros [|i] child; simpl; [by intros [= <-]|apply Hn].
Qed.

Lemma synchronize_one_shown n slot item (kids : list child_sync) at_ fields w :
  quiet_above n slot →
  Forall (builds_shown n) kids →
  n ≤ mSynchronizeItemLock w →
  ∃ t', synchronize_one slot item kids at_ true (TreeItem fields [], w) = Ok (t', w)
        ∧ shown_everywhere (mPolicy w) t'.
Proof.
  intros Hq Hkids Hl. unfold synchronize_one. simpl.
  destruct (synchronize_fields_shows n slot item at_ (TreeItem fields [])
              (with_mSynchronizeItemLock S w))
    as (t5 & -> & Hs & _ & _ & Hc); [done|simpl; lia|]. simpl.
  assert (Hc5 : children_of t5 = []).
  { rewrite Hc. by destruct (xccdf_item_get_type item). }
  unfold synchronize_children. simpl. rewrite Hc5. simpl.
  destruct (add_and_recurse_shown n at_ kids [] (with_mSynchronizeItemLock S w))
    as (news & E & _ & Hn); [done|simpl; lia|].
  simpl in E. rewrite E. simpl. rewrite with_lock_pred_S.
  eexists. split; [reflexivity|].
  destruct t5 as [a5 cs5]. simpl in *.
  apply shown_everywhere_node; [by exists item|exact Hn].
Qed.

Lemma synchronizeTreeItem_shown n slot item :
  quiet_above n slot →
  builds_shown n (item, fun at_ => synchronizeTreeItem slot item at_ true).
Proof.
  intros Hq. induction item as [h vs cs IH|h vs cs IH|h|v] using xccdf_item_ind';
    intros at_ fields w Hl; simpl.
  - apply (synchronize_one_shown n); [done| |done].
    apply Forall_app. split.
    + apply Forall_map, Forall_forall. intros v _ at' fields' w' Hl'. simpl.
      by apply (synchronize_one_shown n slot (XValue v) []).
    + apply Forall_map. eapply Forall_impl; [|exact IH]. by intros c Hc.
  - apply (synchronize_one_shown n); [done| |done].
    apply Forall_app. split.
    + apply Forall_map, Forall_forall. intros v _ at' fields' w' Hl'. simpl.
      by apply (synchronize_one_shown n slot (XValue v) []).
    + apply Forall_map. eapply Forall_impl; [|exact IH]. by intros c Hc.
  - by apply (synchronize_one_shown n slot (XRule h) []).
  - by apply (synchronize_one_shown n slot (XValue v) []).
Qed.

Lemma backing_refreshChildren t all :
  backing (_refreshXCCDFItemChildrenDisabledState t all) = backing t.
Proof.
  revert all. induction t as [fields children IH] using QTreeWidgetItem_ind'. intros all.
  simpl. f_equal. rewrite map_map. apply map_ext_in. intros c Hin.
  rewrite backing_setDisabled. rewrite Forall_forall in IH. by apply IH.
Qed.

Lemma shows_item_setDisabled `{OpenSCAP} policy item b t :
  shows_item policy item (fields_of t) → shows_item policy item (fields_of (setDisabled b t)).
Proof. by destruct t as [[] ?]. Qed.

Lemma ancestors_selected_setDisabled at_ b t :
  ancestors_selected at_ (setDisabled b t) = ancestors_selected at_ t.
Proof. destruct at_, t as [[] ?]; done. Qed.

Lemma ancestors_selected_refresh at_ t all :
  ancestors_selected at_ (_refreshXCCDFItemChildrenDisabledState t all)
  = ancestors_selected at_ t.
Proof.
  revert t all. induction at_ as [|i rest IH]; intros [fields children] all; [done|].
  simpl. f_equal. rewrite list_lookup_map.
  destruct (children !! i) as [c|]; [|done]. simpl.
  by rewrite ancestors_selected_setDisabled, IH.
Qed.

Lemma refresh_tree_at at_ t all child' :
  tree_at at_ (_refreshXCCDFItemChildrenDisabledState t all) = Some child' →
  ∃ child, tree_at at_ t = Some child
           ∧ fields_of child'
             = fields_of match at_ with
                         | [] => child
                         | _ => setDisabled (negb (all && ancestors_selected at_ t)) child
                         end.
Proof.
  intros Hc. pose proof (refresh_fields_at t all at_) as Hf. rewrite Hc in Hf.
  destruct (tree_at at_ t) as [child|]; [|done].
  exists child. split; [done|]. simpl in Hf. by injection Hf.
Qed.

Lemma item_refresh_of_new_window fuel policy newProfile :
  XCCDFItemPropertiesDockWidget_refresh (deliver_panel (S fuel))
    {| mSynchronizeItemLock := 0;
       mItemPropertiesDockWidget := empty_XCCDFItemPropertiesDockWidget;
       mProfilePropertiesDockWidget := empty_ProfilePropertiesDockWidget;
       mPolicy := policy;
       mUndoStack := {| command_list := []; stack_index := 0 |};
       mNewProfile := newProfile;
       mChangesConfirmed := false |}
  = Ok {| mSynchronizeItemLock := 0;
          mItemPropertiesDockWidget :=
            {| mXccdfItem := None;
               item_mRefreshInProgress := false;
               ui_titleLineEdit := "<no item selected>";
               ui_idLineEdit := String.EmptyString;
               ui_typeLineEdit := String.EmptyString;
               ui_descriptionBrowser := String.EmptyString;
               ui_valueGroupBox_shown := false;
               ui_valueComboBox_items := [];
               ui_valueComboBox_editText := String.EmptyString;
               ui_valueComboBox_validator := None;
               ui_valueTypeLabel := String.EmptyString |};
          mProfilePropertiesDockWidget := empty_ProfilePropertiesDockWidget;
          mPolicy := policy;
          mUndoStack := {| command_list := []; stack_index := 0 |};
          mNewProfile := newProfile;
          mChangesConfirmed := false |}.
Proof. vm_compute. reflexivity. Qed.


(** ** The first loop of the recursive synchronization *)

(** X10: The loop that deletes the children whose item is gone (lines 660-674)
    goes on with the next index after a deletion, while the deletion has
    moved the following child to the current one.  When none of the
    children backs an item to add, so that all of them are to go, every
    second child stays: those at the odd positions.  Nothing is recorded in
    the map. *)
Theorem first_loop_keeps_every_second_stale_child (itemsToAdd : list xccdf_item)
    (children : list QTreeWidgetItem) (i : nat) (existingItemsMap : XCCDFToQtItemMap) :
  (∀ child, child ∈ children →
            found_in itemsToAdd (getXccdfItemFromTreeItem child) = false) →
  ∃ kept, delete_absent itemsToAdd children i existingItemsMap = (kept, existingItemsMap)
          ∧ length kept = length children / 2
          ∧ ∀ k, kept !! k = children !! (2 * k + 1).
Proof.
  remember (length children) as n eqn:Hn.
  revert children i Hn. induction n as [n IH] using lt_wf_ind.
  intros [|c [|c' rest]] i Hn Hstale.
  - exists []. subst n. by repeat split.
  - exists []. simpl. rewrite Hstale by (apply elem_of_cons; by left).
    subst n. split; [done|]. split; [done|]. by intros [|k].
  - simpl. rewrite Hstale by (apply elem_of_cons; by left).
    destruct (IH (length rest)) with (children := rest) (i := S i)
      as (kept & -> & Hlen & Hk); [subst n; simpl; lia|done| |].
    { intros child Hin. apply Hstale. do 2 (apply elem_of_cons; right). done. }
    exists (c' :: kept). split; [done|]. split.
    + subst n. change (length (c' :: kept) = length (c :: c' :: rest) / 2).
      replace (length (c :: c' :: rest)) with (length rest + 1 * 2) by (simpl; lia).
      rewrite Nat.div_add by done. rewrite <- Hlen. simpl. lia.
    + intros [|k]; [done|]. simpl. rewrite Hk.
      by replace (k + S (k + 0) + 1) with (S (k + (k + 0) + 1)) by lia.
Qed.

(** ** What running a command leaves *)

Lemma only_adds_overrides_panels w w1 w2 :
  only_adds_overrides w w1 → same_but_panels w1 w2 → only_adds_overrides w w2.
Proof.
  intros [] (Hl & Hp & Hs & Hn & Hc). unfold mProfile in *.
  split; unfold mProfile; rewrite ?Hp; congruence.
Qed.

Lemma title_run_adds slot fuel title w w' :
  slot = deliver_panel (S fuel) →
  ProfileTitleChangeUndoCommand_undo slot title w = Ok w' →
  only_adds_overrides w w'
  ∧ xccdf_policy_get_selects (mPolicy w') = xccdf_policy_get_selects (mPolicy w)
  ∧ xccdf_profile_get_selects (mProfile w') = xccdf_profile_get_selects (mProfile w)
  ∧ xccdf_profile_get_setvalues (mProfile w') = xccdf_profile_get_setvalues (mProfile w).
Proof.
  intros ->. unfold ProfileTitleChangeUndoCommand_undo, refreshProfileDockWidget.
  destruct (setProfileTitle title w) as [w1| | | |] eqn:E1; try done. simpl.
  destruct (ProfilePropertiesDockWidget_refresh_ok fuel w1) as (w2 & -> & Hp & _).
  intros [= <-].
  assert (Hw1 : only_adds_overrides w w1
                ∧ xccdf_policy_get_selects (mPolicy w1) = xccdf_policy_get_selects (mPolicy w)
                ∧ xccdf_profile_get_selects (mProfile w1)
                  = xccdf_profile_get_selects (mProfile w)
                ∧ xccdf_profile_get_setvalues (mProfile w1)
                  = xccdf_profile_get_setvalues (mProfile w)).
  { revert E1. unfold setProfileTitle, assert.
    destruct (choose_text _ 0 None); [|done]. case_bool_decide; [|done].
    intros [= <-]. by repeat split. }
  destruct Hw1 as (Ha & H1 & H2 & H3).
  split; [by apply (only_adds_overrides_panels _ w1)|].
  destruct Hp as (_ & Hp & _). unfold mProfile in *. by rewrite Hp.
Qed.

Lemma description_run_adds slot fuel description w w' :
  slot = deliver_panel (S fuel) →
  ProfileDescriptionChangeUndoCommand_undo slot description w = Ok w' →
  only_adds_overrides w w'
  ∧ xccdf_policy_get_selects (mPolicy w') = xccdf_policy_get_selects (mPolicy w)
  ∧ xccdf_profile_get_selects (mProfile w') = xccdf_profile_get_selects (mProfile w)
  ∧ xccdf_profile_get_setvalues (mProfile w') = xccdf_profile_get_setvalues (mProfile w).
Proof.
  intros ->. unfold ProfileDescriptionChangeUndoCommand_undo, refreshProfileDockWidget.
  destruct (setProfileDescription description w) as [w1| | | |] eqn:E1; try done. simpl.
  destruct (ProfilePropertiesDockWidget_refresh_ok fuel w1) as (w2 & -> & Hp & _).
  intros [= <-].
  assert (Hw1 : only_adds_overrides w w1
                ∧ xccdf_policy_get_selects (mPolicy w1) = xccdf_policy_get_selects (mPolicy w)
                ∧ xccdf_profile_get_selects (mProfile w1)
                  = xccdf_profile_get_selects (mProfile w)
                ∧ xccdf_profile_get_setvalues (mProfile w1)
                  = xccdf_profile_get_setvalues (mProfile w)).
  { revert E1. unfold setProfileDescription, assert.
    destruct (choose_text _ 0 None); [|done]. case_bool_decide; [|done].
    intros [= <-]. by repeat split. }
  destruct Hw1 as (Ha & H1 & H2 & H3).
  split; [by apply (only_adds_overrides_panels _ w1)|].
  destruct Hp as (_ & Hp & _). unfold mProfile in *. by rewrite Hp.
Qed.

Lemma value_run_adds slot fuel value newValue w w' :
  slot = deliver_panel (S fuel) →
  XCCDFValueChangeUndoCommand_undo slot value newValue w = Ok w' →
  only_adds_overrides w w'
  ∧ xccdf_policy_get_selects (mPolicy w') = xccdf_policy_get_selects (mPolicy w)
  ∧ xccdf_profile_get_selects (mProfile w') = xccdf_profile_get_selects (mProfile w)
  ∧ xccdf_profile_get_setvalues (mProfile w')
    = xccdf_profile_get_setvalues (mProfile w)
      ++ [{| xccdf_setvalue_get_item := xccdf_value_get_id value;
             xccdf_setvalue_get_value := newValue |}].
Proof.
  intros ->. unfold XCCDFValueChangeUndoCommand_undo, refreshXccdfItemPropertiesDockWidget.
  destruct (setValueValue value newValue w) as [w1| | | |] eqn:E1; try done. simpl.
  destruct (XCCDFItemPropertiesDockWidget_refresh_ok fuel w1) as (w2 & -> & Hp & _).
  intros [= <-].
  revert E1. unfold setValueValue, assert. case_bool_decide; [|done]. intros [= <-].
  destruct Hp as (Hl & Hp & Hs & Hn & Hc).
  split.
  - apply (only_adds_overrides_panels _ (add_setvalue value newValue w)); [|done].
    split; try done. simpl. by apply prefix_app_r.
  - unfold mProfile. by rewrite Hp.
Qed.

Lemma select_run_adds fuel at_ selected t w t' w' :
  XCCDFItemSelectUndoCommand_redo (deliver_itemChanged (S fuel)) at_ selected (t, w)
  = Ok (t', w') →
  only_adds_overrides w w'
  ∧ xccdf_profile_get_setvalues (mProfile w') = xccdf_profile_get_setvalues (mProfile w)
  ∧ ∃ x, getXccdfItemFromTreeItem t = Some x
         ∧ xccdf_policy_get_selects (mPolicy w')
           = xccdf_policy_get_selects (mPolicy w)
             ++ [{| xccdf_select_get_item := xccdf_item_get_id x;
                    xccdf_select_get_selected := selected |}]
         ∧ xccdf_profile_get_selects (mProfile w')
           = xccdf_profile_get_selects (mProfile w)
             ++ [{| xccdf_select_get_item := xccdf_item_get_id x;
                    xccdf_select_get_selected := selected |}].
Proof.
  unfold XCCDFItemSelectUndoCommand_redo. simpl.
  destruct (getXccdfItemFromTreeItem t) as [x|]; [|done].
  destruct (setItemSelected_cases x selected w) as [[-> _]| ->]; [|done]. simpl.
  destruct (synchronizeTreeItem_ok 0 (deliver_itemChanged (S fuel)) x
              (deliver_itemChanged_quiet fuel 0) false at_ t
              (add_select_to_both x selected w)) as (t'' & ->); [lia|].
  intros [= <- <-]. split; [|split; [done|by exists x]].
  split; try done; simpl; by apply prefix_app_r.
Qed.

(** X11: Running a command, forwards or backwards (lines 245-255, 286-296,
    324-336, 376-386): the overrides the profile and the policy hold are
    never taken away or changed.  A select command adds one select to the
    profile and one to the policy each time it runs, when it is undone too;
    a value change adds one setvalue to the profile each time; a change of
    title or description adds nothing.  The history, the counter and the
    flags of the window are as before the run. *)
Theorem commands_only_add_overrides (fuel : nat) (cmd : QUndoCommand) (s s' : Session) :
  QUndoCommand_redo (S fuel) cmd s = Ok s' ∨ QUndoCommand_undo (S fuel) cmd s = Ok s' →
  let selects_added := match cmd with XCCDFItemSelectUndoCommand _ _ => 1 | _ => 0 end in
  let setvalues_added := match cmd with XCCDFValueChangeUndoCommand _ _ _ => 1 | _ => 0 end in
  only_adds_overrides (window s) (window s')
  ∧ length (xccdf_policy_get_selects (mPolicy (window s')))
    = length (xccdf_policy_get_selects (mPolicy (window s))) + selects_added
  ∧ length (xccdf_profile_get_selects (mProfile (window s')))
    = length (xccdf_profile_get_selects (mProfile (window s))) + selects_added
  ∧ length (xccdf_profile_get_setvalues (mProfile (window s')))
    = length (xccdf_profile_get_setvalues (mProfile (window s))) + setvalues_added.
Proof.
  intros Hrun. simpl.
  destruct cmd as [old new|old new|at_ new|value new old].
  - assert (∃ t, ProfileTitleChangeUndoCommand_undo (deliver_panel (S fuel)) t (window s)
                 = Ok (window s')) as [t Ht].
    { destruct Hrun as [Hr|Hr]; simpl in Hr; unfold on_window in Hr;
        [exists new|exists old].
      - change (ProfileTitleChangeUndoCommand_redo (deliver_panel (S fuel)) new)
          with (ProfileTitleChangeUndoCommand_undo (deliver_panel (S fuel)) new) in Hr.
        destruct (ProfileTitleChangeUndoCommand_undo _ new _); try done.
        simpl in Hr. by injection Hr as <-.
      - destruct (ProfileTitleChangeUndoCommand_undo _ old _); try done.
        simpl in Hr. by injection Hr as <-. }
    apply (title_run_adds _ fuel) in Ht as (Ha & -> & -> & ->); [|done].
    rewrite !Nat.add_0_r. done.
  - assert (∃ t, ProfileDescriptionChangeUndoCommand_undo (deliver_panel (S fuel)) t
                   (window s) = Ok (window s')) as [t Ht].
    { destruct Hrun as [Hr|Hr]; simpl in Hr; unfold on_window in Hr;
        [exists new|exists old].
      - change (ProfileDescriptionChangeUndoCommand_redo (deliver_panel (S fuel)) new)
          with (ProfileDescriptionChangeUndoCommand_undo (deliver_panel (S fuel)) new) in Hr.
        destruct (ProfileDescriptionChangeUndoCommand_undo _ new _); try done.
        simpl in Hr. by injection Hr as <-.
      - destruct (ProfileDescriptionChangeUndoCommand_undo _ old _); try done.
        simpl in Hr. by injection Hr as <-. }
    apply (description_run_adds _ fuel) in Ht as (Ha & -> & -> & ->); [|done].
    rewrite !Nat.add_0_r. done.
  - assert (∃ b t t', XCCDFItemSelectUndoCommand_redo (deliver_itemChanged (S fuel)) at_ b
                        (t, window s) = Ok (t', window s')) as (b & t & t' & Ht).
    { destruct Hrun as [Hr|Hr]; simpl in Hr; unfold on_treeItem in Hr;
        destruct (tree_at at_ (itemsTree s)) as [t|]; try done;
        [exists new, t|exists (negb new), t].
      - destruct (XCCDFItemSelectUndoCommand_redo _ at_ new _) as [[t' w']| | | |];
          try done.
        simpl in Hr. injection Hr as <-. by exists t'.
      - change (XCCDFItemSelectUndoCommand_undo (deliver_itemChanged (S fuel)) at_ new)
          with (XCCDFItemSelectUndoCommand_redo (deliver_itemChanged (S fuel)) at_
                  (negb new)) in Hr.
        destruct (XCCDFItemSelectUndoCommand_redo _ at_ (negb new) _) as [[t' w']| | | |];
          try done.
        simpl in Hr. injection Hr as <-. by exists t'. }
    apply select_run_adds in Ht as (Ha & -> & x & _ & -> & ->).
    rewrite !length_app. simpl. rewrite Nat.add_0_r. done.
  - assert (∃ t, XCCDFValueChangeUndoCommand_undo (deliver_panel (S fuel)) value t
                   (window s) = Ok (window s')) as [t Ht].
    { destruct Hrun as [Hr|Hr]; simpl in Hr; unfold on_window in Hr;
        [exists new|exists old].
      - change (XCCDFValueChangeUndoCommand_redo (deliver_panel (S fuel)) value new)
          with (XCCDFValueChangeUndoCommand_undo (deliver_panel (S fuel)) value new) in Hr.
        destruct (XCCDFValueChangeUndoCommand_undo _ value new _); try done.
        simpl in Hr. by injection Hr as <-.
      - destruct (XCCDFValueChangeUndoCommand_undo _ value old _); try done.
        simpl in Hr. by injection Hr as <-. }
    apply (value_run_adds _ fuel) in Ht as (Ha & -> & -> & ->); [|done].
    rewrite !length_app. simpl. rewrite Nat.add_0_r. done.
Qed.

(** ** Confirming *)

(** X12: [confirmAndClose] (lines 815-820, 830-858) asks nothing, whatever the
    answer would be, and undoes nothing: the tree, the policy, the history
    and the dock widgets are as they were, the close goes through and the
    parent is told that the changes are confirmed.  [deleteProfileAndDiscard]
    sets its flags before the question is asked: when the answer is No the
    window stays as it is but for the flags, and a later [confirmAndClose]
    tells the parent that the profile is new. *)
Theorem confirm_keeps_changes (fuel : nat) (mParentMainWindow : bool)
    (answer : StandardButton) (s : Session) :
  let accepted newProfile :=
    {| event_accepted := true;
       QMainWindow_closeEvent_called := true;
       notifyTailoringFinished :=
         if mParentMainWindow then Some (newProfile, true) else None |} in
  confirmAndClose fuel mParentMainWindow answer s
  = Ok (with_window (fun w => with_flags (mNewProfile w) true w) s,
        accepted (mNewProfile (window s)))
  ∧ deleteProfileAndDiscard fuel mParentMainWindow QMessageBox_No s
    = Ok (with_window (with_flags true false) s,
          {| event_accepted := false;
             QMainWindow_closeEvent_called := false;
             notifyTailoringFinished := None |})
  ∧ (declined ← deleteProfileAndDiscard fuel mParentMainWindow QMessageBox_No s;
     confirmAndClose fuel mParentMainWindow answer declined.1)
    = Ok (with_window (with_flags true true) s, accepted true).
Proof.
  intros accepted. subst accepted. destruct s as [tree w].
  unfold confirmAndClose, deleteProfileAndDiscard, closeEvent. simpl.
  split; [by destruct answer|]. split; [done|]. by destruct answer.
Qed.

(** ** Making an item the current one *)

Lemma item_refresh_labels fuel w :
  let d := mItemPropertiesDockWidget w in
  item_mRefreshInProgress d = false →
  ∃ w', XCCDFItemPropertiesDockWidget_refresh (deliver_panel (S fuel)) w = Ok w'
        ∧ ui_titleLineEdit (mItemPropertiesDockWidget w')
          = match mXccdfItem d with
            | Some item => oscapTextIteratorGetPreferred (xccdf_item_get_title item)
            | None => "<no item selected>"
            end
        ∧ ui_idLineEdit (mItemPropertiesDockWidget w')
          = from_option xccdf_item_get_id String.EmptyString (mXccdfItem d)
        ∧ ui_typeLineEdit (mItemPropertiesDockWidget w')
          = from_option (fun item => type_label (xccdf_item_get_type item) String.EmptyString)
              String.EmptyString (mXccdfItem d)
        ∧ ui_descriptionBrowser (mItemPropertiesDockWidget w')
          = match mXccdfItem d with
            | Some item => oscapTextIteratorGetPreferred (xccdf_item_get_description item)
            | None => String.EmptyString
            end
        ∧ ui_valueGroupBox_shown (mItemPropertiesDockWidget w')
          = bool_decide (is_Some (mXccdfItem d ≫= xccdf_item_to_value)).
Proof.
  destruct w as [lock [x r t i ty de sh its ed va tl] pp policy stack np cc].
  simpl. intros ->.
  unfold XCCDFItemPropertiesDockWidget_refresh, item_panel. simpl.
  unfold ui_valueComboBox_clear, ui_valueComboBox_setEditText. simpl.
  rewrite ?deliver_panel_refreshing by done. simpl.
  destruct x as [item|]; simpl.
  - destruct (xccdf_item_to_value item) as [value|] eqn:Ev; simpl.
    + unfold refresh_value.
      match goal with |- context [foldl _ (Ok ?w0) _] => set (w1 := w0) end.
      rewrite (addItems_result fuel _ w1)
        by (subst w1; by destruct (xccdf_value_get_type value)).
      simpl. unfold ui_valueComboBox_setEditText.
      rewrite deliver_panel_refreshing
        by (subst w1; by destruct (xccdf_value_get_type value)).
      simpl. eexists. split; [reflexivity|]. subst w1.
      by destruct (xccdf_value_get_type value).
    + eexists. split; [reflexivity|]. done.
  - eexists. split; [reflexivity|]. done.
Qed.

(** X13: [itemSelectionChanged] (lines 860-864, 120-126): the item dock widget
    takes the document item of the tree item that has become the current
    one, and shows its title, id, type and description, and the value editor
    if it is a Value; with a tree item that points to no document item it
    says that no item is selected.  Nothing is pushed on the history, and
    the tree, the policy and the profile dock widget stay as they are. *)
Theorem itemSelectionChanged_shows_current (fuel : nat) (current : list nat)
    (treeItem : QTreeWidgetItem) (s : Session) :
  tree_at current (itemsTree s) = Some treeItem →
  item_mRefreshInProgress (mItemPropertiesDockWidget (window s)) = false →
  ∃ s', itemSelectionChanged (S fuel) current s = Ok s'
        ∧ itemsTree s' = itemsTree s
        ∧ same_but_panels (window s) (window s')
        ∧ mProfilePropertiesDockWidget (window s') = mProfilePropertiesDockWidget (window s)
        ∧ let d' := mItemPropertiesDockWidget (window s') in
          mXccdfItem d' = getXccdfItemFromTreeItem treeItem
          ∧ item_mRefreshInProgress d' = false
          ∧ match getXccdfItemFromTreeItem treeItem with
            | Some item =>
                ui_titleLineEdit d' = oscapTextIteratorGetPreferred (xccdf_item_get_title item)
                ∧ ui_idLineEdit d' = xccdf_item_get_id item
                ∧ ui_typeLineEdit d' = type_label (xccdf_item_get_type item) String.EmptyString
                ∧ ui_descriptionBrowser d'
                  = oscapTextIteratorGetPreferred (xccdf_item_get_description item)
                ∧ ui_valueGroupBox_shown d'
                  = bool_decide (xccdf_item_get_type item = XCCDF_VALUE)
            | None =>
                ui_titleLineEdit d' = "<no item selected>"
                ∧ ui_idLineEdit d' = String.EmptyString
                ∧ ui_typeLineEdit d' = String.EmptyString
                ∧ ui_descriptionBrowser d' = String.EmptyString
                ∧ ui_valueGroupBox_shown d' = false
            end.
Proof.
  intros Hc Hr. unfold itemSelectionChanged, on_window, setXccdfItem. rewrite Hc.
  set (w0 := with_mItemPropertiesDockWidget
               (with_mXccdfItem (getXccdfItemFromTreeItem treeItem)) (window s)).
  destruct (item_refresh_labels fuel w0) as (w' & E & Ht & Hi & Hty & Hd & Hs); [done|].
  destruct (XCCDFItemPropertiesDockWidget_refresh_ok fuel w0)
    as (w1 & E1 & (Hsame & Hp & Hx & Hrf)).
  rewrite E in E1. injection E1 as <-.
  rewrite E. simpl. eexists. split; [reflexivity|]. simpl.
  split; [done|]. split; [exact Hsame|]. split; [exact Hp|].
  split; [exact Hx|]. split; [by rewrite Hrf|].
  simpl in Ht, Hi, Hty, Hd, Hs.
  destruct (getXccdfItemFromTreeItem treeItem) as [item|]; simpl in *.
  - rewrite Ht, Hi, Hty, Hd, Hs. repeat split.
    by destruct item.
  - by rewrite Ht, Hi, Hty, Hd, Hs.
Qed.

(** ** What the user's actions leave *)

Lemma only_adds_overrides_refl w : only_adds_overrides w w.
Proof. by split. Qed.

Lemma only_adds_overrides_trans w1 w2 w3 :
  only_adds_overrides w1 w2 → only_adds_overrides w2 w3 → only_adds_overrides w1 w3.
Proof.
  intros [] []. split; try congruence; by etrans.
Qed.

(** The same, whatever has become of the history. *)
Lemma adds_with_history w w' f :
  only_adds_overrides w w' →
  only_adds_overrides w (with_mUndoStack (fun _ => mUndoStack w) (with_mUndoStack f w')).
Proof. intros []. by split. Qed.

Lemma adds_history_trans w1 w2 w3 :
  only_adds_overrides w1 (with_mUndoStack (fun _ => mUndoStack w1) w2) →
  only_adds_overrides w2 (with_mUndoStack (fun _ => mUndoStack w2) w3) →
  only_adds_overrides w1 (with_mUndoStack (fun _ => mUndoStack w1) w3).
Proof.
  intros [] []. simpl in *. split; simpl; try congruence; by etrans.
Qed.

Lemma perform_adds fuel action s s' :
  perform (S fuel) action s = Ok s' →
  only_adds_overrides (window s)
    (with_mUndoStack (fun _ => mUndoStack (window s)) (window s')).
Proof.
  destruct action as [text|text|text|at_ state|at_]; simpl.
  - unfold on_window, ui_title_setText. rewrite deliver_panel_S.
    unfold panel_slot, profileTitleChanged.
    set (w1 := with_mProfilePropertiesDockWidget (with_profile_ui_title text) (window s)).
    destruct (profile_mRefreshInProgress (profile_panel w1)).
    + simpl. intros [= <-]. by split.
    + unfold setProfileTitleWithUndoCommand, QUndoStack_push.
      destruct (ProfileTitleChangeUndoCommand_redo _ text w1) as [w2| | | |] eqn:E;
        try done.
      simpl. intros [= <-]. simpl.
      apply (title_run_adds _ fuel) in E as [Ha _]; [|done].
      apply adds_with_history. destruct Ha. by split.
  - unfold on_window, ui_description_setPlainText. rewrite deliver_panel_S.
    unfold panel_slot, profileDescriptionChanged.
    set (w1 := with_mProfilePropertiesDockWidget
                 (with_profile_ui_description text) (window s)).
    destruct (profile_mRefreshInProgress (profile_panel w1)).
    + simpl. intros [= <-]. by split.
    + unfold setProfileDescriptionWithUndoCommand, QUndoStack_push.
      destruct (ProfileDescriptionChangeUndoCommand_redo _ _ w1) as [w2| | | |] eqn:E;
        try done.
      simpl. intros [= <-]. simpl.
      apply (description_run_adds _ fuel) in E as [Ha _]; [|done].
      apply adds_with_history. destruct Ha. by split.
  - unfold on_window, ui_valueComboBox_setEditText. rewrite deliver_panel_S.
    unfold panel_slot, valueChanged.
    set (w1 := with_mItemPropertiesDockWidget _ (window s)).
    destruct (item_mRefreshInProgress (item_panel w1)).
    + simpl. intros [= <-]. by split.
    + destruct (mXccdfItem (item_panel w1) ≫= xccdf_item_to_value) as [value|]; [|done].
      unfold setValueValueWithUndoCommand, QUndoStack_push.
      destruct (XCCDFValueChangeUndoCommand_redo _ value text w1) as [w2| | | |] eqn:E;
        try done.
      simpl. intros [= <-]. simpl.
      apply (value_run_adds _ fuel) in E as [Ha _]; [|done].
      apply adds_with_history. destruct Ha. by split.
  - unfold on_treeItem, treeItem_set.
    destruct (tree_at at_ (itemsTree s)) as [t|]; [|done]. simpl.
    rewrite deliver_itemChanged_S. unfold itemChanged_slot. simpl.
    case_bool_decide; [simpl; intros [= <-]; by split|].
    destruct (getXccdfItemFromTreeItem _) as [x|]; [|simpl; intros [= <-]; by split].
    case_bool_decide; [simpl; intros [= <-]; by split|].
    destruct (negb _); [|simpl; intros [= <-]; by split].
    unfold QUndoStack_push.
    destruct (XCCDFItemSelectUndoCommand_redo _ at_ _ _) as [[t' w2]| | | |] eqn:E;
      try done.
    simpl. intros [= <-]. simpl.
    apply select_run_adds in E as [Ha _].
    by apply adds_with_history.
  - unfold itemSelectionChanged, on_window, setXccdfItem.
    destruct (tree_at at_ (itemsTree s)) as [t|]; [|done].
    match goal with |- context [XCCDFItemPropertiesDockWidget_refresh _ ?w0] =>
      destruct (XCCDFItemPropertiesDockWidget_refresh_ok fuel w0)
        as (w' & -> & ((Hl & Hp & Hs & Hn & Hc) & _)) end.
    simpl. intros [= <-]. simpl in *. unfold mProfile.
    split; unfold mProfile; simpl; rewrite ?Hp; (done || reflexivity).
Qed.

(** X14: Whatever the user does in the window (lines 83-97, 215-221, 860-886):
    when the actions are over the counter is what it was, the flags of the
    window too; the id of the profile has not changed; and every override
    the profile and the policy held is still there, in its place, before
    those the actions have added.  An edit never takes an override away,
    nor does it replace one. *)
Theorem user_actions_only_add_overrides (fuel : nat) (actions : list user_action)
    (s s' : Session) :
  perform_all (S fuel) actions s = Ok s' →
  only_adds_overrides (window s)
    (with_mUndoStack (fun _ => mUndoStack (window s)) (window s')).
Proof.
  revert s. induction actions as [|action rest IH]; intros s; simpl.
  - intros [= <-]. by split.
  - destruct (perform (S fuel) action s) as [s1| | | |] eqn:E1; try done. simpl.
    intros Hrest. apply (adds_history_trans _ (window s1)).
    + by apply (perform_adds fuel action).
    + by apply IH.
Qed.
(** ** Undoing every command restores what is observed of the policy *)

Section RoundTrip.
Context `{!OpenSCAP_contract}.

Lemma selected_after_add item selected w y :
  getXccdfItemInternalSelected (mPolicy (add_select_to_both item selected w)) y
  = if bool_decide (xccdf_item_get_id y = xccdf_item_get_id item)
    then selected else getXccdfItemInternalSelected (mPolicy w) y.
Proof.
  unfold getXccdfItemInternalSelected, xccdf_policy_get_select_by_id. simpl.
  pose proof (select_added (xccdf_policy_get_selects (mPolicy w))
                {| xccdf_select_get_item := xccdf_item_get_id item;
                   xccdf_select_get_selected := selected |}
                (xccdf_item_get_id y)) as Hs. simpl in Hs.
  destruct (select_by_id (_ ++ _) _) as [s'|];
    destruct (select_by_id (xccdf_policy_get_selects (mPolicy w)) _) as [s|];
    case_bool_decide; simpl in Hs; congruence.
Qed.

Lemma setItemSelected_ok item selected w :
  setItemSelected item selected w = Ok (add_select_to_both item selected w).
Proof.
  unfold setItemSelected. rewrite selected_after_add.
  rewrite bool_decide_eq_true_2 by done. by rewrite eqb_reflx.
Qed.

Lemma value_after_add value newValue w v :
  getCurrentValueValue v (add_setvalue value newValue w)
  = if bool_decide (xccdf_value_get_id v = xccdf_value_get_id value)
    then newValue else getCurrentValueValue v w.
Proof.
  unfold getCurrentValueValue, xccdf_policy_get_value_of_item. simpl.
  by rewrite setvalue_added.
Qed.

Lemma setValueValue_ok value newValue w :
  setValueValue value newValue w = Ok (add_setvalue value newValue w).
Proof.
  unfold setValueValue, assert. rewrite value_after_add.
  rewrite (bool_decide_eq_true_2 (xccdf_value_get_id value = xccdf_value_get_id value))
    by done.
  by rewrite bool_decide_eq_true_2.
Qed.

Lemma setProfileTitle_cases title w :
  match xccdf_profile_get_title (mProfile w) with
  | [] => setProfileTitle title w = Throw setProfileTitle_what
  | titles =>
      ∃ texts, setProfileTitle title w
               = Ok (with_mProfile (xccdf_profile_set_title texts) w)
               ∧ length texts = length titles
               ∧ oscapTextIteratorGetPreferred texts = title
  end.
Proof.
  unfold setProfileTitle.
  pose proof (choose_text_designated (xccdf_profile_get_title (mProfile w))) as Hc.
  destruct (xccdf_profile_get_title (mProfile w)) as [|t0 rest] eqn:Et; [by rewrite Hc|].
  destruct Hc as (i & -> & Hi).
  exists (edit_text (t0 :: rest) i title).
  unfold assert, getProfileTitle, oscapTextIteratorGetPreferred, edit_text. simpl.
  rewrite edited_text_preferred by done.
  rewrite bool_decide_eq_true_2 by done. split; [done|]. split; [|done].
  by rewrite length_insert.
Qed.

Lemma setProfileDescription_cases description w :
  match xccdf_profile_get_description (mProfile w) with
  | [] => setProfileDescription description w = Throw setProfileDescription_what
  | descriptions =>
      ∃ texts, setProfileDescription description w
               = Ok (with_mProfile (xccdf_profile_set_description texts) w)
               ∧ length texts = length descriptions
               ∧ oscapTextIteratorGetPreferred texts = description
  end.
Proof.
  unfold setProfileDescription.
  pose proof (choose_text_designated (xccdf_profile_get_description (mProfile w))) as Hc.
  destruct (xccdf_profile_get_description (mProfile w)) as [|t0 rest] eqn:Et;
    [by rewrite Hc|].
  destruct Hc as (i & -> & Hi).
  exists (edit_text (t0 :: rest) i description).
  unfold assert, getProfileDescription, oscapTextIteratorGetPreferred, edit_text. simpl.
  rewrite edited_text_preferred by done.
  rewrite bool_decide_eq_true_2 by done. split; [done|]. split; [|done].
  by rewrite length_insert.
Qed.


(** *** The stack after a push, and after an undo *)

Lemma applied_enter_cases cmd stack :
  stack_index stack ≤ length (command_list stack) →
  let stack' := QUndoStack_enter cmd stack in
  stack_index stack' ≤ length (command_list stack')
  ∧ (applied_commands stack' = applied_commands stack ++ [cmd]
     ∨ ∃ init cur merged,
         applied_commands stack = init ++ [cur]
         ∧ QUndoCommand_mergeWith cur cmd = Some merged
         ∧ applied_commands stack' = init ++ [merged]).
Proof.
  intros Hwf. unfold applied_commands.
  assert (Hlen : length (take (stack_index stack) (command_list stack)) = stack_index stack).
  { rewrite length_take. lia. }
  assert (Happ : ∀ x, take (S (stack_index stack))
                        (take (stack_index stack) (command_list stack) ++ [x])
                      = take (stack_index stack) (command_list stack) ++ [x]).
  { intros x. by apply take_app_last. }
  unfold QUndoStack_enter.
  destruct (stack_index stack) as [|below] eqn:Ei.
  { simpl. split; [lia|]. by left. }
  destruct (command_list stack !! below) as [cur|] eqn:Ec.
  2:{ apply lookup_ge_None in Ec. lia. }
  set (appended := {| command_list := _ ++ [cmd]; stack_index := _ |}).
  assert (Ha : stack_index appended ≤ length (command_list appended)
               ∧ take (stack_index appended) (command_list appended)
                 = take (S below) (command_list stack) ++ [cmd]).
  { subst appended. simpl. rewrite length_app, Hlen. simpl. split; [lia|].
    apply Happ. }
  destruct (bool_decide (QUndoCommand_id cur ≠ (-1)%Z)
            && bool_decide (QUndoCommand_id cur = QUndoCommand_id cmd));
    [|split; [apply Ha|left; apply Ha]].
  destruct (QUndoCommand_mergeWith cur cmd) as [merged|] eqn:Em;
    [|split; [apply Ha|left; apply Ha]].
  simpl. rewrite length_insert, Hlen. split; [lia|]. right.
  exists (take below (command_list stack)), cur, merged.
  rewrite (take_S_r _ _ cur) by done. split; [done|]. split; [done|].
  rewrite take_ge by (rewrite length_insert, length_app, length_take; simpl; lia).
  assert (Hb : length (take below (command_list stack)) = below).
  { rewrite length_take. lia. }
  rewrite <- (Nat.add_0_r below) at 1. rewrite <- Hb at 1.
  by rewrite insert_app_r.
Qed.

(** Going back over the applied commands after a push: through the new
    entry, or through the entry the command has merged into. *)
Lemma foldr_after_enter {T} (F : QUndoCommand → T → T) cmd stack (before after : T) :
  stack_index stack ≤ length (command_list stack) →
  F cmd after = before →
  (∀ cur merged, QUndoCommand_mergeWith cur cmd = Some merged →
                 F merged after = F cur before) →
  foldr F after (applied_commands (QUndoStack_enter cmd stack))
  = foldr F before (applied_commands stack).
Proof.
  intros Hwf HA HB.
  destruct (applied_enter_cases cmd stack Hwf) as [_ [->|(init & cur & merged & -> & Em & ->)]].
  - by rewrite foldr_app; simpl; rewrite HA.
  - rewrite !foldr_app. simpl. by rewrite (HB cur merged Em).
Qed.

Lemma Forall_after_enter (P : QUndoCommand → Prop) cmd stack :
  stack_index stack ≤ length (command_list stack) →
  Forall P (applied_commands stack) →
  P cmd →
  (∀ cur merged, QUndoCommand_mergeWith cur cmd = Some merged → P cur → P merged) →
  Forall P (applied_commands (QUndoStack_enter cmd stack)).
Proof.
  intros Hwf Hall Hc HB.
  destruct (applied_enter_cases cmd stack Hwf) as [_ [->|(init & cur & merged & E & Em & ->)]].
  - apply Forall_app. split; [done|]. by constructor.
  - rewrite E in Hall. apply Forall_app in Hall as [Hi Hcur].
    apply Forall_app. split; [done|]. constructor; [|done].
    apply (HB cur merged Em). by inversion Hcur.
Qed.

(** What [mergeWith] returns when it agrees. *)
Lemma mergeWith_Some cur cmd merged :
  QUndoCommand_mergeWith cur cmd = Some merged →
  (∃ o n o' n', cur = ProfileTitleChangeUndoCommand o n
                ∧ cmd = ProfileTitleChangeUndoCommand o' n'
                ∧ merged = ProfileTitleChangeUndoCommand o n')
  ∨ (∃ o n o' n', cur = ProfileDescriptionChangeUndoCommand o n
                  ∧ cmd = ProfileDescriptionChangeUndoCommand o' n'
                  ∧ merged = ProfileDescriptionChangeUndoCommand o n')
  ∨ (∃ v n o n' o', cur = XCCDFValueChangeUndoCommand v n o
                    ∧ cmd = XCCDFValueChangeUndoCommand v n' o'
                    ∧ merged = XCCDFValueChangeUndoCommand v n' o).
Proof.
  destruct cur as [o n|o n|p b|v n o], cmd as [o' n'|o' n'|p' b'|v' n' o']; cbn;
    try discriminate.
  - intros [= <-]. left. eauto 10.
  - intros [= <-]. right. left. eauto 10.
  - destruct (decide (v' = v)) as [->|Hne].
    + rewrite (bool_decide_eq_false_2 (v ≠ v)) by (intros ?; done).
      intros [= <-]. right. right. eauto 10.
    + by rewrite (bool_decide_eq_true_2 (v' ≠ v)).
Qed.

Lemma merged_undoes_like_current b cur cmd merged :
  QUndoCommand_mergeWith cur cmd = Some merged →
  (∀ y now, undone_selected b y merged (redone_selected b y cmd now)
            = undone_selected b y cur now)
  ∧ (∀ v now, undone_value v merged (redone_value v cmd now) = undone_value v cur now)
  ∧ (∀ now, undone_title merged (redone_title cmd now) = undone_title cur now)
  ∧ (∀ now, undone_description merged (redone_description cmd now)
            = undone_description cur now)
  ∧ (∀ items w, undoable b items w cur → undoable b items w merged).
Proof.
  intros Hm.
  destruct (mergeWith_Some _ _ _ Hm)
    as [(o & n & o' & n' & -> & -> & ->)|[(o & n & o' & n' & -> & -> & ->)
       |(v & n & o & n' & o' & -> & -> & ->)]]; simpl; repeat split; try done.
  intros v0 now. by case_bool_decide.
Qed.

(** *** Positions in the tree and in what backs it *)

Lemma backing_at_tree_at at_ T :
  backing_at at_ (backing T) = backing <$> tree_at at_ T.
Proof.
  revert T. induction at_ as [|i rest IH]; intros [a cs]; simpl; [done|].
  rewrite list_lookup_map. destruct (cs !! i) as [c|]; simpl; [apply IH|done].
Qed.

Lemma item_at_tree_at at_ T x :
  item_at at_ (backing T) = Some x →
  ∃ t, tree_at at_ T = Some t ∧ getXccdfItemFromTreeItem t = Some x.
Proof.
  unfold item_at. rewrite backing_at_tree_at.
  destruct (tree_at at_ T) as [[a cs]|]; simpl; [|done]. eauto.
Qed.

Lemma tree_at_item_at at_ T t :
  tree_at at_ T = Some t → item_at at_ (backing T) = getXccdfItemFromTreeItem t.
Proof.
  intros Ht. unfold item_at. rewrite backing_at_tree_at, Ht. by destruct t.
Qed.

Lemma backing_tree_put at_ T t t' :
  tree_at at_ T = Some t → backing t' = backing t →
  backing (tree_put at_ t' T) = backing T.
Proof.
  revert T. induction at_ as [|i rest IH]; intros [a cs]; simpl.
  - by intros [= <-].
  - intros Ht Hb. f_equal.
    destruct (cs !! i) as [c|] eqn:Ec; simpl in Ht; [|done].
    apply list_eq. intros j. rewrite !list_lookup_map.
    destruct (decide (i = j)) as [<-|Hne].
    + rewrite list_lookup_alter_eq, Ec. simpl. f_equal. by apply IH.
    + by rewrite list_lookup_alter_ne.
Qed.

Lemma backing_items_at at_ b x :
  item_at at_ b = Some x → x ∈ backing_items b.
Proof.
  unfold item_at. revert b. induction at_ as [|i rest IH]; intros [item cs]; simpl.
  - intros ->. simpl. apply elem_of_cons. by left.
  - destruct (cs !! i) as [c|] eqn:Ec; simpl; [|done]. intros Hx.
    apply elem_of_app. right. apply list_elem_of_In, in_concat.
    exists (backing_items c). split.
    + apply in_map. apply list_elem_of_In, list_elem_of_lookup. eauto.
    + apply list_elem_of_In. by apply IH.
Qed.

(** *** What the commands do to the window *)

Lemma observed_change_policy w w1 w2 fs fv ft fd :
  observed_change w w1 fs fv ft fd → mPolicy w2 = mPolicy w1 →
  observed_change w w2 fs fv ft fd.
Proof.
  unfold observed_change, getCurrentValueValue, getProfileTitle, getProfileDescription,
    mProfile.
  by intros Hc ->.
Qed.

Lemma keeps_rest_panels w w1 w2 :
  keeps_rest w w1 → same_but_panels w1 w2 →
  mXccdfItem (mItemPropertiesDockWidget w2) = mXccdfItem (mItemPropertiesDockWidget w1) →
  keeps_rest w w2.
Proof.
  intros [] (?&Hp&?&?&?) Hi. split; unfold mProfile in *; rewrite ?Hp; congruence.
Qed.

Lemma title_command_effect fuel title w :
  match xccdf_profile_get_title (mProfile w) with
  | [] => ProfileTitleChangeUndoCommand_undo (deliver_panel (S fuel)) title w
          = Throw setProfileTitle_what
  | _ =>
      ∃ w', ProfileTitleChangeUndoCommand_undo (deliver_panel (S fuel)) title w = Ok w'
            ∧ keeps_rest w w'
            ∧ observed_change w w' (fun _ now => now) (fun _ now => now)
                (fun _ => title) (fun now => now)
  end.
Proof.
  unfold ProfileTitleChangeUndoCommand_undo, refreshProfileDockWidget.
  pose proof (setProfileTitle_cases title w) as Hs.
  destruct (xccdf_profile_get_title (mProfile w)) as [|t0 rest] eqn:Et; [by rewrite Hs|].
  destruct Hs as (texts & -> & Hlen & Hpref). simpl.
  destruct (ProfilePropertiesDockWidget_refresh_ok fuel
              (with_mProfile (xccdf_profile_set_title texts) w)) as (w' & -> & Hp & Hi).
  exists w'. split; [done|]. split.
  - eapply keeps_rest_panels; [|exact Hp|by rewrite Hi].
    split; simpl; try done. by rewrite Et.
  - eapply observed_change_policy; [|apply Hp].
    repeat split; try done.
Qed.

Lemma description_command_effect fuel description w :
  match xccdf_profile_get_description (mProfile w) with
  | [] => ProfileDescriptionChangeUndoCommand_undo (deliver_panel (S fuel)) description w
          = Throw setProfileDescription_what
  | _ =>
      ∃ w', ProfileDescriptionChangeUndoCommand_undo (deliver_panel (S fuel)) description w
            = Ok w'
            ∧ keeps_rest w w'
            ∧ observed_change w w' (fun _ now => now) (fun _ now => now)
                (fun now => now) (fun _ => description)
  end.
Proof.
  unfold ProfileDescriptionChangeUndoCommand_undo, refreshProfileDockWidget.
  pose proof (setProfileDescription_cases description w) as Hs.
  destruct (xccdf_profile_get_description (mProfile w)) as [|t0 rest] eqn:Et;
    [by rewrite Hs|].
  destruct Hs as (texts & -> & Hlen & Hpref). simpl.
  destruct (ProfilePropertiesDockWidget_refresh_ok fuel
              (with_mProfile (xccdf_profile_set_description texts) w))
    as (w' & -> & Hp & Hi).
  exists w'. split; [done|]. split.
  - eapply keeps_rest_panels; [|exact Hp|by rewrite Hi].
    split; simpl; try done. by rewrite Et.
  - eapply observed_change_policy; [|apply Hp].
    repeat split; try done.
Qed.

Lemma value_command_effect fuel value newValue w :
  ∃ w', XCCDFValueChangeUndoCommand_undo (deliver_panel (S fuel)) value newValue w = Ok w'
        ∧ keeps_rest w w'
        ∧ observed_change w w' (fun _ now => now)
            (fun v now => if bool_decide (xccdf_value_get_id v = xccdf_value_get_id value)
                          then newValue else now)
            (fun now => now) (fun now => now).
Proof.
  unfold XCCDFValueChangeUndoCommand_undo, refreshXccdfItemPropertiesDockWidget.
  rewrite setValueValue_ok. simpl.
  destruct (XCCDFItemPropertiesDockWidget_refresh_ok fuel (add_setvalue value newValue w))
    as (w' & -> & Hp & _ & Hi & _).
  exists w'. split; [done|]. split.
  - eapply keeps_rest_panels; [|exact Hp|exact Hi]. by split.
  - eapply observed_change_policy; [|apply Hp].
    split; [done|]. split; [|done]. intros v. apply value_after_add.
Qed.

(** The select command, on the tree item it points to. *)
Lemma select_command_effect fuel at_ selected t w x :
  getXccdfItemFromTreeItem t = Some x →
  ∃ t' w', XCCDFItemSelectUndoCommand_redo (deliver_itemChanged (S fuel)) at_ selected (t, w)
           = Ok (t', w')
           ∧ backing t' = backing t
           ∧ keeps_rest w w'
           ∧ observed_change w w'
               (fun y now => if bool_decide (xccdf_item_get_id y = xccdf_item_get_id x)
                             then selected else now)
               (fun _ now => now) (fun now => now) (fun now => now).
Proof.
  intros Hd. unfold XCCDFItemSelectUndoCommand_redo. simpl. rewrite Hd.
  rewrite setItemSelected_ok. simpl. unfold synchronizeTreeItem.
  assert (∃ kids, ∀ (ts : TS),
            (fix synchronizeTreeItem (xccdfItem : xccdf_item) (at_0 : list nat)
                 (recursive : bool) (ts0 : TS) {struct xccdfItem} : result TS :=
               synchronize_one (deliver_itemChanged (S fuel)) xccdfItem
                 match xccdfItem with
                 | XBenchmark _ values content | XGroup _ values content =>
                     map (fun value =>
                            (xccdf_value_to_item value,
                             fun at' => synchronize_one (deliver_itemChanged (S fuel))
                                          (xccdf_value_to_item value) [] at' true)) values
                     ++ map (fun childXccdfItem =>
                               (childXccdfItem,
                                fun at' => synchronizeTreeItem childXccdfItem at' true))
                          content
                 | _ => []
                 end at_0 recursive ts0) x at_ false ts
            = synchronize_one (deliver_itemChanged (S fuel)) x kids at_ false ts)
    as [kids ->].
  { destruct x; eexists; intros ts; reflexivity. }
  unfold synchronize_one. simpl.
  destruct (synchronize_fields_quiet 0 (deliver_itemChanged (S fuel)) x at_ t
              (with_mSynchronizeItemLock S (add_select_to_both x selected w)))
    as (t5 & -> & Hd5 & Hc5 & _); [apply deliver_itemChanged_quiet|simpl; lia|].
  simpl. rewrite with_lock_pred_S.
  eexists _, _. split; [reflexivity|]. split.
  - destruct t as [a cs], t5 as [a5 cs5]. unfold getXccdfItemFromTreeItem in *.
    simpl in *. by rewrite Hd, Hd5, Hc5.
  - split; [by split|]. split; [|done]. intros y. apply selected_after_add.
Qed.

Lemma QUndoCommand_undo_effect fuel items s cmd :
  undoable (backing (itemsTree s)) items (window s) cmd →
  ∃ s', QUndoCommand_undo (S fuel) cmd s = Ok s'
        ∧ backing (itemsTree s') = backing (itemsTree s)
        ∧ keeps_rest (window s) (window s')
        ∧ observed_change (window s) (window s')
            (fun y => undone_selected (backing (itemsTree s)) y cmd)
            (fun v => undone_value v cmd)
            (undone_title cmd) (undone_description cmd).
Proof.
  destruct cmd as [old new|old new|at_ new|value new old]; simpl; intros Hu.
  - pose proof (title_command_effect fuel old (window s)) as He.
    destruct (xccdf_profile_get_title (mProfile (window s))); [done|].
    destruct He as (w' & E & Hk & Ho). unfold on_window. rewrite E. simpl.
    eexists. split; [reflexivity|]. done.
  - pose proof (description_command_effect fuel old (window s)) as He.
    destruct (xccdf_profile_get_description (mProfile (window s))); [done|].
    destruct He as (w' & E & Hk & Ho). unfold on_window. rewrite E. simpl.
    eexists. split; [reflexivity|]. done.
  - destruct Hu as [x Hx]. destruct (item_at_tree_at _ _ _ Hx) as (t & Ht & Hd).
    unfold on_treeItem. rewrite Ht.
    destruct (select_command_effect fuel at_ (negb new) t (window s) x Hd)
      as (t' & w' & E & Hb & Hk & Ho).
    change (XCCDFItemSelectUndoCommand_undo (deliver_itemChanged (S fuel)) at_ new)
      with (XCCDFItemSelectUndoCommand_redo (deliver_itemChanged (S fuel)) at_ (negb new)).
    rewrite E. simpl. eexists. split; [reflexivity|]. simpl.
    split; [by apply (backing_tree_put _ _ t)|]. split; [done|].
    destruct Ho as (Hs & Hv & Ht' & Hd'). repeat split; try done.
    intros y. rewrite Hs. unfold undone_selected. by rewrite Hx.
  - destruct (value_command_effect fuel value old (window s)) as (w' & E & Hk & Ho).
    unfold on_window. rewrite E. simpl. eexists. split; [reflexivity|]. done.
Qed.

Lemma undoable_keeps b items w w' cmd :
  keeps_rest w w' → undoable b items w cmd → undoable b items w' cmd.
Proof.
  intros [] Hu. destruct cmd; simpl in *; try done.
  - intros E. rewrite E in keeps_titles0. simpl in *.
    by destruct (xccdf_profile_get_title (mProfile w)).
  - intros E. rewrite E in keeps_descriptions0. simpl in *.
    by destruct (xccdf_profile_get_description (mProfile w)).
Qed.

Lemma value_with_mUndoStack f v w :
  getCurrentValueValue v (with_mUndoStack f w) = getCurrentValueValue v w.
Proof. done. Qed.

Lemma title_with_mUndoStack f w : getProfileTitle (with_mUndoStack f w) = getProfileTitle w.
Proof. done. Qed.

Lemma description_with_mUndoStack f w :
  getProfileDescription (with_mUndoStack f w) = getProfileDescription w.
Proof. done. Qed.

Lemma applied_commands_S (stack : QUndoStack) i cmd :
  stack_index stack = S i → command_list stack !! i = Some cmd →
  applied_commands stack = take i (command_list stack) ++ [cmd].
Proof. intros Hi Hc. unfold applied_commands. rewrite Hi. by apply take_S_r. Qed.

(** One [undo] keeps the invariant and moves the position down. *)
Lemma QUndoStack_undo_preserves fuel s0 s :
  history_invariant s0 s →
  ∃ s', QUndoStack_undo (S fuel) s = Ok s'
        ∧ history_invariant s0 s'
        ∧ stack_index (mUndoStack (window s')) = pred (stack_index (mUndoStack (window s))).
Proof.
  intros Hinv. unfold QUndoStack_undo.
  destruct (stack_index (mUndoStack (window s))) as [|i] eqn:Ei; [by exists s|].
  destruct (lookup_lt_is_Some_2 (command_list (mUndoStack (window s))) i) as [cmd Hc].
  { pose proof (inv_index _ _ Hinv). lia. }
  rewrite Hc.
  pose proof (applied_commands_S _ _ _ Ei Hc) as Happ.
  pose proof (inv_undoable _ _ Hinv) as Hall. rewrite Happ in Hall.
  apply Forall_app in Hall as [Hinit Hcmd]. inversion Hcmd as [|? ? Hu _]; subst.
  rewrite <- (inv_backing _ _ Hinv) in Hu.
  destruct (QUndoCommand_undo_effect fuel (shown s0) s cmd Hu)
    as (s1 & -> & Hb & Hk & (Hs & Hv & Ht & Hd)).
  simpl. eexists. split; [reflexivity|]. split; [|done].
  assert (Eapp : applied_commands (mUndoStack (window (set_stack_index i s1)))
                 = take i (command_list (mUndoStack (window s)))).
  { unfold applied_commands. simpl. by rewrite (keeps_stack _ _ Hk). }
  split.
  - simpl. rewrite Hb. apply Hinv.
  - simpl. rewrite (keeps_stack _ _ Hk). pose proof (inv_index _ _ Hinv). lia.
  - rewrite Eapp. eapply Forall_impl; [|exact Hinit].
    intros c Hc'. apply (undoable_keeps _ _ (window s)) with (w' := window s1) in Hc';
      [|done]. by destruct c.
  - simpl. rewrite (keeps_item _ _ Hk). apply Hinv.
  - intros y Hy. rewrite Eapp. simpl. rewrite Hs.
    rewrite (inv_backing _ _ Hinv).
    rewrite <- (inv_selected _ _ Hinv y Hy), Happ, foldr_app. done.
  - intros v Hv'. rewrite Eapp. simpl. rewrite value_with_mUndoStack.
    rewrite Hv. rewrite <- (inv_value _ _ Hinv v Hv'), Happ, foldr_app. done.
  - rewrite Eapp. simpl. rewrite title_with_mUndoStack.
    rewrite Ht. rewrite <- (inv_title _ _ Hinv), Happ, foldr_app. done.
  - rewrite Eapp. simpl. rewrite description_with_mUndoStack.
    rewrite Hd. rewrite <- (inv_description _ _ Hinv), Happ, foldr_app. done.
Qed.

Lemma undo_times_restores fuel s0 n s :
  history_invariant s0 s →
  stack_index (mUndoStack (window s)) ≤ n →
  ∃ s', undo_times (S fuel) n s = Ok s'
        ∧ history_invariant s0 s'
        ∧ stack_index (mUndoStack (window s')) = 0.
Proof.
  revert s. induction n as [|n IH]; intros s Hinv Hn; simpl.
  - exists s. split; [done|]. split; [done|]. lia.
  - destruct (QUndoStack_undo_preserves fuel s0 s Hinv) as (s1 & -> & Hinv1 & Hi1).
    simpl. apply IH; [done|lia].
Qed.

(** Undoing a command that has just been executed, and that had recorded
    what was observed, leads back to it. *)
Lemma undone_redone b items w cmd :
  records_current b items w cmd →
  (∀ y, only_one_with_its_id items y →
        undone_selected b y cmd
          (redone_selected b y cmd (getXccdfItemInternalSelected (mPolicy w) y))
        = getXccdfItemInternalSelected (mPolicy w) y)
  ∧ (∀ v, only_one_with_its_id items (xccdf_value_to_item v) →
          undone_value v cmd (redone_value v cmd (getCurrentValueValue v w))
          = getCurrentValueValue v w)
  ∧ undone_title cmd (redone_title cmd (getProfileTitle w)) = getProfileTitle w
  ∧ undone_description cmd (redone_description cmd (getProfileDescription w))
    = getProfileDescription w.
Proof.
  destruct cmd as [old new|old new|at_ new|value new old]; simpl.
  - by intros ->.
  - by intros ->.
  - intros (x & Hx & Hin & Hsel). rewrite Hx. repeat split; try done.
    intros y Hy. case_bool_decide as E; [|done].
    rewrite <- Hsel. f_equal. by apply (Hy x).
  - intros [-> Hin]. repeat split; try done.
    intros v Hv. case_bool_decide as E; [|done].
    assert (xccdf_value_to_item value = xccdf_value_to_item v) as [= ->]; [|done].
    by apply (Hv (xccdf_value_to_item value)).
Qed.

(** A push keeps the invariant. *)
Lemma push_preserves s0 s s' w1 cmd :
  history_invariant s0 s →
  backing (itemsTree s') = backing (itemsTree s) →
  window s' = with_mUndoStack (QUndoStack_enter cmd) w1 →
  keeps_rest (window s) w1 →
  observed_change (window s) w1
    (fun y => redone_selected (backing (itemsTree s0)) y cmd)
    (fun v => redone_value v cmd) (redone_title cmd) (redone_description cmd) →
  records_current (backing (itemsTree s0)) (shown s0) (window s) cmd →
  undoable (backing (itemsTree s0)) (shown s0) w1 cmd →
  history_invariant s0 s'.
Proof.
  intros Hinv Hb Hw Hk (Hs & Hv & Ht & Hd) Hrec Hu.
  pose proof (inv_index _ _ Hinv) as Hwf.
  destruct (undone_redone _ _ _ _ Hrec) as (As & Av & At & Ad).
  assert (Est : mUndoStack (window s') = QUndoStack_enter cmd (mUndoStack (window s))).
  { rewrite Hw. simpl. by rewrite (keeps_stack _ _ Hk). }
  split.
  - rewrite Hb. apply Hinv.
  - rewrite Est. by apply applied_enter_cases.
  - rewrite Est. apply Forall_after_enter; [done| | |].
    + eapply Forall_impl; [|apply Hinv]. intros c Hc. rewrite Hw.
      apply (undoable_keeps _ _ _ w1) in Hc; [|done]. by destruct c.
    + rewrite Hw. by destruct cmd.
    + intros cur merged Hm Hcur. by apply (merged_undoes_like_current _ cur cmd).
  - rewrite Hw. simpl. rewrite (keeps_item _ _ Hk). apply Hinv.
  - intros y Hy. rewrite Est, Hw. simpl. rewrite Hs.
    rewrite <- (inv_selected _ _ Hinv y Hy).
    apply foldr_after_enter; [done|by apply As|].
    intros cur merged Hm. by apply (merged_undoes_like_current _ cur cmd).
  - intros v Hv'. rewrite Est, Hw. rewrite value_with_mUndoStack, Hv.
    rewrite <- (inv_value _ _ Hinv v Hv').
    apply foldr_after_enter; [done|by apply Av|].
    intros cur merged Hm.
    by apply (merged_undoes_like_current (backing (itemsTree s0)) cur cmd).
  - rewrite Est, Hw. rewrite title_with_mUndoStack, Ht.
    rewrite <- (inv_title _ _ Hinv).
    apply foldr_after_enter; [done|by apply At|].
    intros cur merged Hm.
    by apply (merged_undoes_like_current (backing (itemsTree s0)) cur cmd).
  - rewrite Est, Hw. rewrite description_with_mUndoStack, Hd.
    rewrite <- (inv_description _ _ Hinv).
    apply foldr_after_enter; [done|by apply Ad|].
    intros cur merged Hm.
    by apply (merged_undoes_like_current (backing (itemsTree s0)) cur cmd).
Qed.

(** So does what leaves the tree's backing, the stack and the policy alone. *)
Lemma quiet_preserves s0 s s' :
  history_invariant s0 s →
  backing (itemsTree s') = backing (itemsTree s) →
  mUndoStack (window s') = mUndoStack (window s) →
  mPolicy (window s') = mPolicy (window s) →
  (∀ x, mXccdfItem (mItemPropertiesDockWidget (window s')) = Some x → x ∈ shown s0) →
  history_invariant s0 s'.
Proof.
  intros Hinv Hb Hst Hp Hi.
  split.
  - rewrite Hb. apply Hinv.
  - rewrite Hst. apply Hinv.
  - rewrite Hst. eapply Forall_impl; [|apply Hinv]. intros c Hc.
    destruct c; simpl in *; unfold mProfile in *; by rewrite ?Hp.
  - exact Hi.
  - intros y Hy. rewrite Hst, Hp. by apply Hinv.
  - intros v Hv. rewrite Hst. unfold getCurrentValueValue. rewrite Hp. by apply Hinv.
  - rewrite Hst. unfold getProfileTitle, mProfile. rewrite Hp. apply Hinv.
  - rewrite Hst. unfold getProfileDescription, mProfile. rewrite Hp. apply Hinv.
Qed.

(** *** What the user's actions do *)

Lemma shown_backing_items s x : x ∈ backing_items (backing (itemsTree s)) → x ∈ shown s.
Proof. intros Hx. apply elem_of_app. by left. Qed.

Lemma QUndoStack_enter_index cmd stack :
  stack_index (QUndoStack_enter cmd stack) ≤ S (stack_index stack).
Proof.
  unfold QUndoStack_enter. destruct (stack_index stack) as [|below]; [done|].
  destruct (command_list stack !! below) as [cur|]; [|done].
  destruct (_ && _); [|done].
  destruct (QUndoCommand_mergeWith cur cmd); simpl; lia.
Qed.

(** A command pushed from a dock widget: executed on a window that differs
    from the session's in the dock widgets' fields only. *)
Lemma panel_push_preserves s0 s w1 w2 cmd :
  history_invariant s0 s →
  same_but_panels (window s) w1 →
  mXccdfItem (mItemPropertiesDockWidget w1)
  = mXccdfItem (mItemPropertiesDockWidget (window s)) →
  keeps_rest w1 w2 →
  observed_change w1 w2
    (fun y => redone_selected (backing (itemsTree s0)) y cmd)
    (fun v => redone_value v cmd) (redone_title cmd) (redone_description cmd) →
  records_current (backing (itemsTree s0)) (shown s0) w1 cmd →
  undoable (backing (itemsTree s0)) (shown s0) w2 cmd →
  history_invariant s0
    {| itemsTree := itemsTree s; window := with_mUndoStack (QUndoStack_enter cmd) w2 |}
  ∧ stack_index (QUndoStack_enter cmd (mUndoStack w2))
    ≤ S (stack_index (mUndoStack (window s))).
Proof.
  intros Hinv Hp Hi Hk Ho Hrec Hu.
  split; [|rewrite (keeps_stack _ _ Hk); destruct Hp as (_&_&->&_);
           apply QUndoStack_enter_index].
  assert (Hinv1 : history_invariant s0 {| itemsTree := itemsTree s; window := w1 |}).
  { destruct Hp as (?&?&?&?&?).
    apply (quiet_preserves s0 s); simpl; try done.
    rewrite Hi. apply Hinv. }
  by apply (push_preserves s0 {| itemsTree := itemsTree s; window := w1 |} _ w2 cmd).
Qed.

Lemma type_title_preserves fuel s0 s text s' :
  history_invariant s0 s →
  perform (S fuel) (type_title text) s = Ok s' →
  history_invariant s0 s'
  ∧ stack_index (mUndoStack (window s')) ≤ S (stack_index (mUndoStack (window s))).
Proof.
  intros Hinv. simpl. unfold on_window, ui_title_setText.
  set (w1 := with_mProfilePropertiesDockWidget (with_profile_ui_title text) (window s)).
  change (deliver_panel (S (S fuel)) (title_textChanged text) w1)
    with (profileTitleChanged (deliver_panel (S fuel)) text w1).
  unfold profileTitleChanged.
  destruct (profile_mRefreshInProgress (profile_panel w1)).
  - simpl. intros [= <-]. split; [|simpl; lia].
    apply (quiet_preserves s0 s); simpl; try done. apply Hinv.
  - unfold setProfileTitleWithUndoCommand, QUndoStack_push.
    change (ProfileTitleChangeUndoCommand_redo (deliver_panel (S fuel)) text w1)
      with (ProfileTitleChangeUndoCommand_undo (deliver_panel (S fuel)) text w1).
    pose proof (title_command_effect fuel text w1) as He.
    destruct (xccdf_profile_get_title (mProfile w1)) as [|t0 rest] eqn:Et;
      [by rewrite He|].
    destruct He as (w2 & -> & Hk & Ho). simpl. intros [= <-].
    apply (panel_push_preserves s0 s w1 w2); try done.
    simpl. intros E. pose proof (keeps_titles _ _ Hk) as Hl.
    rewrite E, Et in Hl. done.
Qed.

Lemma type_description_preserves fuel s0 s text s' :
  history_invariant s0 s →
  perform (S fuel) (type_description text) s = Ok s' →
  history_invariant s0 s'
  ∧ stack_index (mUndoStack (window s')) ≤ S (stack_index (mUndoStack (window s))).
Proof.
  intros Hinv. simpl. unfold on_window, ui_description_setPlainText.
  set (w1 := with_mProfilePropertiesDockWidget (with_profile_ui_description text) (window s)).
  change (deliver_panel (S (S fuel)) description_textChanged w1)
    with (profileDescriptionChanged (deliver_panel (S fuel)) w1).
  unfold profileDescriptionChanged.
  destruct (profile_mRefreshInProgress (profile_panel w1)).
  - simpl. intros [= <-]. split; [|simpl; lia].
    apply (quiet_preserves s0 s); simpl; try done. apply Hinv.
  - unfold setProfileDescriptionWithUndoCommand, QUndoStack_push.
    set (new := profile_ui_description (profile_panel w1)).
    change (ProfileDescriptionChangeUndoCommand_redo (deliver_panel (S fuel)) new w1)
      with (ProfileDescriptionChangeUndoCommand_undo (deliver_panel (S fuel)) new w1).
    pose proof (description_command_effect fuel new w1) as He.
    destruct (xccdf_profile_get_description (mProfile w1)) as [|t0 rest] eqn:Et;
      [by rewrite He|].
    destruct He as (w2 & -> & Hk & Ho). simpl. intros [= <-].
    apply (panel_push_preserves s0 s w1 w2); try done.
    simpl. intros E. pose proof (keeps_descriptions _ _ Hk) as Hl.
    rewrite E, Et in Hl. done.
Qed.

Lemma edit_value_preserves fuel s0 s text s' :
  history_invariant s0 s →
  perform (S fuel) (edit_value text) s = Ok s' →
  history_invariant s0 s'
  ∧ stack_index (mUndoStack (window s')) ≤ S (stack_index (mUndoStack (window s))).
Proof.
  intros Hinv. simpl. unfold on_window, ui_valueComboBox_setEditText.
  set (w1 := with_mItemPropertiesDockWidget _ (window s)).
  change (deliver_panel (S (S fuel)) (valueComboBox_editTextChanged text) w1)
    with (valueChanged (deliver_panel (S fuel)) text w1).
  unfold valueChanged.
  destruct (item_mRefreshInProgress (item_panel w1)).
  - simpl. intros [= <-]. split; [|simpl; lia].
    apply (quiet_preserves s0 s); simpl; try done. apply Hinv.
  - destruct (mXccdfItem (item_panel w1)) as [item|] eqn:Ei; [|done]. simpl.
    destruct (xccdf_item_to_value item) as [value|] eqn:Ev; [|done].
    assert (item = xccdf_value_to_item value) as ->
      by (destruct item; simpl in Ev; try done; by injection Ev as ->).
    unfold setValueValueWithUndoCommand, QUndoStack_push.
    change (XCCDFValueChangeUndoCommand_redo (deliver_panel (S fuel)) value text w1)
      with (XCCDFValueChangeUndoCommand_undo (deliver_panel (S fuel)) value text w1).
    destruct (value_command_effect fuel value text w1) as (w2 & -> & Hk & Ho).
    simpl. intros [= <-].
    assert (Hin : xccdf_value_to_item value ∈ shown s0) by (by apply (inv_item _ _ Hinv)).
    apply (panel_push_preserves s0 s w1 w2); try done.
Qed.

Lemma select_item_preserves fuel s0 s at_ s' :
  history_invariant s0 s →
  perform (S fuel) (select_item at_) s = Ok s' →
  history_invariant s0 s'
  ∧ stack_index (mUndoStack (window s')) ≤ S (stack_index (mUndoStack (window s))).
Proof.
  intros Hinv. simpl. unfold itemSelectionChanged.
  destruct (tree_at at_ (itemsTree s)) as [t|] eqn:Et; [|done].
  unfold on_window, setXccdfItem.
  destruct (XCCDFItemPropertiesDockWidget_refresh_ok fuel
              (with_mItemPropertiesDockWidget
                 (with_mXccdfItem (getXccdfItemFromTreeItem t)) (window s)))
    as (w' & -> & (_ & Hp & Hst & _) & _ & Hi & _).
  simpl. intros [= <-]. split; [|simpl; rewrite Hst; simpl; lia].
  apply (quiet_preserves s0 s); simpl; try done.
  intros x. rewrite Hi. simpl. intros Hx.
  apply shown_backing_items. rewrite <- (inv_backing _ _ Hinv).
  apply (backing_items_at at_). by rewrite (tree_at_item_at _ _ t).
Qed.

(** What the slot of the tree returns, with the library keeping its contract. *)
Lemma itemChanged_slot_outcome fuel at_ t w :
  (∃ t', deliver_itemChanged (S (S fuel)) at_ (t, w) = Ok (t', w)
         ∧ backing t' = backing t)
  ∨ (∃ x t' w1,
       getXccdfItemFromTreeItem t = Some x
       ∧ getXccdfItemInternalSelected (mPolicy w) x
         = negb (bool_decide (checkState t = Qt_Checked))
       ∧ deliver_itemChanged (S (S fuel)) at_ (t, w)
         = Ok (t', with_mUndoStack
                     (QUndoStack_enter
                        (XCCDFItemSelectUndoCommand at_
                           (bool_decide (checkState t = Qt_Checked)))) w1)
       ∧ backing t' = backing t
       ∧ keeps_rest w w1
       ∧ observed_change w w1
           (fun y now => if bool_decide (xccdf_item_get_id y = xccdf_item_get_id x)
                         then bool_decide (checkState t = Qt_Checked) else now)
           (fun _ now => now) (fun now => now) (fun now => now)).
Proof.
  rewrite deliver_itemChanged_S. unfold itemChanged_slot. simpl.
  case_bool_decide; [left; eauto|].
  destruct (getXccdfItemFromTreeItem t) as [x|] eqn:Ed; [|left; eauto].
  case_bool_decide; [left; eauto|].
  destruct (eqb _ _) eqn:Ee; simpl.
  - left. eexists. split; [reflexivity|]. apply backing_syncChildren.
  - right. unfold QUndoStack_push.
    destruct (select_command_effect fuel at_ (bool_decide (checkState t = Qt_Checked))
                t w x Ed) as (t2 & w2 & -> & Hb & Hk & Ho).
    simpl. exists x. eexists _, w2. split; [done|]. split.
    + apply eqb_false_iff in Ee.
      destruct (getXccdfItemInternalSelected (mPolicy w) x),
        (bool_decide (checkState t = Qt_Checked)); done.
    + split; [reflexivity|]. split; [|done].
      by rewrite backing_syncChildren.
Qed.

Lemma click_checkbox_preserves fuel s0 s at_ state s' :
  history_invariant s0 s →
  perform (S fuel) (click_checkbox at_ state) s = Ok s' →
  history_invariant s0 s'
  ∧ stack_index (mUndoStack (window s')) ≤ S (stack_index (mUndoStack (window s))).
Proof.
  intros Hinv. simpl. unfold on_treeItem, treeItem_set.
  destruct (tree_at at_ (itemsTree s)) as [t|] eqn:Et; [|done]. simpl.
  set (t1 := with_fields (set_checkState state) t).
  assert (Hb1 : backing t1 = backing t) by (by apply backing_with_fields).
  assert (Hd1 : getXccdfItemFromTreeItem t1 = getXccdfItemFromTreeItem t)
    by (by destruct t).
  destruct (itemChanged_slot_outcome fuel at_ t1 (window s))
    as [(t' & -> & Hb)|(x & t' & w1 & Hx & Hsel & -> & Hb & Hk & Ho)].
  - simpl. intros [= <-]. split; [|simpl; lia].
    apply (quiet_preserves s0 s); simpl; try done.
    + apply (backing_tree_put _ _ t); [done|congruence].
    + apply Hinv.
  - simpl. intros [= <-].
    split; [|simpl; rewrite (keeps_stack _ _ Hk); apply QUndoStack_enter_index].
    assert (Hat : item_at at_ (backing (itemsTree s0)) = Some x).
    { rewrite <- (inv_backing _ _ Hinv), (tree_at_item_at _ _ t) by done. congruence. }
    apply (push_preserves s0 s _ w1
             (XCCDFItemSelectUndoCommand at_ (bool_decide (checkState t1 = Qt_Checked))));
      simpl; try done.
    + apply (backing_tree_put _ _ t); [done|congruence].
    + destruct Ho as (Hs & Hv & Ht & Hd). repeat split; try done.
      intros y. rewrite Hs. unfold redone_selected. by rewrite Hat.
    + exists x. split; [done|]. split; [|done].
      apply shown_backing_items. by apply (backing_items_at at_).
Qed.

Lemma perform_all_preserves fuel s0 actions s s' :
  history_invariant s0 s →
  perform_all (S fuel) actions s = Ok s' →
  history_invariant s0 s'
  ∧ stack_index (mUndoStack (window s'))
    ≤ stack_index (mUndoStack (window s)) + length actions.
Proof.
  revert s. induction actions as [|action rest IH]; intros s Hinv; simpl.
  - intros [= <-]. split; [done|lia].
  - destruct (perform (S fuel) action s) as [s1| | | |] eqn:E1; try done. simpl.
    intros E.
    assert (Hinv1 : history_invariant s0 s1
                    ∧ stack_index (mUndoStack (window s1))
                      ≤ S (stack_index (mUndoStack (window s)))).
    { destruct action.
      - by apply (type_title_preserves fuel s0 s text).
      - by apply (type_description_preserves fuel s0 s text).
      - by apply (edit_value_preserves fuel s0 s text).
      - by apply (click_checkbox_preserves fuel s0 s at_ state).
      - by apply (select_item_preserves fuel s0 s at_). }
    destruct Hinv1 as [Hinv1 Hle1].
    destruct (IH s1 Hinv1 E) as [Hinv' Hle]. split; [done|]. lia.
Qed.

Lemma history_invariant_initial s0 :
  stack_index (mUndoStack (window s0)) = 0 → history_invariant s0 s0.
Proof.
  intros Hi.
  assert (Ea : applied_commands (mUndoStack (window s0)) = [])
    by (unfold applied_commands; by rewrite Hi).
  split; rewrite ?Ea; simpl; try done.
  - lia.
  - intros x Hx. apply elem_of_app. right. rewrite Hx. simpl. apply elem_of_cons. by left.
Qed.

(** C1: in a window with nothing to undo, after any sequence of actions of
    the user (each pushes at most one command: a select toggle, a value
    change, a title or a description change), as many calls of [undo] as
    there were actions succeed and leave the position at 0, the title, the
    description, the value of every value and the selection of every item
    as they were before the sequence.  (Items and values are told apart by
    their identifier, as the policy looks them up: the statement is about
    those that share theirs with no other item the window shows.) *)
Theorem undo_restores_external_state (fuel : nat) (actions : list user_action)
    (s0 s1 : Session) :
  stack_index (mUndoStack (window s0)) = 0 →
  perform_all (S fuel) actions s0 = Ok s1 →
  ∃ s2, undo_times (S fuel) (length actions) s1 = Ok s2
        ∧ stack_index (mUndoStack (window s2)) = 0
        ∧ (∀ y, only_one_with_its_id (shown s0) y →
                getXccdfItemInternalSelected (mPolicy (window s2)) y
                = getXccdfItemInternalSelected (mPolicy (window s0)) y)
        ∧ (∀ v, only_one_with_its_id (shown s0) (xccdf_value_to_item v) →
                getCurrentValueValue v (window s2) = getCurrentValueValue v (window s0))
        ∧ getProfileTitle (window s2) = getProfileTitle (window s0)
        ∧ getProfileDescription (window s2) = getProfileDescription (window s0).
Proof.
  intros Hi Hp.
  destruct (perform_all_preserves fuel s0 actions s0 s1 (history_invariant_initial s0 Hi) Hp)
    as [Hinv Hle].
  destruct (undo_times_restores fuel s0 (length actions) s1 Hinv) as (s2 & E & Hinv2 & Hi2);
    [lia|].
  exists s2. split; [done|]. split; [done|].
  assert (Ea : applied_commands (mUndoStack (window s2)) = [])
    by (unfold applied_commands; by rewrite Hi2).
  pose proof (inv_selected _ _ Hinv2) as Hs.
  pose proof (inv_value _ _ Hinv2) as Hv.
  pose proof (inv_title _ _ Hinv2) as Ht.
  pose proof (inv_description _ _ Hinv2) as Hd.
  rewrite Ea in Hs, Hv, Ht, Hd. simpl in *. done.
Qed.

(** ** Closing the window *)

Lemma QUndoCommand_undo_adds fuel cmd s s' :
  QUndoCommand_undo (S fuel) cmd s = Ok s' → only_adds_overrides (window s) (window s').
Proof.
  destruct cmd as [old new|old new|at_ new|value new old]; simpl.
  - unfold on_window.
    destruct (ProfileTitleChangeUndoCommand_undo _ old _) as [w'| | | |] eqn:E; try done.
    intros [= <-]. by apply (title_run_adds _ fuel) in E as [? _].
  - unfold on_window.
    destruct (ProfileDescriptionChangeUndoCommand_undo _ old _) as [w'| | | |] eqn:E;
      try done.
    intros [= <-]. by apply (description_run_adds _ fuel) in E as [? _].
  - unfold on_treeItem. destruct (tree_at at_ (itemsTree s)) as [t|]; [|done].
    change (XCCDFItemSelectUndoCommand_undo (deliver_itemChanged (S fuel)) at_ new)
      with (XCCDFItemSelectUndoCommand_redo (deliver_itemChanged (S fuel)) at_ (negb new)).
    destruct (XCCDFItemSelectUndoCommand_redo _ at_ (negb new) _) as [[t' w']| | | |] eqn:E;
      try done.
    intros [= <-]. by apply select_run_adds in E as [? _].
  - unfold on_window.
    destruct (XCCDFValueChangeUndoCommand_undo _ value old _) as [w'| | | |] eqn:E;
      try done.
    intros [= <-]. by apply (value_run_adds _ fuel) in E as [? _].
Qed.

(** The loop of [QUndoStack::setIndex] that undoes: what it leaves of what
    is observed of the policy. *)
Lemma undo_down_to_effect fuel items (commands : list QUndoCommand) i s :
  i ≤ length commands →
  Forall (undoable (backing (itemsTree s)) items (window s)) (take i commands) →
  ∃ s', undo_down_to (S fuel) commands i i s = Ok s'
        ∧ backing (itemsTree s') = backing (itemsTree s)
        ∧ keeps_rest (window s) (window s')
        ∧ mNewProfile (window s') = mNewProfile (window s)
        ∧ mChangesConfirmed (window s') = mChangesConfirmed (window s)
        ∧ observed_change (window s) (window s')
            (fun y now => foldr (undone_selected (backing (itemsTree s)) y) now
                            (take i commands))
            (fun v now => foldr (undone_value v) now (take i commands))
            (fun now => foldr undone_title now (take i commands))
            (fun now => foldr undone_description now (take i commands)).
Proof.
  revert s. induction i as [|i IH]; intros s Hi Hall.
  - exists s. simpl. by repeat split.
  - destruct (lookup_lt_is_Some_2 commands i) as [cmd Hc]; [lia|].
    rewrite (take_S_r _ _ cmd Hc) in Hall |- *.
    apply Forall_app in Hall as [Hinit Hcmd]. inversion Hcmd as [|? ? Hu _]; subst.
    simpl. rewrite Nat.sub_0_r, Hc.
    destruct (QUndoCommand_undo_effect fuel items s cmd Hu)
      as (s1 & E1 & Hb & Hk & (Hs & Hv & Ht & Hd)).
    rewrite E1. simpl.
    apply QUndoCommand_undo_adds in E1 as Ha.
    destruct (IH s1) as (s' & -> & Hb' & Hk' & Hn' & Hc' & (Hs' & Hv' & Ht' & Hd'));
      [lia| |].
    { rewrite Hb. eapply Forall_impl; [|exact Hinit].
      intros c. by apply undoable_keeps. }
    exists s'. split; [done|]. split; [congruence|].
    split.
    { destruct Hk, Hk'. split; congruence. }
    split; [rewrite Hn'; apply Ha|]. split; [rewrite Hc'; apply Ha|].
    repeat split.
    + intros y. rewrite Hs', Hs, Hb, foldr_app. done.
    + intros v. rewrite Hv', Hv, foldr_app. done.
    + rewrite Ht', Ht, foldr_app. done.
    + rewrite Hd', Hd, foldr_app. done.
Qed.

Lemma history_invariant_flags s0 s newProfile changesConfirmed :
  history_invariant s0 s →
  history_invariant s0 (with_window (with_flags newProfile changesConfirmed) s).
Proof.
  intros []. by split.
Qed.

(** Closing with the answer Yes, from a state that has not been confirmed. *)
Lemma close_yes_restores fuel s0 s mParentMainWindow :
  history_invariant s0 s →
  mChangesConfirmed (window s) = false →
  ∃ s2, closeEvent (S fuel) mParentMainWindow QMessageBox_Yes s
        = Ok (s2, {| event_accepted := true;
                     QMainWindow_closeEvent_called := true;
                     notifyTailoringFinished :=
                       if mParentMainWindow
                       then Some (mNewProfile (window s), false) else None |})
        ∧ stack_index (mUndoStack (window s2)) = 0
        ∧ command_list (mUndoStack (window s2)) = command_list (mUndoStack (window s))
        ∧ backing (itemsTree s2) = backing (itemsTree s0)
        ∧ (∀ y, only_one_with_its_id (shown s0) y →
                getXccdfItemInternalSelected (mPolicy (window s2)) y
                = getXccdfItemInternalSelected (mPolicy (window s0)) y)
        ∧ (∀ v, only_one_with_its_id (shown s0) (xccdf_value_to_item v) →
                getCurrentValueValue v (window s2) = getCurrentValueValue v (window s0))
        ∧ getProfileTitle (window s2) = getProfileTitle (window s0)
        ∧ getProfileDescription (window s2) = getProfileDescription (window s0).
Proof.
  intros Hinv Hcc. unfold closeEvent. rewrite Hcc. simpl.
  unfold QUndoStack_setIndex. simpl.
  rewrite Nat.sub_0_r.
  destruct (undo_down_to_effect fuel (shown s0) (command_list (mUndoStack (window s)))
              (stack_index (mUndoStack (window s))) s)
    as (s' & -> & Hb & Hk & Hn & Hc & (Hs & Hv & Ht & Hd)).
  { apply Hinv. }
  { rewrite (inv_backing _ _ Hinv). apply Hinv. }
  simpl. eexists. split.
  { rewrite Hn, Hc, Hcc. reflexivity. }
  simpl. split; [done|]. split; [by rewrite (keeps_stack _ _ Hk)|].
  split; [rewrite Hb; apply Hinv|].
  repeat split.
  - intros y Hy. rewrite Hs, (inv_backing _ _ Hinv). by apply (inv_selected _ _ Hinv).
  - intros v Hv'. rewrite value_with_mUndoStack, Hv. by apply (inv_value _ _ Hinv).
  - rewrite title_with_mUndoStack, Ht. apply (inv_title _ _ Hinv).
  - rewrite description_with_mUndoStack, Hd. apply (inv_description _ _ Hinv).
Qed.

(** X15: Discarding (lines 822-858).  After whatever the user has done since the
    history was empty, [deleteProfileAndDiscard] answered with Yes, and
    [closeEvent] answered with Yes while nothing is confirmed, undo every
    command: selection, values, title and description are those of the
    start, the tree shows the same items, the position of the history is 0
    with its commands still there to redo.  The close goes through, and the
    parent is told that nothing is confirmed; after
    [deleteProfileAndDiscard], also that the profile is new. *)
Theorem discard_restores_initial (fuel : nat) (actions : list user_action)
    (s0 s1 : Session) (mParentMainWindow : bool) :
  let restored newProfile (outcome : result (Session * close_report)) :=
    ∃ s2, outcome
          = Ok (s2, {| event_accepted := true;
                       QMainWindow_closeEvent_called := true;
                       notifyTailoringFinished :=
                         if mParentMainWindow then Some (newProfile, false) else None |})
          ∧ stack_index (mUndoStack (window s2)) = 0
          ∧ command_list (mUndoStack (window s2)) = command_list (mUndoStack (window s1))
          ∧ backing (itemsTree s2) = backing (itemsTree s0)
          ∧ (∀ y, only_one_with_its_id (shown s0) y →
                  getXccdfItemInternalSelected (mPolicy (window s2)) y
                  = getXccdfItemInternalSelected (mPolicy (window s0)) y)
          ∧ (∀ v, only_one_with_its_id (shown s0) (xccdf_value_to_item v) →
                  getCurrentValueValue v (window s2) = getCurrentValueValue v (window s0))
          ∧ getProfileTitle (window s2) = getProfileTitle (window s0)
          ∧ getProfileDescription (window s2) = getProfileDescription (window s0) in
  stack_index (mUndoStack (window s0)) = 0 →
  perform_all (S fuel) actions s0 = Ok s1 →
  restored true (deleteProfileAndDiscard (S fuel) mParentMainWindow QMessageBox_Yes s1)
  ∧ (mChangesConfirmed (window s1) = false →
     restored (mNewProfile (window s1))
       (closeEvent (S fuel) mParentMainWindow QMessageBox_Yes s1)).
Proof.
  intros restored Hstart Hrun. subst restored.
  destruct (perform_all_preserves fuel s0 actions s0 s1) as [Hinv _];
    [by apply history_invariant_initial|done|].
  split.
  - unfold deleteProfileAndDiscard.
    destruct (close_yes_restores fuel s0 (with_window (with_flags true false) s1)
                mParentMainWindow) as (s2 & E & Hres); [by apply history_invariant_flags|done|].
    exists s2. split; [exact E|exact Hres].
  - intros Hcc.
    destruct (close_yes_restores fuel s0 s1 mParentMainWindow) as (s2 & E & Hres);
      [done|done|].
    exists s2. split; [exact E|exact Hres].
Qed.

(** ** Clicking a check box *)

Lemma sync_children_disabled t enabled i :
  isDisabled <$> children_of (_syncXCCDFItemChildrenDisabledState t enabled) !! i
  = (fun _ => negb enabled) <$> children_of t !! i.
Proof.
  destruct t as [fields children]. simpl. rewrite list_lookup_map.
  destruct (children !! i) as [c|]; [|done]. simpl. f_equal.
  destruct enabled, (isDisabled c) eqn:Ed; simpl; rewrite ?isDisabled_setDisabled; done.
Qed.

Lemma sync_children_const {B} (b : B) t enabled i :
  (fun _ => b) <$> children_of (_syncXCCDFItemChildrenDisabledState t enabled) !! i
  = (fun _ => b) <$> children_of t !! i.
Proof.
  destruct t as [fields children]. simpl. rewrite list_lookup_map.
  by destruct (children !! i).
Qed.

Lemma sync_children_fields f t enabled :
  fields_of (_syncXCCDFItemChildrenDisabledState (with_fields f t) enabled)
  = f (fields_of t).
Proof. by destruct t. Qed.


(** ** Undoing and redoing one command *)

Lemma QUndoCommand_redo_effect fuel items s cmd :
  undoable (backing (itemsTree s)) items (window s) cmd →
  ∃ s', QUndoCommand_redo (S fuel) cmd s = Ok s'
        ∧ backing (itemsTree s') = backing (itemsTree s)
        ∧ keeps_rest (window s) (window s')
        ∧ observed_change (window s) (window s')
            (fun y => redone_selected (backing (itemsTree s)) y cmd)
            (fun v => redone_value v cmd)
            (redone_title cmd) (redone_description cmd).
Proof.
  destruct cmd as [old new|old new|at_ new|value new old]; simpl; intros Hu.
  - change (ProfileTitleChangeUndoCommand_redo (deliver_panel (S fuel)) new)
      with (ProfileTitleChangeUndoCommand_undo (deliver_panel (S fuel)) new).
    pose proof (title_command_effect fuel new (window s)) as He.
    destruct (xccdf_profile_get_title (mProfile (window s))); [done|].
    destruct He as (w' & E & Hk & Ho). unfold on_window. rewrite E. simpl.
    eexists. split; [reflexivity|]. done.
  - change (ProfileDescriptionChangeUndoCommand_redo (deliver_panel (S fuel)) new)
      with (ProfileDescriptionChangeUndoCommand_undo (deliver_panel (S fuel)) new).
    pose proof (description_command_effect fuel new (window s)) as He.
    destruct (xccdf_profile_get_description (mProfile (window s))); [done|].
    destruct He as (w' & E & Hk & Ho). unfold on_window. rewrite E. simpl.
    eexists. split; [reflexivity|]. done.
  - destruct Hu as [x Hx]. destruct (item_at_tree_at _ _ _ Hx) as (t & Ht & Hd).
    unfold on_treeItem. rewrite Ht.
    destruct (select_command_effect fuel at_ new t (window s) x Hd)
      as (t' & w' & E & Hb & Hk & Ho).
    rewrite E. simpl. eexists. split; [reflexivity|]. simpl.
    split; [by apply (backing_tree_put _ _ t)|]. split; [done|].
    destruct Ho as (Hs & Hv & Ht' & Hd'). repeat split; try done.
    intros y. rewrite Hs. unfold redone_selected. by rewrite Hx.
  - change (XCCDFValueChangeUndoCommand_redo (deliver_panel (S fuel)) value new)
      with (XCCDFValueChangeUndoCommand_undo (deliver_panel (S fuel)) value new).
    destruct (value_command_effect fuel value new (window s)) as (w' & E & Hk & Ho).
    unfold on_window. rewrite E. simpl. eexists. split; [reflexivity|]. done.
Qed.

Lemma in_effect_undoable b w cmd :
  in_effect b w cmd → undoable b (command_items b cmd) w cmd.
Proof.
  destruct cmd as [old new|old new|at_ new|value new old]; simpl.
  - by intros [? _].
  - by intros [? _].
  - intros (x & -> & _). by eexists.
  - intros _. apply elem_of_cons. by left.
Qed.

(** X17: Undo followed by redo (Qt's [QUndoStack::undo] and [QUndoStack::redo]
    on the commands of lines 229-386).  When the command below the position
    of the history is in effect, undoing it succeeds and puts in force what
    the command had recorded as old; redoing it then succeeds as well, and
    leads back: the history is as it was, the tree shows the same items, the
    title and the description are as they were, and so are the selection
    and the values of all items but those that share their id with the
    item of the command without being it. *)
Theorem undo_then_redo (fuel : nat) (s : Session) (idx : nat) (cmd : QUndoCommand) :
  let b := backing (itemsTree s) in
  stack_index (mUndoStack (window s)) = S idx →
  command_list (mUndoStack (window s)) !! idx = Some cmd →
  in_effect b (window s) cmd →
  ∃ s1 s2,
    QUndoStack_undo (S fuel) s = Ok s1
    ∧ QUndoStack_redo (S fuel) s1 = Ok s2
    ∧ stack_index (mUndoStack (window s1)) = idx
    ∧ observed_change (window s) (window s1)
        (fun y => undone_selected b y cmd) (fun v => undone_value v cmd)
        (undone_title cmd) (undone_description cmd)
    ∧ mUndoStack (window s2) = mUndoStack (window s)
    ∧ backing (itemsTree s2) = b
    ∧ (∀ y, only_one_with_its_id (command_items b cmd) y →
            getXccdfItemInternalSelected (mPolicy (window s2)) y
            = getXccdfItemInternalSelected (mPolicy (window s)) y)
    ∧ (∀ v, only_one_with_its_id (command_items b cmd) (xccdf_value_to_item v) →
            getCurrentValueValue v (window s2) = getCurrentValueValue v (window s))
    ∧ getProfileTitle (window s2) = getProfileTitle (window s)
    ∧ getProfileDescription (window s2) = getProfileDescription (window s).
Proof.
  intros b Hi Hc Heff.
  pose proof (in_effect_undoable _ _ _ Heff) as Hu.
  destruct (QUndoCommand_undo_effect fuel _ s cmd Hu)
    as (s1 & E1 & Hb1 & Hk1 & (Hs1 & Hv1 & Ht1 & Hd1)).
  assert (Hu1 : undoable (backing (itemsTree (set_stack_index idx s1)))
                  (command_items b cmd) (window (set_stack_index idx s1)) cmd).
  { simpl. rewrite Hb1. apply (undoable_keeps _ _ (window s)) with (w' := window s1) in Hu;
      [|done]. by destruct cmd. }
  destruct (QUndoCommand_redo_effect fuel _ (set_stack_index idx s1) cmd Hu1)
    as (s2 & E2 & Hb2 & Hk2 & (Hs2 & Hv2 & Ht2 & Hd2)).
  simpl in Hb2, Hk2, Hs2, Hv2, Ht2, Hd2.
  rewrite title_with_mUndoStack in Ht2. rewrite description_with_mUndoStack in Hd2.
  assert (Hv2' : ∀ v, getCurrentValueValue v (window s2)
                      = redone_value v cmd (getCurrentValueValue v (window s1))).
  { intros v. by rewrite Hv2, value_with_mUndoStack. }
  clear Hv2.
  exists (set_stack_index idx s1), (set_stack_index (S idx) s2).
  split.
  { unfold QUndoStack_undo. cbv zeta. by rewrite Hi, Hc, E1. }
  split.
  { unfold QUndoStack_redo. cbv zeta. simpl. rewrite (keeps_stack _ _ Hk1), Hc.
    by rewrite E2. }
  simpl. split; [done|].
  split.
  { unfold observed_change.
    rewrite title_with_mUndoStack, description_with_mUndoStack. by repeat split. }
  split.
  { rewrite (keeps_stack _ _ Hk2). simpl. rewrite (keeps_stack _ _ Hk1).
    destruct (mUndoStack (window s)) as [cmds index]. simpl in *. by rewrite Hi. }
  split; [by rewrite Hb2, Hb1|].
  rewrite Hb1 in Hs2. fold b in Hs1, Hs2.
  rewrite ?title_with_mUndoStack, ?description_with_mUndoStack.
  assert (Hvs : ∀ v f w, getCurrentValueValue v (with_mUndoStack f w)
                         = getCurrentValueValue v w) by done.
  destruct cmd as [old new|old new|at_ new|value new old]; simpl in *.
  - destruct Heff as [_ Heff]. repeat split; try (intros; rewrite ?Hvs; congruence).
  - destruct Heff as [_ Heff]. repeat split; try (intros; rewrite ?Hvs; congruence).
  - destruct Heff as (x & Hx & Hsel). rewrite Hx in *. simpl.
    repeat split; try (intros; rewrite ?Hvs; congruence).
    intros y Hy. rewrite Hs2, Hs1. case_bool_decide as Eid; [|done].
    rewrite <- Hsel. f_equal. apply (Hy x); [|done].
    apply elem_of_cons. by left.
  - repeat split; try (intros; rewrite ?Hvs; congruence).
    intros v Hv. rewrite Hvs, Hv2', Hv1.
    case_bool_decide as Eid; [|done].
    assert (xccdf_value_to_item value = xccdf_value_to_item v) as [= ->]; [|done].
    apply (Hv (xccdf_value_to_item value)); [|done]. apply elem_of_cons. by left.
Qed.

(** ** Editing a value *)

(** X18: Typing in the value editor (lines 215-221, 728-731, 338-386) while the
    item dock widget shows a Value and is not refreshing: the edit succeeds,
    the value of that Value in the policy becomes the text typed, the values
    with another id are as they were, and so are the selection, the title
    and the description; the change enters the history with the value as it
    was before the edit as the one to go back to.  The dock widget is still
    on the same item, and the tree is untouched. *)
Theorem value_edit_effect (fuel : nat) (s : Session) (value : xccdf_value) (text : string) :
  let w := window s in
  item_mRefreshInProgress (mItemPropertiesDockWidget w) = false →
  mXccdfItem (mItemPropertiesDockWidget w) = Some (xccdf_value_to_item value) →
  ∃ s1, perform (S fuel) (edit_value text) s = Ok s1
        ∧ itemsTree s1 = itemsTree s
        ∧ getCurrentValueValue value (window s1) = text
        ∧ (∀ v, xccdf_value_get_id v ≠ xccdf_value_get_id value →
                getCurrentValueValue v (window s1) = getCurrentValueValue v w)
        ∧ (∀ y, getXccdfItemInternalSelected (mPolicy (window s1)) y
                = getXccdfItemInternalSelected (mPolicy w) y)
        ∧ getProfileTitle (window s1) = getProfileTitle w
        ∧ getProfileDescription (window s1) = getProfileDescription w
        ∧ mUndoStack (window s1)
          = QUndoStack_enter
              (XCCDFValueChangeUndoCommand value text (getCurrentValueValue value w))
              (mUndoStack w)
        ∧ mXccdfItem (mItemPropertiesDockWidget (window s1))
          = Some (xccdf_value_to_item value)
        ∧ mSynchronizeItemLock (window s1) = mSynchronizeItemLock w.
Proof.
  intros w Hr Hx. subst w. destruct s as [tree w]. simpl in Hr, Hx |- *.
  unfold perform, on_window, ui_valueComboBox_setEditText. simpl.
  set (w0 := with_mItemPropertiesDockWidget _ w).
  assert (Hr0 : item_mRefreshInProgress (mItemPropertiesDockWidget w0) = false) by done.
  assert (Hx0 : mXccdfItem (mItemPropertiesDockWidget w0) = Some (xccdf_value_to_item value))
    by done.
  assert (Hv0 : ∀ v, getCurrentValueValue v w0 = getCurrentValueValue v w) by done.
  assert (Hs0 : mUndoStack w0 = mUndoStack w) by done.
  assert (Hp0 : mPolicy w0 = mPolicy w) by done.
  assert (Hl0 : mSynchronizeItemLock w0 = mSynchronizeItemLock w) by done.
  clearbody w0.
  rewrite deliver_panel_S. unfold panel_slot, valueChanged, item_panel.
  rewrite Hr0, Hx0. simpl.
  unfold setValueValueWithUndoCommand, QUndoStack_push.
  change (XCCDFValueChangeUndoCommand_redo (deliver_panel (S fuel)) value text)
    with (XCCDFValueChangeUndoCommand_undo (deliver_panel (S fuel)) value text).
  destruct (value_command_effect fuel value text w0)
    as (w1 & -> & Hk & (Hsel & Hval & Ht & Hd)).
  simpl. eexists. split; [reflexivity|]. simpl.
  split; [done|].
  split; [rewrite value_with_mUndoStack, Hval; by rewrite bool_decide_eq_true_2|].
  split.
  { intros v Hv. rewrite value_with_mUndoStack, Hval, Hv0.
    by rewrite bool_decide_eq_false_2. }
  split; [intros y; by rewrite Hsel, Hp0|].
  split; [rewrite title_with_mUndoStack, Ht; unfold getProfileTitle, mProfile;
          by rewrite Hp0|].
  split; [rewrite description_with_mUndoStack, Hd; unfold getProfileDescription, mProfile;
          by rewrite Hp0|].
  split; [by rewrite (keeps_stack _ _ Hk), Hs0, Hv0|].
  split; [by rewrite (keeps_item _ _ Hk)|].
  by rewrite (keeps_lock _ _ Hk).
Qed.

End RoundTrip.

End Facts.

(** * Runs on the small document *)

#[local] Existing Instance layered_OpenSCAP.

(** The constructor succeeds on the small document, and shows it in order. *)
Example demo_session_built :
  @TailoringWindow_new layered_OpenSCAP 1 (Some demo_policy) (Some demo_benchmark) false
  = Ok demo_session
  ∧ backing (itemsTree demo_session) = mirror demo_benchmark.
Proof. split; vm_compute; reflexivity. Qed.

(** Both outcomes of the two checks occur: with the layered library the
    override is seen at once, with the stale one a second override of the
    same item is not. *)
Example setItemSelected_stale_throws :
  is_Ok (w1 ← @setItemSelected layered_OpenSCAP demo_rule_a true demo_window;
         @setItemSelected layered_OpenSCAP demo_rule_a false w1) = true
  ∧ is_Ok (@setItemSelected stale_OpenSCAP demo_rule_a true demo_window) = true
  ∧ ∃ what, (w1 ← @setItemSelected stale_OpenSCAP demo_rule_a true demo_window;
             @setItemSelected stale_OpenSCAP demo_rule_a false w1) = Throw what.
Proof. split; [reflexivity|]. split; [reflexivity|]. eexists. vm_compute. reflexivity. Qed.

Example setValueValue_stale_fails :
  is_Ok (w1 ← @setValueValue layered_OpenSCAP demo_banner "Hello" demo_window;
         @setValueValue layered_OpenSCAP demo_banner "Goodbye" w1) = true
  ∧ (w1 ← @setValueValue stale_OpenSCAP demo_banner "Hello" demo_window;
     @setValueValue stale_OpenSCAP demo_banner "Goodbye" w1) = AssertionFailed.
Proof. split; vm_compute; reflexivity. Qed.

(** C3, as stated, fails: children that are already there are synchronized
    where they stand.  The group's tree item shows rule_b before rule_a; after
    the recursive synchronization it still does, while the document has
    rule_a first. *)
Lemma synchronize_keeps_existing_order :
  ∃ t', @synchronizeTreeItem layered_OpenSCAP (deliver_itemChanged 1) demo_rules_only []
          true (demo_reversed_item, demo_window) = Ok (t', demo_window)
        ∧ map getXccdfItemFromTreeItem (children_of t')
          = [Some demo_rule_b; Some demo_rule_a]
        ∧ map getXccdfItemFromTreeItem (children_of t')
          ≠ map Some (map xccdf_value_to_item (xccdf_item_get_values demo_rules_only)
                      ++ xccdf_item_get_content demo_rules_only).
Proof.
  eexists. split; [vm_compute; reflexivity|]. split; [reflexivity|].
  vm_compute. discriminate.
Qed.

Lemma synchronize_fitting_item_orders_children_witness :
  fits (backing demo_partial_item) demo_group
  ∧ ∃ t', @synchronizeTreeItem layered_OpenSCAP (deliver_itemChanged 1) demo_group [] true
            (demo_partial_item, demo_window) = Ok (t', demo_window)
          ∧ backing t' = mirror demo_group
          ∧ map getXccdfItemFromTreeItem (children_of t')
            = map Some (map xccdf_value_to_item (xccdf_item_get_values demo_group)
                        ++ xccdf_item_get_content demo_group).
Proof.
  assert (Hfit : fits (backing demo_partial_item) demo_group).
  { apply (fits_children _ _ _ [xccdf_value_to_item demo_banner; demo_rule_b]).
    - repeat (apply NoDup_cons_2;
              [intros Hin;
               repeat (apply elem_of_cons in Hin as [Hin|Hin]; [discriminate|]);
               by apply elem_of_nil in Hin|]).
      apply NoDup_nil_2.
    - apply sublist_cons, sublist_skip, sublist_cons, sublist_skip, sublist_nil.
    - repeat constructor. }
  split; [exact Hfit|].
  exact (synchronize_fitting_item_orders_children 0 demo_group [] demo_partial_item
           demo_window Hfit).
Defined.

(** The first loop steps over the child that follows a deleted one: of two
    children that the document no longer has, the second stays. *)
Example synchronize_steps_over_a_child :
  let stale_a := XRule (demo_header "stale_a" true) in
  let stale_b := XRule (demo_header "stale_b" true) in
  let before := demo_item_for demo_rules_only
                  [demo_item_for stale_a []; demo_item_for stale_b []] in
  ∃ t', @synchronizeTreeItem layered_OpenSCAP (deliver_itemChanged 1) demo_rules_only []
          true (before, demo_window) = Ok (t', demo_window)
        ∧ map getXccdfItemFromTreeItem (children_of t')
          = [Some demo_rule_a; Some demo_rule_b; Some stale_b].
Proof. eexists. split; vm_compute; reflexivity. Qed.



(** C9 at work: the small document's window with one title change applied. *)
Lemma closeEvent_asks_first_witness :
  let s := demo_edited_session in
  let stack := mUndoStack (window s) in
  closeEvent 1 true QMessageBox_No s
  = Ok (s, {| event_accepted := false;
              QMainWindow_closeEvent_called := false;
              notifyTailoringFinished := None |})
  ∧ closeEvent 1 true QMessageBox_Yes s
    = (s2 ← foldl (fun acc cmd => s' ← acc; QUndoCommand_undo 1 cmd s') (Ok s)
              (reverse (take (stack_index stack) (command_list stack)));
       let s1 := set_stack_index 0 s2 in
       Ok (s1, {| event_accepted := true;
                  QMainWindow_closeEvent_called := true;
                  notifyTailoringFinished :=
                    Some (mNewProfile (window s1), mChangesConfirmed (window s1)) |}))
  ∧ ∀ s1 report, closeEvent 1 true QMessageBox_Yes s = Ok (s1, report) →
                 stack_index (mUndoStack (window s1)) = 0
                 ∧ QMainWindow_closeEvent_called report = true.
Proof.
  apply (closeEvent_asks_first 1 true demo_edited_session).
  - reflexivity.
  - vm_compute. lia.
Defined.

(** The title edit is in the history of that window, and accepting the
    question brings the title back. *)
Example demo_close_restores_title :
  mUndoStack (window demo_edited_session)
  = {| command_list := [ProfileTitleChangeUndoCommand "Default Profile" "My Profile"];
       stack_index := 1 |}
  ∧ getProfileTitle (window demo_edited_session) = "My Profile"
  ∧ ∃ s1 report, closeEvent 1 true QMessageBox_Yes demo_edited_session = Ok (s1, report)
                 ∧ getProfileTitle (window s1) = "Default Profile".
Proof.
  split; [vm_compute; reflexivity|]. split; [vm_compute; reflexivity|].
  eexists _, _. split; vm_compute; reflexivity.
Qed.

(** The layered library keeps the contract. *)
Lemma last_match_app {A} (P : A → bool) (l : list A) (x : A) :
  last_match P (l ++ [x]) = if P x then Some x else last_match P l.
Proof.
  induction l as [|y l IH]; simpl; [done|]. rewrite IH.
  destruct (P x); [done|]. done.
Qed.

Lemma last_match_at {A} (P : A → bool) (l : list A) i x :
  l !! i = Some x → P x = true →
  (∀ j y, i < j → l !! j = Some y → P y = false) →
  last_match P l = Some x.
Proof.
  revert i. induction l as [|y l IH]; intros [|i]; simpl; try done.
  - intros [= ->] Hx Hlater.
    assert (last_match P l = None) as ->.
    { clear IH. induction l as [|z l IHl]; [done|]. simpl.
      rewrite IHl.
      - by rewrite (Hlater 1 z) by (simpl; done || lia).
      - intros [|j] y' Hj Hy'; [lia|]. apply (Hlater (S (S j)) y'); [lia|done]. }
    by rewrite Hx.
  - intros Hi Hx Hlater. rewrite (IH i); [done|done|done|].
    intros j y' Hj Hy'. apply (Hlater (S j) y'); [lia|done].
Qed.

Lemma layered_contract : @OpenSCAP_contract layered_OpenSCAP.
Proof.
  split.
  - intros selects sel id. simpl. rewrite last_match_app.
    rewrite (bool_decide_ext (xccdf_select_get_item sel = id) (id = xccdf_select_get_item sel))
      by (split; congruence).
    by case_bool_decide.
  - intros setvalues sv item. simpl. rewrite last_match_app.
    rewrite (bool_decide_ext (xccdf_setvalue_get_item sv = xccdf_item_get_id item)
               (xccdf_item_get_id item = xccdf_setvalue_get_item sv))
      by (split; congruence).
    by case_bool_decide.
  - intros texts i text ([t Ht] & Hlast & _). simpl.
    rewrite (last_match_at _ _ i {| oscap_text_get_lang := "en_US";
                                    oscap_text_get_text := text |}); [done| | |].
    + apply list_lookup_insert_eq. by apply (lookup_lt_Some _ _ t).
    + done.
    + intros j y Hj Hy. apply bool_decide_eq_false. intros Hl.
      rewrite list_lookup_insert_ne in Hy by lia.
      destruct (Hlast j y Hy Hl) as [Hle _]. lia.
Qed.

(** C1 at work: the actions on the small document, then as many undos. *)
Lemma undo_restores_external_state_witness :
  ∃ s2, undo_times 1 (length demo_actions) demo_after_actions = Ok s2
        ∧ stack_index (mUndoStack (window s2)) = 0
        ∧ (∀ y, only_one_with_its_id (shown demo_session) y →
                getXccdfItemInternalSelected (mPolicy (window s2)) y
                = getXccdfItemInternalSelected (mPolicy (window demo_session)) y)
        ∧ (∀ v, only_one_with_its_id (shown demo_session) (xccdf_value_to_item v) →
                getCurrentValueValue v (window s2)
                = getCurrentValueValue v (window demo_session))
        ∧ getProfileTitle (window s2) = getProfileTitle (window demo_session)
        ∧ getProfileDescription (window s2) = getProfileDescription (window demo_session).
Proof.
  apply (@undo_restores_external_state layered_OpenSCAP layered_contract 0
           demo_actions demo_session demo_after_actions).
  - reflexivity.
  - vm_compute. reflexivity.
Defined.

(** The history the actions leave (the two changes of the password length
    have merged), what is observed then, and after the undos. *)
Example demo_actions_history :
  mUndoStack (window demo_after_actions)
  = {| command_list :=
         [ XCCDFItemSelectUndoCommand [0; 2] true;
           XCCDFValueChangeUndoCommand demo_password_length "12" "8";
           XCCDFValueChangeUndoCommand demo_banner "Hello" "Welcome";
           ProfileTitleChangeUndoCommand "Default Profile" "My Profile";
           ProfileDescriptionChangeUndoCommand "Nothing changed yet" "Tailored";
           XCCDFItemSelectUndoCommand [0; 3] false ];
       stack_index := 6 |}
  ∧ getXccdfItemInternalSelected (mPolicy (window demo_after_actions)) demo_rule_a = true
  ∧ getCurrentValueValue demo_password_length (window demo_after_actions) = "12"
  ∧ ∃ s2, undo_times 1 (length demo_actions) demo_after_actions = Ok s2
          ∧ getXccdfItemInternalSelected (mPolicy (window s2)) demo_rule_a = false
          ∧ getXccdfItemInternalSelected (mPolicy (window s2)) demo_rule_b = true
          ∧ getCurrentValueValue demo_password_length (window s2) = "8"
          ∧ getCurrentValueValue demo_banner (window s2) = "Welcome"
          ∧ getProfileTitle (window s2) = "Default Profile".
Proof.
  split; [vm_compute; reflexivity|]. split; [vm_compute; reflexivity|].
  split; [vm_compute; reflexivity|].
  eexists. split; [vm_compute; reflexivity|]. repeat split; vm_compute; reflexivity.
Qed.

(** * More runs on the small document *)

(** The item dock widget shows rule_a. *)
Lemma item_refresh_shows_item_witness :
  ∃ w', @XCCDFItemPropertiesDockWidget_refresh layered_OpenSCAP (deliver_panel 1)
          demo_rule_window = Ok w'
        ∧ ui_titleLineEdit (mItemPropertiesDockWidget w') = "rule_a"
        ∧ ui_typeLineEdit (mItemPropertiesDockWidget w') = "xccdf:Rule"
        ∧ ui_valueGroupBox_shown (mItemPropertiesDockWidget w') = false.
Proof.
  destruct (@item_refresh_shows_item layered_OpenSCAP 0 demo_rule_window)
    as (w' & E & Hd & _); [reflexivity|reflexivity|].
  exists w'. split; [exact E|]. rewrite Hd. repeat split.
Defined.

(** The item dock widget shows the password length: its two instances with
    a separator after the first, the current value as the text. *)
Lemma item_refresh_shows_value_witness :
  ∃ w', @XCCDFItemPropertiesDockWidget_refresh layered_OpenSCAP (deliver_panel 1)
          demo_value_window = Ok w'
        ∧ ui_valueComboBox_items (mItemPropertiesDockWidget w') = [Some "8"; None; Some "12"]
        ∧ ui_valueComboBox_editText (mItemPropertiesDockWidget w') = "8"
        ∧ ui_valueComboBox_validator (mItemPropertiesDockWidget w') = Some QIntValidator
        ∧ ui_valueTypeLabel (mItemPropertiesDockWidget w') = "(number)".
Proof.
  destruct (@item_refresh_shows_value layered_OpenSCAP 0 demo_value_window
              demo_password_length "8" ["12"])
    as (w' & E & Hd & _); [reflexivity|reflexivity|reflexivity|].
  exists w'. split; [exact E|]. rewrite Hd. repeat split.
Defined.

(** A second edit of the title merges with the first. *)
Lemma profile_text_edits_merge_witness :
  getProfileTitle (window demo_twice_edited_session) = "My Own Profile"
  ∧ profile_ui_title (mProfilePropertiesDockWidget (window demo_twice_edited_session))
    = "My Own Profile"
  ∧ mUndoStack (window demo_twice_edited_session)
    = {| command_list := [ProfileTitleChangeUndoCommand "Default Profile" "My Own Profile"];
         stack_index := 1 |}.
Proof.
  destruct (@profile_text_edits_merge layered_OpenSCAP 0 demo_edited_session
              demo_twice_edited_session "My Own Profile") as [Htitle _]; [reflexivity|].
  destruct Htitle as (Ht & Hu & Hs); [vm_compute; reflexivity|].
  split; [exact Ht|]. split; [exact Hu|]. rewrite Hs. reflexivity.
Defined.

(** Of three stale children the second stays. *)
Lemma first_loop_keeps_every_second_stale_child_witness :
  ∃ kept, delete_absent [demo_rule_a; demo_rule_b] demo_stale_children 0 []
          = (kept, [])
          ∧ length kept = 1
          ∧ ∀ k, kept !! k = demo_stale_children !! (2 * k + 1).
Proof.
  apply (first_loop_keeps_every_second_stale_child [demo_rule_a; demo_rule_b]
           demo_stale_children 0 []).
  intros child Hin.
  repeat (apply elem_of_cons in Hin as [->|Hin]; [reflexivity|]).
  by apply elem_of_nil in Hin.
Defined.

(** Selecting rule_a adds one override to the policy and one to the profile. *)
Lemma commands_only_add_overrides_witness :
  ∃ s', @QUndoCommand_redo layered_OpenSCAP 1 (XCCDFItemSelectUndoCommand [0; 2] true)
          demo_session = Ok s'
        ∧ only_adds_overrides (window demo_session) (window s')
        ∧ length (xccdf_policy_get_selects (mPolicy (window s')))
          = length (xccdf_policy_get_selects (mPolicy (window demo_session))) + 1.
Proof.
  let r := eval vm_compute in
    (@QUndoCommand_redo layered_OpenSCAP 1 (XCCDFItemSelectUndoCommand [0; 2] true)
       demo_session) in
  match r with Ok ?x => pose (s' := x) end.
  assert (E : @QUndoCommand_redo layered_OpenSCAP 1 (XCCDFItemSelectUndoCommand [0; 2] true)
                demo_session = Ok s') by (vm_compute; reflexivity).
  exists s'. split; [exact E|].
  destruct (@commands_only_add_overrides layered_OpenSCAP 0 _ demo_session s' (or_introl E))
    as (Ha & Hp & _).
  split; [exact Ha|exact Hp].
Defined.

(** Discarding after the actions on the small document. *)
Lemma discard_restores_initial_witness :
  ∃ s2 report,
    @deleteProfileAndDiscard layered_OpenSCAP 1 true QMessageBox_Yes demo_after_actions
    = Ok (s2, report)
    ∧ notifyTailoringFinished report = Some (true, false)
    ∧ stack_index (mUndoStack (window s2)) = 0
    ∧ getProfileTitle (window s2) = getProfileTitle (window demo_session)
    ∧ getProfileDescription (window s2) = getProfileDescription (window demo_session).
Proof.
  destruct (@discard_restores_initial layered_OpenSCAP layered_contract 0 demo_actions
              demo_session demo_after_actions true)
    as [(s2 & E & Hi & _ & _ & _ & _ & Ht & Hd) _];
    [reflexivity|vm_compute; reflexivity|].
  exists s2. eexists. split; [exact E|]. split; [reflexivity|]. split; [exact Hi|].
  split; [exact Ht|exact Hd].
Defined.

(** Selecting the tree item of the password length shows it. *)
Lemma itemSelectionChanged_shows_current_witness :
  ∃ s', @itemSelectionChanged layered_OpenSCAP 1 [0; 0] demo_session = Ok s'
        ∧ itemsTree s' = itemsTree demo_session
        ∧ mXccdfItem (mItemPropertiesDockWidget (window s'))
          = Some (xccdf_value_to_item demo_password_length)
        ∧ ui_idLineEdit (mItemPropertiesDockWidget (window s')) = "password_length"
        ∧ ui_valueGroupBox_shown (mItemPropertiesDockWidget (window s')) = true.
Proof.
  let r := eval vm_compute in (tree_at [0; 0] (itemsTree demo_session)) in
  match r with Some ?x => pose (treeItem := x) end.
  destruct (@itemSelectionChanged_shows_current layered_OpenSCAP 0 [0; 0] treeItem
              demo_session)
    as (s' & E & Ht & _ & _ & Hx & _ & _ & Hid & _ & _ & Hshown);
    [vm_compute; reflexivity|reflexivity|].
  exists s'. split; [exact E|]. split; [exact Ht|]. split; [exact Hx|].
  split; [exact Hid|exact Hshown].
Defined.

(** The actions on the small document only add overrides. *)
Lemma user_actions_only_add_overrides_witness :
  only_adds_overrides (window demo_session)
    (with_mUndoStack (fun _ => mUndoStack (window demo_session))
       (window demo_after_actions)).
Proof.
  apply (@user_actions_only_add_overrides layered_OpenSCAP 0 demo_actions).
  vm_compute. reflexivity.
Defined.


(** The last of the actions on the small document, undone and redone. *)
Lemma undo_then_redo_witness :
  ∃ s1 s2, @QUndoStack_undo layered_OpenSCAP 1 demo_after_actions = Ok s1
           ∧ @QUndoStack_redo layered_OpenSCAP 1 s1 = Ok s2
           ∧ stack_index (mUndoStack (window s1)) = 5
           ∧ mUndoStack (window s2) = mUndoStack (window demo_after_actions)
           ∧ getProfileTitle (window s2) = getProfileTitle (window demo_after_actions).
Proof.
  destruct (@undo_then_redo layered_OpenSCAP layered_contract 0 demo_after_actions 5
              (XCCDFItemSelectUndoCommand [0; 3] false))
    as (s1 & s2 & E1 & E2 & Hi & _ & Hs & _ & _ & _ & Ht & _).
  - vm_compute. reflexivity.
  - vm_compute. reflexivity.
  - exists demo_rule_b. split; vm_compute; reflexivity.
  - exists s1, s2. split; [exact E1|]. split; [exact E2|]. split; [exact Hi|].
    split; [exact Hs|exact Ht].
Defined.

(** Typing 10 for the password length. *)
Lemma value_edit_effect_witness :
  ∃ s1, @perform layered_OpenSCAP 1 (edit_value "10") demo_value_session = Ok s1
        ∧ getCurrentValueValue demo_password_length (window s1) = "10"
        ∧ getCurrentValueValue demo_banner (window s1) = "Welcome"
        ∧ mUndoStack (window s1)
          = {| command_list := [XCCDFValueChangeUndoCommand demo_password_length "10" "8"];
               stack_index := 1 |}.
Proof.
  destruct (@value_edit_effect layered_OpenSCAP layered_contract 0 demo_value_session
              demo_password_length "10")
    as (s1 & E & _ & Hv & Ho & _ & _ & _ & Hs & _); [reflexivity|reflexivity|].
  exists s1. split; [exact E|]. split; [exact Hv|].
  split; [rewrite (Ho demo_banner); [reflexivity|discriminate]|].
  rewrite Hs. reflexivity.
Defined.
